(** * RAG chatbot backend: retrieval confidence, response assembly, chunking
      and rate limiting

    A shallow embedding of the decision logic of the backend:

    - [scripts/ingest.py]            : [parse_markdown], [chunk_text],
                                       [extract_section_id], the point and
                                       batch loops of [ingest_docs]
    - [src/services/retrieval.py]    : [search_similar], [get_confidence_level],
                                       [get_chapter_title]
    - [src/services/generation.py]   : [format_context], [generate_response],
                                       [generate_low_confidence_response]
    - [src/api/chat.py]              : [build_sources], [send_chat_message],
                                       [send_contextual_message]
    - [src/models/schemas.py]        : [ConfidenceLevel], [Source], [ChatResponse]
    - [src/config.py]                : [Settings]
    - [src/main.py]                  : [get_client_hash], [check_rate_limit],
                                       [rate_limit_middleware]

    Python [float] is IEEE binary64, modelled by Rocq's primitive floats;
    Python [int] is [Z]; Python [str] is [string], whose characters are the
    code points 0..255.  Calls that leave the process (vector search, the
    chat-completion API, [uuid4]) and texts written by libraries (the
    message of a validation error) are oracles of a section, and every call
    is recorded in an event trace threaded through a small exception/state
    monad. *)

From Stdlib Require Import ZArith List Bool Ascii String Lia.
From Stdlib Require Import Floats.
Import ListNotations.

Set Warnings "-inexact-float".

Local Open Scope string_scope.
Local Open Scope Z_scope.

(* ===================================================================== *)
(** * Python built-ins used by the code *)
(* ===================================================================== *)

Module Py.

(** [len(s)] for a string and for a list. *)
Definition len (s : string) : Z := Z.of_nat (String.length s).
Definition llen {A} (l : list A) : Z := Z.of_nat (List.length l).

Definition chr (n : nat) : string := String (ascii_of_nat n) EmptyString.
Definition nl : string := chr 10.
Definition dquote : string := chr 34.

(** [str.isspace] on one character, for code points below 256: the ASCII
    white space 0x09-0x0D, 0x1C-0x1F, 0x20, and NEL 0x85, NBSP 0xA0. *)
Definition is_space (c : ascii) : bool :=
  let n := nat_of_ascii c in
  ((9 <=? n) && (n <=? 13) || (28 <=? n) && (n <=? 32)
   || (n =? 133) || (n =? 160))%nat.

Definition is_empty (s : string) : bool :=
  match s with EmptyString => true | String _ _ => false end.

(** [s.split()]: the maximal runs of non-space characters, in order.
    [cur] is the word being read. *)
Fixpoint split_aux (cur : string) (s : string) : list string :=
  match s with
  | EmptyString => if is_empty cur then [] else [cur]
  | String c r =>
      if is_space c
      then (if is_empty cur then split_aux EmptyString r
            else cur :: split_aux EmptyString r)
      else split_aux (cur ++ String c EmptyString) r
  end.

Definition split (s : string) : list string := split_aux EmptyString s.

(** [sep.join(ls)]. *)
Definition join (sep : string) (ls : list string) : string :=
  String.concat sep ls.

(** Python's normalisation of a slice bound against a length. *)
Definition clamp (n i : Z) : Z :=
  if i <? 0 then Z.max 0 (i + n) else Z.min i n.

(** [l[a:b]] with Python's treatment of negative and out-of-range bounds. *)
Definition slice {A} (l : list A) (a b : Z) : list A :=
  let n := llen l in
  let lo := clamp n a in
  let hi := clamp n b in
  firstn (Z.to_nat (hi - lo)) (skipn (Z.to_nat lo) l).

(** [s[:n]] for [n >= 0]. *)
Definition str_prefix (n : nat) (s : string) : string := substring 0 n s.

(** [s.find(sub, start)]: lowest index [>= start] where [sub] occurs,
    [-1] when there is none. *)
Definition find (s sub : string) (start : Z) : Z :=
  let from := if start <? 0 then Z.max 0 (start + len s) else start in
  match index (Z.to_nat from) sub s with
  | Some i => Z.of_nat i
  | None => -1
  end.

(** [c in s] for a one-character [c]. *)
Fixpoint contains_char (c : ascii) (s : string) : bool :=
  match s with
  | EmptyString => false
  | String d r => Ascii.eqb c d || contains_char c r
  end.

(** [s.replace(a, b)] for one-character [a] and [b]. *)
Fixpoint replace_char (a b : ascii) (s : string) : string :=
  match s with
  | EmptyString => EmptyString
  | String c r => String (if Ascii.eqb c a then b else c) (replace_char a b r)
  end.

(** [s.split(sep)] for a one-character [sep]; never empty. *)
Fixpoint split_on_aux (sep : ascii) (cur : string) (s : string) : list string :=
  match s with
  | EmptyString => [cur]
  | String c r =>
      if Ascii.eqb c sep then cur :: split_on_aux sep EmptyString r
      else split_on_aux sep (cur ++ String c EmptyString) r
  end.

Definition split_on (sep : ascii) (s : string) : list string :=
  split_on_aux sep EmptyString s.

(** Decimal rendering of a natural number, as [str(i)] does. *)
Fixpoint digits (fuel n : nat) (acc : string) : string :=
  match fuel with
  | O => acc
  | S fuel' =>
      let acc' := String (ascii_of_nat (48 + n mod 10)) acc in
      if (n / 10 =? 0)%nat then acc' else digits fuel' (n / 10) acc'
  end.

Definition str_of_nat (n : nat) : string := digits (S n) n EmptyString.

(** [s[n:]] for [n >= 0]. *)
Fixpoint str_drop (n : nat) (s : string) : string :=
  match n, s with
  | O, _ => s
  | S n', EmptyString => EmptyString
  | S n', String _ r => str_drop n' r
  end.

(** The lines a regular expression sees with [re.MULTILINE]: [^] matches at
    the start and after every newline, [$] before every newline and at the
    end; [.] matches every character but the newline. *)
Definition lines (s : string) : list string := split_on "010" s.

(** [str.isalnum] on one character, for code points below 256. *)
Definition is_alnum (c : ascii) : bool :=
  let n := nat_of_ascii c in
  ((48 <=? n) && (n <=? 57) || (65 <=? n) && (n <=? 90)
   || (97 <=? n) && (n <=? 122)
   || (n =? 170) || (n =? 178) || (n =? 179) || (n =? 181) || (n =? 185)
   || (n =? 186) || (188 <=? n) && (n <=? 190)
   || (192 <=? n) && (n <=? 214) || (216 <=? n) && (n <=? 246)
   || (248 <=? n))%nat.

(** The class [\w] of [re] on [str] patterns: alphanumeric or underscore. *)
Definition re_word (c : ascii) : bool := is_alnum c || Ascii.eqb c "_".

(** [str.lower], for code points below 256: the ASCII capitals and the
    Latin-1 capitals 0xC0-0xDE other than the multiplication sign. *)
Definition lower_char (c : ascii) : ascii :=
  let n := nat_of_ascii c in
  if ((65 <=? n) && (n <=? 90)
      || (192 <=? n) && (n <=? 222) && negb (n =? 215))%nat
  then ascii_of_nat (n + 32) else c.

Fixpoint lower (s : string) : string :=
  match s with
  | EmptyString => EmptyString
  | String c r => String (lower_char c) (lower r)
  end.

(** [str.title], for code points below 256.  The cased characters are the
    ASCII letters, the Latin-1 letters 0xC0-0xFF other than the
    multiplication and the division sign, the two ordinal indicators 0xAA
    and 0xBA and the micro sign 0xB5. *)
Definition is_cased (c : ascii) : bool :=
  let n := nat_of_ascii c in
  ((65 <=? n) && (n <=? 90) || (97 <=? n) && (n <=? 122)
   || (n =? 170) || (n =? 181) || (n =? 186)
   || (192 <=? n) && (n <=? 214) || (216 <=? n) && (n <=? 246)
   || (248 <=? n))%nat.

(** The title-case form of one character: the capital of a small ASCII or
    Latin-1 letter, and "Ss" for the sharp s 0xDF.  The title-case forms of
    the micro sign 0xB5 and of the y with diaeresis 0xFF are U+039C and
    U+0178, which lie beyond the code points of a [string]: these two
    characters are left as they are, and [title] is exact on every string
    in which neither of them starts a word. *)
Definition title_char (c : ascii) : string :=
  let n := nat_of_ascii c in
  if ((97 <=? n) && (n <=? 122)
      || (224 <=? n) && (n <=? 254) && negb (n =? 247))%nat
  then String (ascii_of_nat (n - 32)) EmptyString
  else if (n =? 223)%nat then "Ss"
  else String c EmptyString.

(** A character after an uncased one takes its title-case form, a character
    after a cased one its lower-case form. *)
Fixpoint title_aux (previous_is_cased : bool) (s : string) : string :=
  match s with
  | EmptyString => EmptyString
  | String c r =>
      (if previous_is_cased then String (lower_char c) EmptyString
       else title_char c)
      ++ title_aux (is_cased c) r
  end.

Definition title (s : string) : string := title_aux false s.

(** [re.sub(cls, empty, s)] for a one-character class: drop its members. *)
Fixpoint remove_class (cls : ascii -> bool) (s : string) : string :=
  match s with
  | EmptyString => EmptyString
  | String c r => if cls c then remove_class cls r else String c (remove_class cls r)
  end.

(** [re.sub(cls+, rep, s)] for a one-character class and a one-character
    [rep]: every maximal run of members becomes one [rep].  [in_run] says
    that the previous character was a member. *)
Fixpoint collapse_class (cls : ascii -> bool) (rep : ascii) (in_run : bool)
         (s : string) : string :=
  match s with
  | EmptyString => EmptyString
  | String c r =>
      if cls c then
        (if in_run then collapse_class cls rep true r
         else String rep (collapse_class cls rep true r))
      else String c (collapse_class cls rep false r)
  end.

(** [list(range(0, stop, step))] for [step > 0]. *)
Definition range_step (stop step : Z) : list Z :=
  map (fun k => Z.of_nat k * step)
      (seq 0 (Z.to_nat ((stop + step - 1) / step))).

(** [s.lstrip()], [s.rstrip()] and [s.strip()]. *)
Fixpoint lstrip (s : string) : string :=
  match s with
  | String c r => if is_space c then lstrip r else s
  | EmptyString => EmptyString
  end.

Fixpoint rstrip (s : string) : string :=
  match s with
  | String c r =>
      let r' := rstrip r in
      if is_empty r' && is_space c then EmptyString else String c r'
  | EmptyString => EmptyString
  end.

Definition strip (s : string) : string := rstrip (lstrip s).

End Py.

(* ===================================================================== *)
(** * Effects: exceptions, the event trace and the oracles' results *)
(* ===================================================================== *)

Module Eff.

(** Values of [uuid4()]; they are drawn from an oracle stream. *)
Definition UUID := nat.

(** One entry of the [messages] argument of the chat-completion call. *)
Record Message := { role : string; content : string }.

(** Calls that leave the process. *)
Inductive Event :=
| EvQueryPoints (query : string) (limit : Z) (query_filter : option string)
| EvChatCompletion (messages : list Message) (model : string)
                   (temperature : float) (max_tokens : Z).

(** A Python call returns a value or raises an exception [e]; [msg] is
    [str(e)]. *)
Inductive Outcome (A : Type) :=
| Ok (a : A)
| Raise (msg : string).
Arguments Ok {A} a.
Arguments Raise {A} msg.

Record World := { trace : list Event; uuids_drawn : nat }.

Definition initial : World := {| trace := []; uuids_drawn := 0 |}.

Definition M (A : Type) : Type := World -> Outcome A * World.

Definition ret {A} (a : A) : M A := fun w => (Ok a, w).

Definition raise {A} (msg : string) : M A := fun w => (Raise msg, w).

Definition bind {A B} (c : M A) (k : A -> M B) : M B :=
  fun w =>
    match c w with
    | (Ok a, w') => k a w'
    | (Raise msg, w') => (Raise msg, w')
    end.

(** Lift a pure computation that may raise. *)
Definition lift {A} (o : Outcome A) : M A := fun w => (o, w).

(** Record a call and return what the outside world answered. *)
Definition call {A} (e : Event) (answer : Outcome A) : M A :=
  fun w => (answer, {| trace := trace w ++ [e]; uuids_drawn := uuids_drawn w |}).



End Eff.

Declare Scope eff_scope.
Delimit Scope eff_scope with eff.
Notation "x <- c ;; k" := (Eff.bind c (fun x => k))
  (at level 61, c at next level, right associativity) : eff_scope.

(* ===================================================================== *)
(** * src/config.py *)
(* ===================================================================== *)

Module Config.

(** The fields of [Settings] that the modelled code reads. *)
Record Settings := {
  groq_model : string;
  retrieval_top_k : Z;
  confidence_high_threshold : float;
  confidence_low_threshold : float
}.

(** The field defaults of [Settings]. *)
Definition defaults : Settings := {|
  groq_model := "llama-3.1-8b-instant";
  retrieval_top_k := 3;
  confidence_high_threshold := 0.7%float;
  confidence_low_threshold := 0.4%float
|}.

End Config.

(* ===================================================================== *)
(** * src/models/schemas.py *)
(* ===================================================================== *)

Module Schemas.

Inductive ConfidenceLevel := HIGH | MEDIUM | LOW.

Definition ConfidenceLevel_value (c : ConfidenceLevel) : string :=
  match c with HIGH => "high" | MEDIUM => "medium" | LOW => "low" end.

(** [ConfidenceLevel(s)]: the member whose value is [s], [ValueError]
    otherwise. *)
Definition ConfidenceLevel_of (s : string) : Eff.Outcome ConfidenceLevel :=
  if (s =? "high")%string then Eff.Ok HIGH
  else if (s =? "medium")%string then Eff.Ok MEDIUM
  else if (s =? "low")%string then Eff.Ok LOW
  else Eff.Raise ("'" ++ s ++ "' is not a valid ConfidenceLevel").

Inductive ErrorCode :=
| INVALID_REQUEST | MESSAGE_TOO_LONG | SELECTED_TEXT_TOO_LONG
| RATE_LIMIT_EXCEEDED | SERVICE_UNAVAILABLE | INTERNAL_ERROR.

Record ChatRequest := {
  message : string;
  session_id : option Eff.UUID
}.

Record ContextualChatRequest := {
  ctx_message : string;
  selected_text : string;
  ctx_chapter_slug : option string;
  ctx_session_id : option Eff.UUID
}.

Record Source := {
  chapter_slug : string;
  chapter_title : string;
  section_id : option string;
  section_title : option string;
  excerpt : string;
  score : float
}.

(** The field constraints of [Source]: [excerpt] has [max_length=200],
    [score] has [ge=-1] and [le=1]. *)
Definition Source_valid (s : Source) : bool :=
  (Py.len (excerpt s) <=? 200)
  && ((-1) <=? score s)%float && (score s <=? 1)%float.

(** [Source(...)]: the model validates its fields and raises
    [ValidationError] when a constraint fails.  [validation_error s] is
    [str(e)] of that exception, a text pydantic writes from the fields. *)
Definition Source_new (validation_error : Source -> string) (s : Source)
  : Eff.Outcome Source :=
  if Source_valid s then Eff.Ok s
  else Eff.Raise (validation_error s).

Record ChatResponse := {
  message_id : Eff.UUID;
  resp_session_id : Eff.UUID;
  answer : string;
  confidence : ConfidenceLevel;
  sources : list Source;
  disclaimer : option string
}.

End Schemas.

(* ===================================================================== *)
(** * src/services/retrieval.py *)
(* ===================================================================== *)

Module Retrieval.

Record RetrievalResult := {
  chunk_text : string;
  chapter_slug : string;
  section_id : option string;
  chunk_index : Z;
  score : float;
  start_char : Z;
  end_char : Z
}.

(** The payload of a stored point, as [scripts/ingest.py] writes it; a key
    that is absent is [None]. *)
Record Payload := {
  p_chunk_text : option string;
  p_chapter_slug : option string;
  p_section_id : option string;
  p_chunk_index : option Z;
  p_start_char : option Z;
  p_end_char : option Z
}.

(** The empty dict. *)
Definition empty_payload : Payload := {|
  p_chunk_text := None; p_chapter_slug := None; p_section_id := None;
  p_chunk_index := None; p_start_char := None; p_end_char := None
|}.

(** One entry of the [points] the vector store returns. *)
Record ScoredPoint := {
  hit_payload : option Payload;
  hit_score : float
}.

(** [d.get(key, default)] on a field of the payload. *)
Definition get_or {A} (field : option A) (default : A) : A :=
  match field with Some v => v | None => default end.

(** The body of the loop that converts the hits of [search_similar]. *)
Definition result_of_hit (hit : ScoredPoint) : RetrievalResult :=
  let payload := get_or (hit_payload hit) empty_payload in
  {| chunk_text := get_or (p_chunk_text payload) EmptyString;
     chapter_slug := get_or (p_chapter_slug payload) "unknown";
     section_id := p_section_id payload;
     chunk_index := get_or (p_chunk_index payload) 0;
     score := hit_score hit;
     start_char := get_or (p_start_char payload) 0;
     end_char := get_or (p_end_char payload) 0 |}.

Definition results_of_hits (results : list ScoredPoint) : list RetrievalResult :=
  map result_of_hit results.

Definition CHAPTER_TITLES : list (string * string) :=
  [ ("intro", "Introduction to Physical AI");
    ("humanoid-basics", "Basics of Humanoid Robotics");
    ("ros2-fundamentals", "ROS 2 Fundamentals");
    ("digital-twin", "Digital Twin Simulation");
    ("vla-systems", "Vision-Language-Action Systems");
    ("capstone", "Capstone Project") ].

(** [d.get(k, default)] on a dict given by its items. *)
Fixpoint dict_get (d : list (string * string)) (k default : string) : string :=
  match d with
  | [] => default
  | (k', v) :: d' => if (k =? k')%string then v else dict_get d' k default
  end.

(** The filter of the vector query: [if chapter_filter:] holds for a
    non-empty string. *)
Definition search_filter_of (chapter_filter : option string) : option string :=
  match chapter_filter with
  | Some c => if Py.is_empty c then None else Some c
  | None => None
  end.

Section Search.
Variable settings : Config.Settings.

(** What the embedding model and the vector store answer to a query:
    the hits already mapped to [RetrievalResult], or an exception. *)
Variable query_points :
  string -> Z -> option string -> Eff.Outcome (list RetrievalResult).

Definition search_similar (query : string) (top_k : option Z)
           (chapter_filter : option string)
  : Eff.M (list RetrievalResult) :=
  let top_k := match top_k with None => Config.retrieval_top_k settings
                           | Some k => k end in
  let search_filter := search_filter_of chapter_filter in
  Eff.call (Eff.EvQueryPoints query top_k search_filter)
           (query_points query top_k search_filter).

Definition get_confidence_level (top_score : float) : string :=
  if (Config.confidence_high_threshold settings <=? top_score)%float then "high"
  else if (Config.confidence_low_threshold settings <=? top_score)%float then "medium"
  else "low".

End Search.

Definition get_chapter_title (chapter_slug : string) : string :=
  dict_get CHAPTER_TITLES chapter_slug
           (Py.title (Py.replace_char "-" " " chapter_slug)).

End Retrieval.

(* ===================================================================== *)
(** * src/services/generation.py *)
(* ===================================================================== *)

Module Generation.
Import Retrieval.

Definition SYSTEM_PROMPT : string :=
  "You are an AI teaching assistant for the " ++ Py.dquote
  ++ "Physical AI & Humanoid Robotics" ++ Py.dquote
  ++ " textbook. Your role is to help students understand the textbook content."
  ++ Py.nl ++ Py.nl
  ++ "CRITICAL RULES:" ++ Py.nl
  ++ "1. ONLY answer questions using the provided textbook context. Do not use any external knowledge."
  ++ Py.nl
  ++ "2. If the context does not contain enough information to answer the question, say "
  ++ Py.dquote ++ "This topic may not be covered in this textbook" ++ Py.dquote
  ++ " or " ++ Py.dquote
  ++ "I don't have enough information from the textbook to answer this."
  ++ Py.dquote ++ Py.nl
  ++ "3. Always cite the specific chapter when providing information." ++ Py.nl
  ++ "4. Keep answers clear, concise, and educational." ++ Py.nl
  ++ "5. If asked about topics outside the textbook scope, politely redirect to the textbook content."
  ++ Py.nl ++ Py.nl
  ++ "The textbook covers:" ++ Py.nl
  ++ "- Chapter 1: Introduction to Physical AI" ++ Py.nl
  ++ "- Chapter 2: Basics of Humanoid Robotics" ++ Py.nl
  ++ "- Chapter 3: ROS 2 Fundamentals" ++ Py.nl
  ++ "- Chapter 4: Digital Twin Simulation (Gazebo + Isaac Sim)" ++ Py.nl
  ++ "- Chapter 5: Vision-Language-Action Systems" ++ Py.nl
  ++ "- Chapter 6: Capstone Project".

(** The loop of [format_context], [i] counting from 1. *)
Fixpoint context_parts (i : nat) (results : list RetrievalResult) : list string :=
  match results with
  | [] => []
  | result :: rest =>
      let chapter_name :=
        Py.title (Py.replace_char "-" " " (chapter_slug result)) in
      ("[Source " ++ Py.str_of_nat i ++ ": " ++ chapter_name ++ "]" ++ Py.nl
       ++ chunk_text result)
      :: context_parts (S i) rest
  end.

Definition format_context (results : list RetrievalResult) : string :=
  match results with
  | [] => "No relevant content found in the textbook."
  | _ => Py.join (Py.nl ++ Py.nl) (context_parts 1 results)
  end.

(** The user turn of the prompt; [if selected_text:] holds for a
    non-empty string. *)
Definition user_message (query : string) (context : string)
           (selected_text : option string) : string :=
  let plain :=
    "Student question: " ++ query ++ Py.nl ++ Py.nl
    ++ "Relevant textbook context:" ++ Py.nl
    ++ context ++ Py.nl ++ Py.nl
    ++ "Please answer the student's question based on the textbook content provided." in
  match selected_text with
  | Some sel =>
      if Py.is_empty sel then plain
      else
        "The student has selected the following text from the textbook:"
        ++ Py.nl ++ Py.nl
        ++ Py.dquote ++ sel ++ Py.dquote ++ Py.nl ++ Py.nl
        ++ "They are asking: " ++ query ++ Py.nl ++ Py.nl
        ++ "Relevant textbook context:" ++ Py.nl
        ++ context ++ Py.nl ++ Py.nl
        ++ "Please help the student understand the selected text and answer their question based on the textbook content."
  | None => plain
  end.

Definition prompt (query : string) (context_results : list RetrievalResult)
           (selected_text : option string) : list Eff.Message :=
  [ {| Eff.role := "system"; Eff.content := SYSTEM_PROMPT |};
    {| Eff.role := "user";
       Eff.content := user_message query (format_context context_results)
                                   selected_text |} ].

Section Generate.
Variable settings : Config.Settings.

(** What the chat-completion API answers: the content of the first
    choice, or an exception. *)
Variable chat_completions_create :
  list Eff.Message -> string -> float -> Z -> Eff.Outcome string.

Definition generate_response (query : string)
           (context_results : list RetrievalResult)
           (selected_text : option string) : Eff.M string :=
  let messages := prompt query context_results selected_text in
  let model := Config.groq_model settings in
  Eff.call (Eff.EvChatCompletion messages model 0.3%float 1000)
           (chat_completions_create messages model 0.3%float 1000).

End Generate.

Definition generate_low_confidence_response (query : string) : string :=
  "I couldn't find enough relevant information in the textbook to answer "
  ++ "your question about this topic. This may be because:" ++ Py.nl ++ Py.nl
  ++ "1. The topic isn't covered in this textbook" ++ Py.nl
  ++ "2. The question is phrased differently than the textbook content" ++ Py.nl
  ++ "3. This is an advanced topic beyond the scope of this course" ++ Py.nl ++ Py.nl
  ++ "Try rephrasing your question, or ask about specific topics from the "
  ++ "table of contents: Introduction to Physical AI, Humanoid Robotics, "
  ++ "ROS 2, Digital Twins, or VLA Systems.".

End Generation.

(* ===================================================================== *)
(** * src/api/chat.py *)
(* ===================================================================== *)

Module Chat.
Import Schemas.
Local Open Scope eff_scope.

(** The [detail] of the [HTTPException] raised by a handler. *)
Record ErrorDetail := {
  error : string;
  code : ErrorCode;
  details_message : string
}.

(** What a handler gives back to the framework. *)
Inductive HttpResult :=
| Response (r : ChatResponse)
| HTTPException (status_code : Z) (detail : ErrorDetail).

(** [results[0].score if results else 0]. *)
Definition top_score (results : list Retrieval.RetrievalResult) : float :=
  match results with
  | r :: _ => Retrieval.score r
  | [] => 0%float
  end.

(** The excerpt of a source:
    [chunk_text[:200] if len(chunk_text) > 200 else chunk_text]. *)
Definition excerpt_of (chunk_text : string) : string :=
  if Py.len chunk_text >? 200 then Py.str_prefix 200 chunk_text else chunk_text.

Section Handlers.
Variable settings : Config.Settings.

(** [round(x, ndigits)] on floats. *)
Variable round : float -> Z -> float.

(** [str(e)] of the [ValidationError] that [Source] raises on fields that
    fail its constraints. *)
Variable validation_error : Source -> string.

Variable query_points :
  string -> Z -> option string -> Eff.Outcome (list Retrieval.RetrievalResult).
Variable chat_completions_create :
  list Eff.Message -> string -> float -> Z -> Eff.Outcome string.

(** The values successive [uuid4()] calls return. *)
Variable uuid_stream : nat -> Eff.UUID.

Definition uuid4 : Eff.M Eff.UUID :=
  fun w => (Eff.Ok (uuid_stream (Eff.uuids_drawn w)),
            {| Eff.trace := Eff.trace w;
               Eff.uuids_drawn := S (Eff.uuids_drawn w) |}).

Definition search_similar := Retrieval.search_similar settings query_points.
Definition get_confidence_level := Retrieval.get_confidence_level settings.
Definition generate_response :=
  Generation.generate_response settings chat_completions_create.

(** The fields [build_sources] passes to [Source] for one result. *)
Definition source_fields (result : Retrieval.RetrievalResult) : Source :=
  let section_title :=
    match Retrieval.section_id result with
    | Some sid =>
        if negb (Py.is_empty sid) && Py.contains_char "#" sid
        then Some (Py.title (Py.replace_char "-" " "
                               (nth 1 (Py.split_on "#" sid) EmptyString)))
        else None
    | None => None
    end in
  {| chapter_slug := Retrieval.chapter_slug result;
     chapter_title := Retrieval.get_chapter_title (Retrieval.chapter_slug result);
     section_id := Retrieval.section_id result;
     section_title := section_title;
     excerpt := excerpt_of (Retrieval.chunk_text result);
     score := round (Retrieval.score result) 3 |}.

Fixpoint build_sources (retrieval_results : list Retrieval.RetrievalResult)
  : Eff.Outcome (list Source) :=
  match retrieval_results with
  | [] => Eff.Ok []
  | result :: rest =>
      match Source_new validation_error (source_fields result) with
      | Eff.Ok s =>
          match build_sources rest with
          | Eff.Ok ss => Eff.Ok (s :: ss)
          | Eff.Raise msg => Eff.Raise msg
          end
      | Eff.Raise msg => Eff.Raise msg
      end
  end.

(** [ChatResponse(message_id=uuid4(), session_id=sid or uuid4(), ...)]. *)
Definition make_response (sid : option Eff.UUID) (answer : string)
           (confidence : string) (sources : list Source)
           (disclaimer : option string) : Eff.M ChatResponse :=
  mid <- uuid4 ;;
  sid' <- match sid with Some u => Eff.ret u | None => uuid4 end ;;
  level <- Eff.lift (ConfidenceLevel_of confidence) ;;
  Eff.ret {| message_id := mid; resp_session_id := sid'; answer := answer;
             confidence := level; sources := sources;
             disclaimer := disclaimer |}.

(** [try: ... except Exception as e: raise HTTPException(500, ...)]. *)
Definition guarded (what : string) (body : Eff.M ChatResponse)
  : Eff.World -> HttpResult * Eff.World :=
  fun w =>
    match body w with
    | (Eff.Ok r, w') => (Response r, w')
    | (Eff.Raise msg, w') =>
        (HTTPException 500 {| error := what; code := INTERNAL_ERROR;
                              details_message := msg |}, w')
    end.

Definition send_chat_message (request : ChatRequest)
  : Eff.World -> HttpResult * Eff.World :=
  guarded "Failed to process chat request" (
    results <- search_similar (message request) None None ;;
    let confidence := get_confidence_level (top_score results) in
    if (confidence =? "low")%string then
      let answer := Generation.generate_low_confidence_response (message request) in
      make_response (session_id request) answer confidence []
                    (Some "This topic may not be covered in the textbook.")
    else
      answer <- generate_response (message request) results None ;;
      sources <- Eff.lift (build_sources results) ;;
      let disclaimer :=
        if (confidence =? "medium")%string
        then Some "Based on limited context from the textbook. The answer may be incomplete."
        else None in
      make_response (session_id request) answer confidence sources disclaimer).

Definition send_contextual_message (request : ContextualChatRequest)
  : Eff.World -> HttpResult * Eff.World :=
  guarded "Failed to process contextual chat request" (
    results <- search_similar (ctx_message request) None
                              (ctx_chapter_slug request) ;;
    let confidence := get_confidence_level (top_score results) in
    if (confidence =? "low")%string then
      answer <- generate_response (ctx_message request) results
                                  (Some (selected_text request)) ;;
      sources <- Eff.lift (match results with
                           | [] => Eff.Ok []
                           | _ => build_sources results
                           end) ;;
      make_response (ctx_session_id request) answer "medium" sources
                    (Some "Response based primarily on the selected text.")
    else
      answer <- generate_response (ctx_message request) results
                                  (Some (selected_text request)) ;;
      sources <- Eff.lift (build_sources results) ;;
      let disclaimer :=
        if (confidence =? "medium")%string
        then Some "Based on the selected text and limited textbook context."
        else None in
      make_response (ctx_session_id request) answer confidence sources disclaimer).

End Handlers.

End Chat.

(* ===================================================================== *)
(** * scripts/ingest.py *)
(* ===================================================================== *)

Module Ingest.

(** The dict [chunk_text] appends for each window. *)
Record Chunk := {
  text : string;
  start_char : Z;
  end_char : Z
}.

(** The variables the [while] loop of [chunk_text] updates. *)
Record LoopState := {
  start_idx : Z;
  char_pos : Z;
  chunks : list Chunk
}.

Section Loop.
Variable text_in : string.
Variable words : list string.
Variables max_tokens overlap_tokens : Z.

(** One pass through the loop body: the state after it, and whether
    the final [if end_idx >= len(words): break] fired. *)
Definition loop_body (st : LoopState) : LoopState * bool :=
  let end_idx := Z.min (start_idx st + max_tokens) (Py.llen words) in
  let chunk_words := Py.slice words (start_idx st) end_idx in
  let chunk_text := Py.join " " chunk_words in
  let start_char :=
    match chunk_words with
    | w :: _ => Py.find text_in w (char_pos st)
    | [] => char_pos st
    end in
  let end_char := start_char + Py.len chunk_text in
  ({| start_idx := end_idx - overlap_tokens;
      char_pos := end_char;
      chunks := chunks st ++ [ {| text := chunk_text;
                                  start_char := start_char;
                                  end_char := end_char |} ] |},
   Py.llen words <=? end_idx).

(** [while start_idx < len(words): ...], run for at most [fuel]
    passes; [None] when the loop is still running after them. *)
Fixpoint chunk_loop (fuel : nat) (st : LoopState) : option (list Chunk) :=
  match fuel with
  | O => None
  | S fuel' =>
      if start_idx st <? Py.llen words then
        let (st', break) := loop_body st in
        if break then Some (chunks st') else chunk_loop fuel' st'
      else Some (chunks st)
  end.

End Loop.

Definition chunk_text (fuel : nat) (text_in : string)
           (max_tokens overlap_tokens : Z) : option (list Chunk) :=
  chunk_loop text_in (Py.split text_in) max_tokens overlap_tokens fuel
             {| start_idx := 0; char_pos := 0; chunks := [] |}.

(** The default arguments [max_tokens=512], [overlap_tokens=50]. *)
Definition default_max_tokens : Z := 512.
Definition default_overlap_tokens : Z := 50.

(** ** [parse_markdown] *)

(** The dict [parse_markdown] returns. *)
Record Parsed := {
  title : string;
  content : string
}.

Definition FRONTMATTER_OPEN : string := "---" ++ Py.nl.
Definition FRONTMATTER_CLOSE : string := Py.nl ++ "---" ++ Py.nl.

(** [re.match(r'^---\n(.*?)\n---\n', content, re.DOTALL)]: the end of the
    match, if there is one.  The lazy group stops at the first closing
    line after the opening one. *)
Definition frontmatter_match_end (content : string) : option nat :=
  if prefix FRONTMATTER_OPEN content then
    match index 4 FRONTMATTER_CLOSE content with
    | Some i => Some (i + 5)%nat
    | None => None
    end
  else None.

(** [re.search(r'^# (.+)$', content, re.MULTILINE)]: group 1 of the first
    line that is a hash, a space and at least one more character. *)
Fixpoint title_search (lines : list string) : option string :=
  match lines with
  | [] => None
  | line :: rest =>
      if prefix "# " line && negb (Py.is_empty (Py.str_drop 2 line))
      then Some (Py.str_drop 2 line)
      else title_search rest
  end.

Definition parse_markdown (content : string) : Parsed :=
  let content :=
    match frontmatter_match_end content with
    | Some e => Py.str_drop e content
    | None => content
    end in
  let title :=
    match title_search (Py.lines content) with
    | Some t => t
    | None => "Untitled"
    end in
  {| title := title; content := content |}.

(** ** [extract_section_id] *)

(** The number of leading hashes of a line. *)
Fixpoint count_hashes (s : string) : nat :=
  match s with
  | String c r => if Ascii.eqb c "#" then S (count_hashes r) else O
  | EmptyString => O
  end.

(** One line against [##+ (.+)$]: two or more hashes, a space, and at least
    one more character, which is group 1. *)
Definition heading_of_line (line : string) : option string :=
  let k := count_hashes line in
  if (2 <=? k)%nat && prefix " " (Py.str_drop k line)
     && negb (Py.is_empty (Py.str_drop (S k) line))
  then Some (Py.str_drop (S k) line)
  else None.

(** [re.search(r'^##+ (.+)$', text, re.MULTILINE)]: group 1 of the first
    line that matches. *)
Fixpoint heading_search (lines : list string) : option string :=
  match lines with
  | [] => None
  | line :: rest =>
      match heading_of_line line with
      | Some h => Some h
      | None => heading_search rest
      end
  end.

(** The class [[^\w\s-]] and the class [[\s_]]. *)
Definition not_word_space_hyphen (c : ascii) : bool :=
  negb (Py.re_word c || Py.is_space c || Ascii.eqb c "-").

Definition space_or_underscore (c : ascii) : bool :=
  Py.is_space c || Ascii.eqb c "_".

(** The two [re.sub] calls on the lowered heading. *)
Definition heading_slug_of (heading : string) : string :=
  let heading_slug := Py.remove_class not_word_space_hyphen (Py.lower heading) in
  Py.collapse_class space_or_underscore "-" false heading_slug.

Definition extract_section_id (text chapter_slug : string) : string :=
  match heading_search (Py.lines text) with
  | Some heading => chapter_slug ++ "#" ++ heading_slug_of heading
  | None => chapter_slug
  end.

(** ** The loops of [ingest_docs] *)

(** A [PointStruct]. *)
Record PointStruct := {
  id : Eff.UUID;
  vector : list float;
  payload : Retrieval.Payload
}.

(** [for i, (chunk, embedding) in enumerate(zip(chunks, embeddings))]: the
    points of one file, [i] counting from the given index and the ids taken
    from the stream of [uuid4()] values from [drawn] on. *)
Fixpoint file_points (uuid_stream : nat -> Eff.UUID) (drawn : nat) (i : Z)
         (chapter_slug : string) (chunks : list Chunk)
         (embeddings : list (list float)) : list PointStruct :=
  match chunks, embeddings with
  | chunk :: chunks', embedding :: embeddings' =>
      {| id := uuid_stream drawn;
         vector := embedding;
         payload := {|
           Retrieval.p_chunk_text := Some (text chunk);
           Retrieval.p_chapter_slug := Some chapter_slug;
           Retrieval.p_section_id :=
             Some (extract_section_id (text chunk) chapter_slug);
           Retrieval.p_chunk_index := Some i;
           Retrieval.p_start_char := Some (start_char chunk);
           Retrieval.p_end_char := Some (end_char chunk) |} |}
      :: file_points uuid_stream (S drawn) (i + 1) chapter_slug chunks' embeddings'
  | _, _ => []
  end.

(** [for i in range(0, len(all_points), batch_size):
       batch = all_points[i:i + batch_size]]: the batches, in upload
    order. *)
Definition upload_batches {A} (all_points : list A) (batch_size : Z)
  : list (list A) :=
  map (fun i => Py.slice all_points i (i + batch_size))
      (Py.range_step (Py.llen all_points) batch_size).

Definition batch_size : Z := 100.

End Ingest.

(* ===================================================================== *)
(** * src/main.py *)
(* ===================================================================== *)

Module Main.

(** The fields of [Settings] the rate limiter reads. *)
Record Limits := {
  rate_limit_requests : Z;
  rate_limit_window_seconds : Z
}.

Definition default_limits : Limits :=
  {| rate_limit_requests := 100; rate_limit_window_seconds := 3600 |}.

(** The parts of a request the middleware looks at: the path of the URL,
    the host of the client if there is one, and the header
    [X-Forwarded-For], the empty string when it is absent. *)
Record Request := {
  path : string;
  client_host : option string;
  x_forwarded_for : string
}.

Section RateLimit.
Variable limits : Limits.

(** Values of [datetime.utcnow()]. *)
Variable Time : Type.

(** [(now - window_start).total_seconds() >= rate_limit_window_seconds]. *)
Variable window_expired : Time -> Time -> bool.

(** [int(rate_limit_window_seconds - elapsed_seconds)], with
    [elapsed_seconds = (now - window_start).total_seconds()]. *)
Variable retry_after_seconds : Time -> Time -> Z.

(** [hashlib.sha256(identifier.encode()).hexdigest()]. *)
Variable sha256_hexdigest : string -> string.

(** The inner dict of [rate_limit_store]. *)
Record ClientData := {
  count : Z;
  window_start : Time
}.

(** [rate_limit_store], a dict from client hash to client data. *)
Definition Store := string -> option ClientData.

Definition empty_store : Store := fun _ => None.

(** [store[key] = value]. *)
Definition store_set (store : Store) (key : string) (value : ClientData) : Store :=
  fun k => if (k =? key)%string then Some value else store k.

Definition get_client_hash (request : Request) : string :=
  let client_ip := match client_host request with
                   | Some host => host
                   | None => "unknown"
                   end in
  let forwarded_for := x_forwarded_for request in
  let identifier :=
    if Py.is_empty forwarded_for then client_ip
    else Py.strip (nth 0 (Py.split_on "," forwarded_for) EmptyString) in
  sha256_hexdigest identifier.

(** [check_rate_limit] at the time [now]: the pair it returns, and the
    store after the call. *)
Definition check_rate_limit (client_hash : string) (now : Time) (store : Store)
  : (bool * option Z) * Store :=
  match store client_hash with
  | None =>
      ((true, None),
       store_set store client_hash {| count := 1; window_start := now |})
  | Some client_data =>
      if window_expired now (window_start client_data) then
        ((true, None),
         store_set store client_hash {| count := 1; window_start := now |})
      else if rate_limit_requests limits <=? count client_data then
        ((false, Some (retry_after_seconds now (window_start client_data))),
         store)
      else
        ((true, None),
         store_set store client_hash
                   {| count := count client_data + 1;
                      window_start := window_start client_data |})
  end.

(** What the middleware does with a request: it answers 429 itself, with
    the value of the header [Retry-After], or it hands the request on. *)
Inductive Verdict :=
| TooManyRequests (status_code : Z) (code : Schemas.ErrorCode) (retry_after : option Z)
| CallNext.

Definition rate_limit_middleware (request : Request) (now : Time) (store : Store)
  : Verdict * Store :=
  if prefix "/chat" (path request) then
    let client_hash := get_client_hash request in
    let '((is_allowed, retry_after), store') :=
      check_rate_limit client_hash now store in
    if negb is_allowed
    then (TooManyRequests 429 Schemas.RATE_LIMIT_EXCEEDED retry_after, store')
    else (CallNext, store')
  else (CallNext, store).

(** The verdicts of a sequence of requests of one client, in order. *)
Fixpoint check_all (client_hash : string) (times : list Time) (store : Store)
  : list bool * Store :=
  match times with
  | [] => ([], store)
  | now :: rest =>
      let '((is_allowed, _), store') := check_rate_limit client_hash now store in
      let '(verdicts, store'') := check_all client_hash rest store' in
      (is_allowed :: verdicts, store'')
  end.

End RateLimit.

End Main.

(* ===================================================================== *)
(** * Auxiliary definitions for the statements *)
(* ===================================================================== *)

Module FloatKey.

(** Position of a value that is a number on the extended real line, as
    a key compared lexicographically: class, then exponent, then
    mantissa. *)
Definition key (x : spec_float) : Z * Z * Z :=
  match x with
  | S754_nan => (0, 0, 0)
  | S754_zero _ => (0, 0, 0)
  | S754_infinity true => (-2, 0, 0)
  | S754_infinity false => (2, 0, 0)
  | S754_finite true m e => (-1, - e, - Z.pos m)
  | S754_finite false m e => (1, e, Z.pos m)
  end%Z.

Definition lex (a b : Z * Z * Z) : comparison :=
  let '(a1, a2, a3) := a in
  let '(b1, b2, b3) := b in
  match (a1 ?= b1)%Z with
  | Eq => match (a2 ?= b2)%Z with Eq => (a3 ?= b3)%Z | c => c end
  | c => c
  end.

Definition is_nan_sf (x : spec_float) : bool :=
  match x with S754_nan => true | _ => false end.

Definition fkey (x : float) : Z * Z * Z := key (Prim2SF x).

End FloatKey.

(** Statements read off the specification, to be compared with the code. *)
Module Claims.

(** The order LOW < MEDIUM < HIGH on the values of [ConfidenceLevel]. *)
Definition level_rank (level : string) : nat :=
  match Schemas.ConfidenceLevel_of level with
  | Eff.Ok Schemas.HIGH => 2
  | Eff.Ok Schemas.MEDIUM => 1
  | _ => 0
  end.

(** "LOW iff s < low_threshold", for one configuration and one score. *)
Definition low_iff_below (cfg : Config.Settings) (s : float) : Prop :=
  Retrieval.get_confidence_level cfg s = "low"
  <-> (s <? Config.confidence_low_threshold cfg)%float = true.

(** "An empty result list is classified LOW", for one configuration. *)
Definition empty_is_low (cfg : Config.Settings) : Prop :=
  Retrieval.get_confidence_level cfg (Chat.top_score []) = "low".

(** The constraint of [Source.score]: [ge=-1, le=1]. *)
Definition score_in_range (x : float) : bool :=
  ((-1) <=? x)%float && (x <=? 1)%float.

(** A configuration with a negative low threshold: cosine scores range over
    [-1, 1]. *)
Definition negative_low : Config.Settings := {|
  Config.groq_model := Config.groq_model Config.defaults;
  Config.retrieval_top_k := 3;
  Config.confidence_high_threshold := 0.5%float;
  Config.confidence_low_threshold := (-0.5)%float
|}.

(** Sample data for concrete runs. *)
Fixpoint repeat_char (c : ascii) (n : nat) : string :=
  match n with
  | O => EmptyString
  | S n' => String c (repeat_char c n')
  end.

Definition sample_result (chunk_text : string) (score : float)
  : Retrieval.RetrievalResult := {|
  Retrieval.chunk_text := chunk_text;
  Retrieval.chapter_slug := "ros2-fundamentals";
  Retrieval.section_id := Some "ros2-fundamentals#nodes-and-topics";
  Retrieval.chunk_index := 0;
  Retrieval.score := score;
  Retrieval.start_char := 0;
  Retrieval.end_char := Py.len chunk_text
|}.

(** A stand-in for [round] that leaves its argument as it is. *)
Definition round_id (x : float) (ndigits : Z) : float := x.

(** A stand-in for the text of a [ValidationError]: it names the chapter
    of the Source that was refused. *)
Definition sample_validation_error (s : Schemas.Source) : string :=
  "Source refused: " ++ Schemas.chapter_slug s.

(** A vector store that answers every query with the same hits. *)
Definition always_hits (hits : list Retrieval.RetrievalResult)
           (query : string) (limit : Z) (query_filter : option string)
  : Eff.Outcome (list Retrieval.RetrievalResult) := Eff.Ok hits.

(** A chat-completion API that answers every prompt with the same text. *)
Definition always_says (completion : string)
           (messages : list Eff.Message) (model : string)
           (temperature : float) (max_tokens : Z)
  : Eff.Outcome string := Eff.Ok completion.

Definition uuid_count (n : nat) : Eff.UUID := n.




(** The identifiers of a response: [message_id] is the next value of
    [uuid4()], and so is [session_id] when the request has none. *)
Definition session_of (uuid_stream : nat -> Eff.UUID) (sid : option Eff.UUID)
           (w : Eff.World) : Eff.UUID :=
  match sid with
  | Some u => u
  | None => uuid_stream (S (Eff.uuids_drawn w))
  end.

Definition drawn_after (sid : option Eff.UUID) (w : Eff.World) : nat :=
  match sid with
  | Some _ => S (Eff.uuids_drawn w)
  | None => S (S (Eff.uuids_drawn w))
  end.

(** A string without white space, and a word of [split]: non-empty and
    without white space. *)
Fixpoint no_space (s : string) : bool :=
  match s with
  | EmptyString => true
  | String c r => negb (Py.is_space c) && no_space r
  end.

Definition is_word (w : string) : bool := negb (Py.is_empty w) && no_space w.

Fixpoint all_space (s : string) : bool :=
  match s with
  | EmptyString => true
  | String c r => Py.is_space c && all_space r
  end.

(** "The sequence of start offsets is non-decreasing." *)
Fixpoint non_decreasing (l : list Z) : bool :=
  match l with
  | x :: ((y :: _) as r) => (x <=? y) && non_decreasing r
  | _ => true
  end.

(** The last chunk of a list, if it has one. *)
Definition last_chunk (cs : list Ingest.Chunk) : option Ingest.Chunk :=
  last (map Some cs) None.

(** "Chunking [T] gives a last chunk whose [end_char] is [len(T)]." *)
Definition final_end_is_len (T : string) (max_tokens overlap_tokens : Z) : Prop :=
  exists fuel cs c,
    Ingest.chunk_text fuel T max_tokens overlap_tokens = Some cs
    /\ last_chunk cs = Some c
    /\ Ingest.end_char c = Py.len T.

(** A text whose words are separated by single spaces, with no white space
    after the last word; white space before the first word is allowed. *)
Definition single_spaced (T : string) : Prop :=
  exists lead, all_space lead = true /\ T = lead ++ Py.join " " (Py.split T).

(** The property of a chunk that C9 describes: its text is a window of the
    words of [T] joined by single spaces, and [end_char] is [start_char]
    plus the length of that text. *)
Definition joined_window (T : string) (c : Ingest.Chunk) : Prop :=
  exists i j : Z,
    let ws := Py.slice (Py.split T) i j in
    Forall (fun w => is_word w = true) ws
    /\ Ingest.text c = Py.join " " ws
    /\ Ingest.end_char c = Ingest.start_char c + Py.len (Ingest.text c).

(** A text of [k] distinct words [w0 w1 ...] separated by single spaces. *)
Definition numbered_words (k : nat) : string :=
  Py.join " " (map (fun i => "w" ++ Py.str_of_nat i) (seq 0 k)).

(** In the text [lead ++ " ".join(ws)], the offset just after word [i - 1]
    (0 for [i = 0]); and the offset at which word [i] starts. *)
Definition offset_after (lead : string) (ws : list string) (i : nat) : Z :=
  match i with
  | O => 0
  | S _ => Py.len lead + Py.len (Py.join " " (firstn i ws))
  end.

Definition offset_of (lead : string) (ws : list string) (i : nat) : Z :=
  match i with
  | O => Py.len lead
  | S _ => Py.len lead + Py.len (Py.join " " (firstn i ws)) + 1
  end.

(** ** Statements about the rest of [scripts/ingest.py] *)

(** The words of the [k]-th sliding window:
    [words[k*step : k*step + max_tokens]] with
    [step = max_tokens - overlap_tokens]. *)
Definition window {A} (words : list A) (max_tokens overlap_tokens : Z) (k : nat)
  : list A :=
  Py.slice words (Z.of_nat k * (max_tokens - overlap_tokens))
           (Z.of_nat k * (max_tokens - overlap_tokens) + max_tokens).

(** The words of a document rebuilt from its chunk texts: all the words of
    the first chunk, and the words of every later chunk after its first
    [overlap_tokens] ones. *)
Definition rebuild_words (overlap_tokens : Z) (texts : list string) : list string :=
  match texts with
  | [] => []
  | t :: rest =>
      (Py.split t
       ++ List.concat (map (fun t' => skipn (Z.to_nat overlap_tokens) (Py.split t')) rest))%list
  end.

(** Every character of a string passes a test. *)
Fixpoint str_all (P : ascii -> bool) (s : string) : bool :=
  match s with
  | EmptyString => true
  | String c r => P c && str_all P r
  end.

(** A character [str.lower] leaves alone. *)
Definition lowered (c : ascii) : bool := Ascii.eqb (Py.lower_char c) c.

(** The characters of a heading slug: a hyphen, or a lowered word character
    other than the underscore. *)
Definition slug_char (c : ascii) : bool :=
  Ascii.eqb c "-"
  || (Py.re_word c && negb (Ascii.eqb c "_") && negb (Py.is_space c) && lowered c).

(** ** Statements that link ingestion, retrieval and the response *)

(** A stored point returned as a hit with the given score. *)
Definition hit_of_point (score : float) (p : Ingest.PointStruct)
  : Retrieval.ScoredPoint :=
  {| Retrieval.hit_payload := Some (Ingest.payload p);
     Retrieval.hit_score := score |}.

(** The retrieval result that describes chunk number [k] of a chapter. *)
Definition stored_result (chapter_slug : string) (score : float) (k : Z)
           (c : Ingest.Chunk) : Retrieval.RetrievalResult :=
  {| Retrieval.chunk_text := Ingest.text c;
     Retrieval.chapter_slug := chapter_slug;
     Retrieval.section_id :=
       Some (Ingest.extract_section_id (Ingest.text c) chapter_slug);
     Retrieval.chunk_index := k;
     Retrieval.score := score;
     Retrieval.start_char := Ingest.start_char c;
     Retrieval.end_char := Ingest.end_char c |}.

(** The chapter name [format_context] writes into the prompt. *)
Definition prompt_chapter_name (chapter_slug : string) : string :=
  Py.title (Py.replace_char "-" " " chapter_slug).

(** Every stored request count is at least 1 and at most the limit, or 1
    when the limit is smaller than that. *)
Definition counts_within {Time : Type} (limits : Main.Limits)
  (store : Main.Store Time) : Prop :=
  forall key data, store key = Some data ->
    1 <= Main.count Time data <= Z.max 1 (Main.rate_limit_requests limits).

(** A request at [now] opens a new window for the client: the store has no
    entry for it, or the window of its entry has expired. *)
Definition opens_window {Time : Type} (window_expired : Time -> Time -> bool)
  (store : Main.Store Time) (client_hash : string) (now : Time) : Prop :=
  match store client_hash with
  | None => True
  | Some data => window_expired now (Main.window_start Time data) = true
  end.

(** A clock in seconds, for examples: the window has expired after
    [window] seconds, and the time to wait is what is left of it. *)
Definition expired_after (window : Z) (now start : Z) : bool :=
  window <=? now - start.

Definition seconds_left (window : Z) (now start : Z) : Z :=
  window - (now - start).

(** "The offsets of the chunk delimit its text": [T[start_char:end_char]]
    is the text of the chunk, with both offsets inside [T]. *)
Definition chunk_is_slice (T : string) (c : Ingest.Chunk) : Prop :=
  0 <= Ingest.start_char c <= Ingest.end_char c
  /\ Ingest.end_char c <= Py.len T
  /\ substring (Z.to_nat (Ingest.start_char c))
               (Z.to_nat (Ingest.end_char c - Ingest.start_char c)) T
     = Ingest.text c.

(** ** The layout of a text *)

(** The white space before the first word of a text, and its words in
    order, each with the white space that follows it. *)
Fixpoint layout (s : string) : string * list (string * string) :=
  match s with
  | EmptyString => (EmptyString, [])
  | String c r =>
      let (lead, items) := layout r in
      if Py.is_space c then (String c lead, items)
      else match lead, items with
           | EmptyString, (w, gap) :: rest =>
               (EmptyString, (String c w, gap) :: rest)
           | _, _ => (EmptyString, (String c EmptyString, lead) :: items)
           end
  end.

(** Words written out again, each followed by its white space. *)
Fixpoint render_items (items : list (string * string)) : string :=
  match items with
  | [] => EmptyString
  | (w, gap) :: rest => w ++ gap ++ render_items rest
  end.

(** The same without the white space after the last word. *)
Fixpoint core (items : list (string * string)) : string :=
  match items with
  | [] => EmptyString
  | [(w, _)] => w
  | (w, gap) :: rest => w ++ gap ++ core rest
  end.

(** A layout as [layout] makes it: words, white space, and no empty run of
    white space between two words. *)
Fixpoint wf_items (items : list (string * string)) : Prop :=
  match items with
  | [] => True
  | (w, gap) :: rest =>
      is_word w = true /\ all_space gap = true
      /\ (rest <> [] -> gap <> EmptyString) /\ wf_items rest
  end.

(** The white space before the first word, after each word, and after the
    last word of a text. *)
Definition leading (T : string) : string := fst (layout T).
Definition gaps (T : string) : list string := map snd (snd (layout T)).
Definition trailing (T : string) : string := last (gaps T) EmptyString.

(** The offset in [T] at which its word number [k] starts, counting the
    words from 0. *)
Definition word_offset (T : string) (k : nat) : Z :=
  Py.len (leading T) + Py.len (render_items (firstn k (snd (layout T)))).

(** "The words [i], ..., [j - 1] of [T] are separated by single white-space
    characters": the white space after each of the words [i], ..., [j - 2]
    is one character long. *)
Definition tight (T : string) (i j : nat) : Prop :=
  Forall (fun gap => String.length gap = 1%nat)
         (firstn (j - 1 - i) (skipn i (gaps T))).

(** The index of the first word of the last window of [n] words cut into
    windows of [max_tokens] words without overlap. *)
Definition last_window (n : nat) (max_tokens : Z) : nat :=
  (Z.to_nat max_tokens * ((n - 1) / Z.to_nat max_tokens))%nat.

(** "Inside every window the words are separated by single white-space
    characters"; between two windows any white space may stand. *)
Definition windows_tight (T : string) (max_tokens : Z) : Prop :=
  forall q : nat,
    tight T (q * Z.to_nat max_tokens)
          (Nat.min (q * Z.to_nat max_tokens + Z.to_nat max_tokens)
                   (List.length (Py.split T))).

End Claims.

(* ===================================================================== *)
(** * The order of binary64 floats *)
(* ===================================================================== *)

(** Python compares two floats as IEEE 754 does.  The facts below are
    derived from the specification of the primitive comparisons. *)

Module FloatOrder.
Import FloatKey.

Lemma SFcompare_key x y :
  SFcompare x y =
  if is_nan_sf x || is_nan_sf y then None else Some (lex (key x) (key y)).
Proof.
  destruct x as [[]|[]| |[] mx ex], y as [[]|[]| |[] my ey];
    try reflexivity; unfold SFcompare, key, lex, is_nan_sf, orb;
    rewrite ?Pos.compare_cont_spec; cbn [Pos.switch_Eq]; f_equal.
  change (-1 ?= -1)%Z with Eq. rewrite !Z.compare_opp.
  rewrite (Z.compare_antisym ex ey).
  destruct (ex ?= ey)%Z; cbn [CompOpp]; try reflexivity.
  change (Z.pos my ?= Z.pos mx)%Z with (my ?= mx)%positive.
  rewrite (Pos.compare_antisym mx my). now destruct (mx ?= my)%positive.
Qed.

Lemma lex_refl a : lex a a = Eq.
Proof. destruct a as [[a1 a2] a3]; unfold lex; now rewrite !Z.compare_refl. Qed.

Lemma lex_antisym a b : lex b a = CompOpp (lex a b).
Proof.
  destruct a as [[a1 a2] a3], b as [[b1 b2] b3]; unfold lex.
  rewrite (Z.compare_antisym a1 b1), (Z.compare_antisym a2 b2), (Z.compare_antisym a3 b3).
  destruct (a1 ?= b1)%Z, (a2 ?= b2)%Z; reflexivity.
Qed.

Lemma lex_le_trans a b c : lex a b <> Gt -> lex b c <> Gt -> lex a c <> Gt.
Proof.
  destruct a as [[a1 a2] a3], b as [[b1 b2] b3], c as [[c1 c2] c3]; unfold lex.
  destruct (Z.compare_spec a1 b1), (Z.compare_spec b1 c1), (Z.compare_spec a1 c1);
    try lia; try congruence;
    destruct (Z.compare_spec a2 b2), (Z.compare_spec b2 c2), (Z.compare_spec a2 c2);
    try lia; try congruence;
    destruct (Z.compare_spec a3 b3), (Z.compare_spec b3 c3), (Z.compare_spec a3 c3);
    try lia; congruence.
Qed.


Lemma lex_le_lt_trans a b c : lex a b <> Gt -> lex b c = Lt -> lex a c = Lt.
Proof.
  intros Hab Hbc.
  destruct (lex a c) eqn:Hac; trivial; exfalso.
  - assert (Hca : lex c a <> Gt) by (rewrite lex_antisym, Hac; discriminate).
    pose proof (lex_le_trans c a b Hca Hab) as Hcb.
    rewrite lex_antisym, Hbc in Hcb. now apply Hcb.
  - assert (Hca : lex c a <> Gt) by (rewrite lex_antisym, Hac; discriminate).
    pose proof (lex_le_trans c a b Hca Hab) as Hcb.
    rewrite lex_antisym, Hbc in Hcb. now apply Hcb.
Qed.

Lemma lex_lt_le_trans a b c : lex a b = Lt -> lex b c <> Gt -> lex a c = Lt.
Proof.
  intros Hab Hbc.
  destruct (lex a c) eqn:Hac; trivial; exfalso.
  - assert (Hca : lex c a <> Gt) by (rewrite lex_antisym, Hac; discriminate).
    pose proof (lex_le_trans b c a Hbc Hca) as Hba.
    rewrite lex_antisym, Hab in Hba. now apply Hba.
  - assert (Hca : lex c a <> Gt) by (rewrite lex_antisym, Hac; discriminate).
    pose proof (lex_le_trans b c a Hbc Hca) as Hba.
    rewrite lex_antisym, Hab in Hba. now apply Hba.
Qed.

(** ** The comparisons of binary64 floats through their keys *)

Lemma is_nan_sf_spec x : is_nan x = is_nan_sf (Prim2SF x).
Proof.
  unfold is_nan. rewrite eqb_spec. unfold SFeqb. rewrite SFcompare_key.
  destruct (is_nan_sf (Prim2SF x)); cbn [orb negb]; trivial.
  now rewrite lex_refl.
Qed.

Lemma leb_key x y :
  (x <=? y)%float = true <->
  is_nan x = false /\ is_nan y = false /\ lex (fkey x) (fkey y) <> Gt.
Proof.
  rewrite leb_spec, !is_nan_sf_spec. unfold SFleb, fkey. rewrite SFcompare_key.
  destruct (is_nan_sf (Prim2SF x)), (is_nan_sf (Prim2SF y)); cbn [orb];
    try (split; [discriminate | intros (? & ? & ?); discriminate]).
  destruct (lex (key (Prim2SF x)) (key (Prim2SF y)));
    split; try discriminate; try (intros _; repeat split; discriminate).
  intros (_ & _ & H). now elim H.
Qed.

Lemma ltb_key x y :
  (x <? y)%float = true <->
  is_nan x = false /\ is_nan y = false /\ lex (fkey x) (fkey y) = Lt.
Proof.
  rewrite ltb_spec, !is_nan_sf_spec. unfold SFltb, fkey. rewrite SFcompare_key.
  destruct (is_nan_sf (Prim2SF x)), (is_nan_sf (Prim2SF y)); cbn [orb];
    try (split; [discriminate | intros (? & ? & ?); discriminate]).
  destruct (lex (key (Prim2SF x)) (key (Prim2SF y)));
    split; try discriminate; try (intros _; repeat split; reflexivity).
  - intros (_ & _ & H); discriminate.
  - intros (_ & _ & H); discriminate.
Qed.

Lemma leb_trans x y z :
  (x <=? y)%float = true -> (y <=? z)%float = true -> (x <=? z)%float = true.
Proof.
  rewrite !leb_key. intros (Hx & _ & Hxy) (_ & Hz & Hyz).
  repeat split; trivial. now apply lex_le_trans with (fkey y).
Qed.

Lemma ltb_leb_trans x y z :
  (x <? y)%float = true -> (y <=? z)%float = true -> (x <? z)%float = true.
Proof.
  rewrite !ltb_key, leb_key. intros (Hx & _ & Hxy) (_ & Hz & Hyz).
  repeat split; trivial. now apply lex_lt_le_trans with (fkey y).
Qed.

Lemma leb_ltb_trans x y z :
  (x <=? y)%float = true -> (y <? z)%float = true -> (x <? z)%float = true.
Proof.
  rewrite !ltb_key, leb_key. intros (Hx & _ & Hxy) (_ & Hz & Hyz).
  repeat split; trivial. now apply lex_le_lt_trans with (fkey y).
Qed.

Lemma ltb_leb x y : (x <? y)%float = true -> (x <=? y)%float = true.
Proof.
  rewrite ltb_key, leb_key. intros (Hx & Hy & Hxy).
  repeat split; trivial. rewrite Hxy. discriminate.
Qed.

(** [x < y] excludes [y <= x]. *)
Lemma ltb_not_leb x y : (x <? y)%float = true -> (y <=? x)%float = false.
Proof.
  intros H. destruct (y <=? x)%float eqn:E; trivial.
  apply ltb_key in H. apply leb_key in E.
  destruct H as (_ & _ & H), E as (_ & _ & E).
  rewrite lex_antisym, H in E. now elim E.
Qed.

(** On numbers the order is total: when [y <= x] fails, [x < y]. *)
Lemma not_leb_ltb x y :
  is_nan x = false -> is_nan y = false ->
  (y <=? x)%float = false -> (x <? y)%float = true.
Proof.
  intros Hx Hy H. apply ltb_key. repeat split; trivial.
  destruct (lex (fkey x) (fkey y)) eqn:E; trivial; exfalso.
  - assert ((y <=? x)%float = true); [ | congruence ].
    apply leb_key. repeat split; trivial. rewrite lex_antisym, E. discriminate.
  - assert ((y <=? x)%float = true); [ | congruence ].
    apply leb_key. repeat split; trivial. rewrite lex_antisym, E. discriminate.
Qed.

Lemma leb_is_number x y :
  (x <=? y)%float = true -> is_nan x = false /\ is_nan y = false.
Proof. rewrite leb_key. tauto. Qed.

Lemma ltb_is_number x y :
  (x <? y)%float = true -> is_nan x = false /\ is_nan y = false.
Proof. rewrite ltb_key. tauto. Qed.

(** A NaN compares false with everything. *)
Lemma nan_leb_r x y : is_nan y = true -> (x <=? y)%float = false.
Proof.
  intros H. destruct (x <=? y)%float eqn:E; trivial.
  apply leb_is_number in E. destruct E; congruence.
Qed.

Lemma nan_ltb_l x y : is_nan x = true -> (x <? y)%float = false.
Proof.
  intros H. destruct (x <? y)%float eqn:E; trivial.
  apply ltb_is_number in E. destruct E; congruence.
Qed.

End FloatOrder.

(* ===================================================================== *)
(** * Confidence classification (src/services/retrieval.py) *)
(* ===================================================================== *)

Module RetrievalTheory.
Import FloatOrder Claims.

Section Classification.
Variable cfg : Config.Settings.

#[local] Abbreviation hi := (Config.confidence_high_threshold cfg).
#[local] Abbreviation lo := (Config.confidence_low_threshold cfg).
#[local] Abbreviation level := (Retrieval.get_confidence_level cfg).

(** The three branches of [get_confidence_level], by the outcome of its two
    comparisons. *)
Lemma level_cases (s : float) :
  ((hi <=? s)%float = true /\ level s = "high")
  \/ ((hi <=? s)%float = false /\ (lo <=? s)%float = true /\ level s = "medium")
  \/ ((hi <=? s)%float = false /\ (lo <=? s)%float = false /\ level s = "low").
Proof.
  unfold Retrieval.get_confidence_level.
  destruct (hi <=? s)%float; [ now left | right ].
  destruct (lo <=? s)%float; [ left | right ]; now repeat split.
Qed.

Lemma level_total (s : float) :
  level s = "high" \/ level s = "medium" \/ level s = "low".
Proof. destruct (level_cases s) as [H | [H | H]]; tauto. Qed.

Lemma level_high_iff (s : float) :
  level s = "high" <-> (hi <=? s)%float = true.
Proof.
  destruct (level_cases s) as [(H & E) | [(H & _ & E) | (H & _ & E)]];
    rewrite E, H; split; trivial; discriminate.
Qed.

Lemma level_monotone (s s' : float) :
  (s <=? s')%float = true -> (level_rank (level s) <= level_rank (level s'))%nat.
Proof.
  intros Hss.
  destruct (level_cases s) as [(H & E) | [(H & L & E) | (H & L & E)]]; rewrite E.
  - assert (H' : (hi <=? s')%float = true) by (now apply leb_trans with s).
    apply level_high_iff in H'. rewrite H'. apply Nat.le_refl.
  - assert (L' : (lo <=? s')%float = true) by (now apply leb_trans with s).
    destruct (level_cases s') as [(_ & E') | [(_ & _ & E') | (_ & L'' & _)]];
      try rewrite E'; cbn; try lia. congruence.
  - cbn. lia.
Qed.

End Classification.

(** What the code does with a score that is not a number. *)
Lemma level_nan (cfg : Config.Settings) (s : float) :
  is_nan s = true -> Retrieval.get_confidence_level cfg s = "low".
Proof.
  intros H. unfold Retrieval.get_confidence_level.
  now rewrite !nan_leb_r.
Qed.

(** C1, as amended.  For thresholds with [low < high], the level is one of
    high, medium and low; it is high iff [s >= high], medium iff
    [low <= s < high], and low iff [s < low] or [s] is not a number (NaN);
    it is monotone in the score; and the default pair (0.4, 0.7) maps 0.9 and
    0.7 to high, 0.69 and 0.4 to medium, 0.39 to low. *)
Theorem get_confidence_level_spec (cfg : Config.Settings) (s : float) :
  (Config.confidence_low_threshold cfg <? Config.confidence_high_threshold cfg)%float = true ->
  let hi := Config.confidence_high_threshold cfg in
  let lo := Config.confidence_low_threshold cfg in
  let level := Retrieval.get_confidence_level cfg in
  (level s = "high" \/ level s = "medium" \/ level s = "low")
  /\ (level s = "high" <-> (hi <=? s)%float = true)
  /\ (level s = "medium" <-> (lo <=? s)%float = true /\ (s <? hi)%float = true)
  /\ (level s = "low" <-> (s <? lo)%float = true \/ is_nan s = true)
  /\ (forall s', (s <=? s')%float = true ->
                 (level_rank (level s) <= level_rank (level s'))%nat)
  /\ map (Retrieval.get_confidence_level Config.defaults)
         [0.9; 0.7; 0.69; 0.4; 0.39]%float
     = ["high"; "high"; "medium"; "medium"; "low"].
Proof.
  intros Hlh; cbv zeta.
  destruct (ltb_is_number _ _ Hlh) as [Nlo Nhi].
  split; [ apply level_total | ].
  split; [ apply level_high_iff | ].
  split; [ | split; [ | split; [ intros s'; apply level_monotone | reflexivity ] ] ].
  - destruct (level_cases cfg s) as [(H & E) | [(H & L & E) | (H & L & E)]];
      rewrite E; split; try discriminate; trivial.
    + intros (_ & C). apply ltb_not_leb in C. congruence.
    + intros _. split; trivial.
      destruct (leb_is_number _ _ L). now apply not_leb_ltb.
    + intros (C & _). congruence.
  - destruct (level_cases cfg s) as [(H & E) | [(H & L & E) | (H & L & E)]];
      rewrite E; split; try discriminate; trivial.
    + intros [C | C].
      * assert (C' : (s <? Config.confidence_high_threshold cfg)%float = true)
          by (eapply ltb_leb_trans; [ exact C | now apply ltb_leb ]).
        apply ltb_not_leb in C'. congruence.
      * destruct (leb_is_number _ _ H). congruence.
    + intros [C | C].
      * apply ltb_not_leb in C. congruence.
      * destruct (leb_is_number _ _ L). congruence.
    + intros _. destruct (is_nan s) eqn:N; [ now right | left ].
      now apply not_leb_ltb.
Qed.

(** The default thresholds and the score 0.55. *)
Lemma get_confidence_level_spec_witness :
  (Config.confidence_low_threshold Config.defaults
   <? Config.confidence_high_threshold Config.defaults)%float = true
  /\ (Retrieval.get_confidence_level Config.defaults 0.55%float = "medium"
      <-> (0.4 <=? 0.55)%float = true /\ (0.55 <? 0.7)%float = true).
Proof.
  split; [ reflexivity | ].
  exact (proj1 (proj2 (proj2
    (get_confidence_level_spec Config.defaults 0.55%float eq_refl)))).
Defined.

(** C1, as stated, fails at a score that is not a number: the code returns
    low for NaN, and NaN is below no threshold. *)
Lemma get_confidence_level_nan_counterexample :
  Retrieval.get_confidence_level Config.defaults nan = "low"
  /\ (nan <? Config.confidence_low_threshold Config.defaults)%float = false
  /\ ~ low_iff_below Config.defaults nan.
Proof.
  split; [ reflexivity | split; [ reflexivity | ] ].
  unfold low_iff_below. intros [H _]. specialize (H eq_refl). discriminate H.
Qed.


End RetrievalTheory.

(* ===================================================================== *)
(** * Response assembly (src/api/chat.py) *)
(* ===================================================================== *)

Module ChatTheory.
Import FloatOrder Claims Schemas.

(** ** Excerpts *)

Lemma substring_0_length (n : nat) (s : string) :
  String.length (substring 0 n s) = Nat.min n (String.length s).
Proof.
  revert s; induction n as [| n IH]; intros [| c s]; cbn; trivial.
  now rewrite IH.
Qed.

Lemma substring_0_all (n : nat) (s : string) :
  (String.length s <= n)%nat -> substring 0 n s = s.
Proof.
  revert s; induction n as [| n IH]; intros [| c s]; cbn; trivial.
  - lia.
  - intros H. f_equal. apply IH. lia.
Qed.

(** Both branches of the conditional give the first 200 characters. *)
Lemma excerpt_of_prefix (t : string) : Chat.excerpt_of t = Py.str_prefix 200 t.
Proof.
  unfold Chat.excerpt_of, Py.str_prefix, Py.len.
  destruct (Z.gtb_spec (Z.of_nat (String.length t)) 200) as [H | H]; trivial.
  symmetry. apply substring_0_all. lia.
Qed.

Lemma excerpt_of_len (t : string) :
  Py.len (Chat.excerpt_of t) = Z.min 200 (Py.len t).
Proof.
  rewrite excerpt_of_prefix. unfold Py.str_prefix, Py.len.
  rewrite substring_0_length. lia.
Qed.

Lemma excerpt_of_short (t : string) :
  Py.len t <= 200 -> Chat.excerpt_of t = t.
Proof.
  intros H. unfold Chat.excerpt_of.
  destruct (Z.gtb_spec (Py.len t) 200); trivial. lia.
Qed.

Section Assembly.
Variable settings : Config.Settings.
Variable round : float -> Z -> float.
Variable validation_error : Source -> string.
Variable query_points :
  string -> Z -> option string -> Eff.Outcome (list Retrieval.RetrievalResult).
Variable chat_completions_create :
  list Eff.Message -> string -> float -> Z -> Eff.Outcome string.
Variable uuid_stream : nat -> Eff.UUID.

#[local] Abbreviation source_fields := (Chat.source_fields round).
#[local] Abbreviation build_sources := (Chat.build_sources round validation_error).

Lemma Source_valid_fields (r : Retrieval.RetrievalResult) :
  Source_valid (source_fields r) = score_in_range (round (Retrieval.score r) 3).
Proof.
  unfold Source_valid, score_in_range. cbn [excerpt score Chat.source_fields].
  rewrite excerpt_of_len.
  destruct (Z.leb_spec (Z.min 200 (Py.len (Retrieval.chunk_text r))) 200) as [_ | H];
    [ reflexivity | lia ].
Qed.

(** [build_sources] returns one [Source] per result when every rounded score
    passes the validation of the model. *)
Lemma build_sources_ok (results : list Retrieval.RetrievalResult) :
  Forall (fun r => score_in_range (round (Retrieval.score r) 3) = true) results ->
  build_sources results = Eff.Ok (map source_fields results).
Proof.
  induction 1 as [| r rs Hr _ IH]; cbn [Chat.build_sources map]; trivial.
  unfold Source_new. rewrite Source_valid_fields, Hr. now rewrite IH.
Qed.

End Assembly.

(** ** The two handlers on the low-confidence path *)

Section Handlers.
Variable settings : Config.Settings.
Variable round : float -> Z -> float.
Variable validation_error : Source -> string.
Variable query_points :
  string -> Z -> option string -> Eff.Outcome (list Retrieval.RetrievalResult).
Variable chat_completions_create :
  list Eff.Message -> string -> float -> Z -> Eff.Outcome string.
Variable uuid_stream : nat -> Eff.UUID.

#[local] Abbreviation send_chat_message :=
  (Chat.send_chat_message settings round validation_error query_points chat_completions_create
                          uuid_stream).
#[local] Abbreviation send_contextual_message :=
  (Chat.send_contextual_message settings round validation_error query_points
                                chat_completions_create uuid_stream).

(** [send_chat_message] when the classification is low: the whole run. *)
Lemma send_chat_message_low (request : ChatRequest)
      (results : list Retrieval.RetrievalResult) (w : Eff.World) :
  query_points (message request) (Config.retrieval_top_k settings) None
  = Eff.Ok results ->
  Retrieval.get_confidence_level settings (Chat.top_score results) = "low" ->
  send_chat_message request w =
  (Chat.Response
     {| message_id := uuid_stream (Eff.uuids_drawn w);
        resp_session_id := session_of uuid_stream (session_id request) w;
        answer := Generation.generate_low_confidence_response (message request);
        confidence := LOW;
        sources := [];
        disclaimer := Some "This topic may not be covered in the textbook." |},
   {| Eff.trace := Eff.trace w
                   ++ [Eff.EvQueryPoints (message request)
                                         (Config.retrieval_top_k settings) None];
      Eff.uuids_drawn := drawn_after (session_id request) w |}).
Proof.
  intros Hq Hlow.
  unfold Chat.send_chat_message, Chat.guarded, Chat.search_similar,
    Retrieval.search_similar, Eff.bind, Eff.call, Chat.get_confidence_level.
  cbn [Retrieval.search_filter_of]. rewrite Hq, Hlow.
  unfold session_of, drawn_after.
  destruct (session_id request); reflexivity.
Qed.




End Handlers.







(** C6, as amended.  For thresholds with [low < high], an empty result list
    is classified low exactly when the low threshold is positive (the top
    score of an empty list is taken to be 0); in that case
    [send_chat_message] answers a retrieval without hits with confidence
    LOW. *)
Theorem empty_results_low_iff_positive_threshold (cfg : Config.Settings) :
  (Config.confidence_low_threshold cfg <? Config.confidence_high_threshold cfg)%float
  = true ->
  (empty_is_low cfg <-> (0 <? Config.confidence_low_threshold cfg)%float = true)
  /\ ((0 <? Config.confidence_low_threshold cfg)%float = true ->
      forall round validation_error query_points chat_completions_create uuid_stream request w,
        query_points (message request) (Config.retrieval_top_k cfg) None = Eff.Ok [] ->
        exists r w',
          Chat.send_chat_message cfg round validation_error query_points chat_completions_create
                                 uuid_stream request w = (Chat.Response r, w')
          /\ confidence r = LOW).
Proof.
  intros Hlh.
  destruct (ltb_is_number _ _ Hlh) as [Nlo Nhi].
  assert (Hiff : empty_is_low cfg
                 <-> (0 <? Config.confidence_low_threshold cfg)%float = true).
  { unfold empty_is_low. cbn [Chat.top_score].
    destruct (RetrievalTheory.level_cases cfg 0%float)
      as [(H & E) | [(H & L & E) | (H & L & E)]]; rewrite E.
    - split; [ discriminate | ]. intros C.
      assert (C' : (0 <? Config.confidence_high_threshold cfg)%float = true)
        by (eapply ltb_leb_trans; [ exact C | now apply ltb_leb ]).
      apply ltb_not_leb in C'. congruence.
    - split; [ discriminate | ]. intros C.
      apply ltb_not_leb in C. congruence.
    - split; trivial. intros _. now apply not_leb_ltb. }
  split; [ exact Hiff | ].
  intros Hpos round validation_error query_points chat_completions_create uuid_stream request w Hq.
  eexists; eexists. split.
  - apply (send_chat_message_low _ _ _ _ _ _ _ []); [ exact Hq | now apply Hiff ].
  - reflexivity.
Qed.

(** The default thresholds 0.4 and 0.7. *)
Lemma empty_results_low_iff_positive_threshold_witness :
  (empty_is_low Config.defaults
   <-> (0 <? Config.confidence_low_threshold Config.defaults)%float = true)
  /\ ((0 <? Config.confidence_low_threshold Config.defaults)%float = true ->
      forall round validation_error query_points chat_completions_create uuid_stream request w,
        query_points (message request) (Config.retrieval_top_k Config.defaults) None
        = Eff.Ok [] ->
        exists r w',
          Chat.send_chat_message Config.defaults round validation_error query_points
                                 chat_completions_create uuid_stream request w
          = (Chat.Response r, w')
          /\ confidence r = LOW).
Proof.
  apply (empty_results_low_iff_positive_threshold Config.defaults). reflexivity.
Defined.

(** C6, as stated, fails for the thresholds -0.5 and 0.5: they are in order,
    and an empty result list is classified medium. *)
Lemma empty_results_counterexample :
  (Config.confidence_low_threshold negative_low
   <? Config.confidence_high_threshold negative_low)%float = true
  /\ Retrieval.get_confidence_level negative_low (Chat.top_score []) = "medium"
  /\ ~ empty_is_low negative_low.
Proof.
  split; [ reflexivity | split; [ reflexivity | ] ].
  unfold empty_is_low. discriminate.
Qed.

(** C8.  When every rounded score passes validation, [build_sources] returns
    one Source per result, in order, whose excerpt is the first 200
    characters of the chunk text: at most 200 characters long, exactly 200
    for a chunk text of 500 characters, and the unchanged text for one of 150
    characters. *)
Theorem build_sources_excerpt
        (round : float -> Z -> float) (validation_error : Source -> string)
        (results : list Retrieval.RetrievalResult) :
  Forall (fun r => score_in_range (round (Retrieval.score r) 3) = true) results ->
  exists srcs,
    Chat.build_sources round validation_error results = Eff.Ok srcs
    /\ Forall2 (fun r s =>
                  excerpt s = Py.str_prefix 200 (Retrieval.chunk_text r)
                  /\ Py.len (excerpt s) <= 200
                  /\ (Py.len (Retrieval.chunk_text r) = 500 -> Py.len (excerpt s) = 200)
                  /\ (Py.len (Retrieval.chunk_text r) = 150 ->
                      excerpt s = Retrieval.chunk_text r))
               results srcs.
Proof.
  intros H. exists (map (Chat.source_fields round) results).
  split; [ now apply build_sources_ok | ].
  clear H. induction results as [| r rs IH]; cbn [map]; constructor; trivial.
  cbn [excerpt Chat.source_fields].
  split; [ apply excerpt_of_prefix | ].
  rewrite excerpt_of_len.
  split; [ lia | split ].
  - intros E; rewrite E; reflexivity.
  - intros E. apply excerpt_of_short. lia.
Qed.

(** A 500-character and a 150-character chunk text. *)
Lemma build_sources_excerpt_witness :
  let results := [ sample_result (repeat_char "a" 500) 0.8%float;
                   sample_result (repeat_char "b" 150) 0.5%float ] in
  exists srcs,
    Chat.build_sources round_id sample_validation_error results = Eff.Ok srcs
    /\ Forall2 (fun r s =>
                  excerpt s = Py.str_prefix 200 (Retrieval.chunk_text r)
                  /\ Py.len (excerpt s) <= 200
                  /\ (Py.len (Retrieval.chunk_text r) = 500 -> Py.len (excerpt s) = 200)
                  /\ (Py.len (Retrieval.chunk_text r) = 150 ->
                      excerpt s = Retrieval.chunk_text r))
               results srcs.
Proof.
  intros results.
  apply (build_sources_excerpt round_id sample_validation_error results).
  repeat constructor.
Defined.

(* --------------------------------------------------------------------- *)
(** ** Every run of the handlers *)
(* --------------------------------------------------------------------- *)

Section Runs.
Variable settings : Config.Settings.
Variable round : float -> Z -> float.
Variable validation_error : Source -> string.
Variable query_points :
  string -> Z -> option string -> Eff.Outcome (list Retrieval.RetrievalResult).
Variable chat_completions_create :
  list Eff.Message -> string -> float -> Z -> Eff.Outcome string.
Variable uuid_stream : nat -> Eff.UUID.

(** [build_sources] raises at the first result whose Source fails
    validation, with the message of that validation. *)
Lemma build_sources_first_invalid
      (good : list Retrieval.RetrievalResult) (bad : Retrieval.RetrievalResult)
      (rest : list Retrieval.RetrievalResult) :
  Forall (fun r => score_in_range (round (Retrieval.score r) 3) = true) good ->
  score_in_range (round (Retrieval.score bad) 3) = false ->
  Chat.build_sources round validation_error (good ++ bad :: rest)
  = Eff.Raise (validation_error (Chat.source_fields round bad)).
Proof.
  intros Hgood Hbad. induction Hgood as [| r good Hr _ IH];
    cbn [app Chat.build_sources]; unfold Source_new;
    rewrite Source_valid_fields.
  - now rewrite Hbad.
  - now rewrite Hr, IH.
Qed.

(** [build_sources] either returns the Source of every result, all of them
    valid, or raises at a result whose Source fails validation. *)
Lemma build_sources_cases (results : list Retrieval.RetrievalResult) :
  (Chat.build_sources round validation_error results
   = Eff.Ok (map (Chat.source_fields round) results)
   /\ Forall (fun r => score_in_range (round (Retrieval.score r) 3) = true) results)
  \/ (exists bad,
        In bad results
        /\ score_in_range (round (Retrieval.score bad) 3) = false
        /\ Chat.build_sources round validation_error results
           = Eff.Raise (validation_error (Chat.source_fields round bad))).
Proof.
  induction results as [| r rs IH]; [ left; split; [ reflexivity | constructor ] | ].
  cbn [Chat.build_sources map]. unfold Source_new.
  rewrite Source_valid_fields.
  destruct (score_in_range (round (Retrieval.score r) 3)) eqn:E.
  - destruct IH as [[-> Hall] | (bad & Hin & Hbad & ->)].
    + left. split; [ reflexivity | now constructor ].
    + right. exists bad. split; [ now right | now split ].
  - right. exists r. split; [ now left | now split ].
Qed.

Lemma sources_valid (results : list Retrieval.RetrievalResult) :
  Forall (fun r => score_in_range (round (Retrieval.score r) 3) = true) results ->
  Forall (fun s => Source_valid s = true) (map (Chat.source_fields round) results).
Proof.
  intros H. apply Forall_map. apply Forall_impl with (2 := H).
  intros r Hr. now rewrite Source_valid_fields.
Qed.

(** The level is one of the three values of [ConfidenceLevel]. *)
Lemma level_parses (s : float) :
  (Retrieval.get_confidence_level settings s = "high"
   /\ ConfidenceLevel_of (Retrieval.get_confidence_level settings s) = Eff.Ok HIGH)
  \/ (Retrieval.get_confidence_level settings s = "medium"
      /\ ConfidenceLevel_of (Retrieval.get_confidence_level settings s) = Eff.Ok MEDIUM)
  \/ (Retrieval.get_confidence_level settings s = "low"
      /\ ConfidenceLevel_of (Retrieval.get_confidence_level settings s) = Eff.Ok LOW).
Proof.
  destruct (RetrievalTheory.level_total settings s) as [E | [E | E]]; rewrite E;
    [ left | right; left | right; right ]; now split.
Qed.

End Runs.

(** X9.  Every response [send_chat_message] returns comes from a retrieval
    that succeeded, carries the level of the top score, echoes the session
    id of the request or draws a new one, and holds only valid Sources.  With
    LOW it is the fallback answer with no source, after the vector query
    alone; with MEDIUM or HIGH the answer is the completion of the prompt
    built from the message and the results, there is one Source per result,
    the run made the vector query and then one chat-completion call, and the
    disclaimer is absent exactly for HIGH. *)
Theorem send_chat_message_response
        (settings : Config.Settings) (round : float -> Z -> float)
        (validation_error : Source -> string)
        (query_points : string -> Z -> option string ->
                        Eff.Outcome (list Retrieval.RetrievalResult))
        (chat_completions_create : list Eff.Message -> string -> float -> Z ->
                                   Eff.Outcome string)
        (uuid_stream : nat -> Eff.UUID)
        (request : ChatRequest) (w w' : Eff.World) (r : ChatResponse) :
  Chat.send_chat_message settings round validation_error query_points chat_completions_create
                         uuid_stream request w = (Chat.Response r, w') ->
  exists results,
    let query := Eff.EvQueryPoints (message request)
                                   (Config.retrieval_top_k settings) None in
    let messages := Generation.prompt (message request) results None in
    let completion := Eff.EvChatCompletion messages (Config.groq_model settings)
                                           0.3%float 1000 in
    query_points (message request) (Config.retrieval_top_k settings) None
    = Eff.Ok results
    /\ ConfidenceLevel_value (confidence r)
       = Retrieval.get_confidence_level settings (Chat.top_score results)
    /\ message_id r = uuid_stream (Eff.uuids_drawn w)
    /\ resp_session_id r = session_of uuid_stream (session_id request) w
    /\ Forall (fun s => Source_valid s = true) (sources r)
    /\ match confidence r with
       | LOW =>
           answer r = Generation.generate_low_confidence_response (message request)
           /\ sources r = []
           /\ disclaimer r = Some "This topic may not be covered in the textbook."
           /\ Eff.trace w' = (Eff.trace w ++ [query])%list
       | MEDIUM =>
           chat_completions_create messages (Config.groq_model settings) 0.3%float 1000
           = Eff.Ok (answer r)
           /\ sources r = map (Chat.source_fields round) results
           /\ disclaimer r
              = Some "Based on limited context from the textbook. The answer may be incomplete."
           /\ Eff.trace w' = (Eff.trace w ++ [query; completion])%list
       | HIGH =>
           chat_completions_create messages (Config.groq_model settings) 0.3%float 1000
           = Eff.Ok (answer r)
           /\ sources r = map (Chat.source_fields round) results
           /\ disclaimer r = None
           /\ Eff.trace w' = (Eff.trace w ++ [query; completion])%list
       end.
Proof.
  unfold Chat.send_chat_message, Chat.guarded, Chat.search_similar,
    Retrieval.search_similar, Eff.bind, Eff.call, Chat.get_confidence_level,
    Chat.generate_response, Generation.generate_response, Eff.lift,
    Chat.make_response, Chat.uuid4, Eff.ret.
  cbn [Retrieval.search_filter_of Eff.trace Eff.uuids_drawn].
  destruct (query_points (message request) (Config.retrieval_top_k settings) None)
    as [results | msg] eqn:Hq; [ | discriminate ].
  intros H. exists results. cbv zeta. split; [ reflexivity | ].
  destruct (level_parses settings (Chat.top_score results))
    as [[E P] | [[E P] | [E P]]]; rewrite E in *; cbn [String.eqb Ascii.eqb Bool.eqb] in H.
  - destruct (chat_completions_create _ _ _ _) as [ans | msg] eqn:Hllm;
      [ | discriminate ].
    destruct (build_sources_cases round validation_error results)
      as [[Hb Hall] | (bad & _ & _ & Hb)];
      rewrite Hb in H; [ | discriminate ].
    cbn in H. rewrite <- app_assoc in H. cbn [app] in H.
    destruct (session_id request); injection H as <- <-;
      cbn; (repeat split; trivial); now apply sources_valid.
  - destruct (chat_completions_create _ _ _ _) as [ans | msg] eqn:Hllm;
      [ | discriminate ].
    destruct (build_sources_cases round validation_error results)
      as [[Hb Hall] | (bad & _ & _ & Hb)];
      rewrite Hb in H; [ | discriminate ].
    cbn in H. rewrite <- app_assoc in H. cbn [app] in H.
    destruct (session_id request); injection H as <- <-;
      cbn; (repeat split; trivial); now apply sources_valid.
  - cbn in H.
    destruct (session_id request); injection H as <- <-;
      cbn; repeat split; trivial.
Qed.

(** A hit with score 0.82, above the default high threshold. *)
Lemma send_chat_message_response_witness :
  exists results r w',
    Chat.send_chat_message Config.defaults round_id sample_validation_error (always_hits [ sample_result "A node is a process." 0.82%float ])
      (always_says "Nodes are processes.") uuid_count
      {| message := "What is a node?"; session_id := Some 7%nat |} Eff.initial
    = (Chat.Response r, w')
    /\ always_hits [ sample_result "A node is a process." 0.82%float ]
                   "What is a node?" (Config.retrieval_top_k Config.defaults) None
       = Eff.Ok results
    /\ ConfidenceLevel_value (confidence r)
       = Retrieval.get_confidence_level Config.defaults (Chat.top_score results)
    /\ confidence r = HIGH.
Proof.
  destruct (send_chat_message_response Config.defaults round_id sample_validation_error (always_hits [ sample_result "A node is a process." 0.82%float ])
              (always_says "Nodes are processes.") uuid_count
              {| message := "What is a node?"; session_id := Some 7%nat |}
              Eff.initial _ _ eq_refl) as (results & H1 & H2 & _).
  exists results. eexists. eexists.
  split; [ reflexivity | ]. split; [ exact H1 | ]. split; [ exact H2 | reflexivity ].
Defined.

(** X10.  Every response [send_contextual_message] returns has confidence
    MEDIUM or HIGH, never LOW; its answer is the completion of the prompt
    built from the message, the selected text and the results; it has one
    valid Source per result; the run made the vector query and then exactly
    one chat-completion call; and the disclaimer is absent exactly for
    HIGH. *)
Theorem send_contextual_message_response
        (settings : Config.Settings) (round : float -> Z -> float)
        (validation_error : Source -> string)
        (query_points : string -> Z -> option string ->
                        Eff.Outcome (list Retrieval.RetrievalResult))
        (chat_completions_create : list Eff.Message -> string -> float -> Z ->
                                   Eff.Outcome string)
        (uuid_stream : nat -> Eff.UUID)
        (request : ContextualChatRequest) (w w' : Eff.World) (r : ChatResponse) :
  Chat.send_contextual_message settings round validation_error query_points
                               chat_completions_create uuid_stream request w
  = (Chat.Response r, w') ->
  exists results,
    let filter := Retrieval.search_filter_of (ctx_chapter_slug request) in
    let query := Eff.EvQueryPoints (ctx_message request)
                                   (Config.retrieval_top_k settings) filter in
    let messages := Generation.prompt (ctx_message request) results
                                      (Some (selected_text request)) in
    let completion := Eff.EvChatCompletion messages (Config.groq_model settings)
                                           0.3%float 1000 in
    let level := Retrieval.get_confidence_level settings (Chat.top_score results) in
    query_points (ctx_message request) (Config.retrieval_top_k settings) filter
    = Eff.Ok results
    /\ confidence r <> LOW
    /\ (confidence r = HIGH <-> level = "high")
    /\ chat_completions_create messages (Config.groq_model settings) 0.3%float 1000
       = Eff.Ok (answer r)
    /\ sources r = map (Chat.source_fields round) results
    /\ Forall (fun s => Source_valid s = true) (sources r)
    /\ Eff.trace w' = (Eff.trace w ++ [query; completion])%list
    /\ resp_session_id r = session_of uuid_stream (ctx_session_id request) w
    /\ disclaimer r
       = (if (level =? "high")%string then None
          else if (level =? "medium")%string
               then Some "Based on the selected text and limited textbook context."
               else Some "Response based primarily on the selected text.").
Proof.
  unfold Chat.send_contextual_message, Chat.guarded, Chat.search_similar,
    Retrieval.search_similar, Eff.bind, Eff.call, Chat.get_confidence_level,
    Chat.generate_response, Generation.generate_response, Eff.lift,
    Chat.make_response, Chat.uuid4, Eff.ret.
  cbn [Eff.trace Eff.uuids_drawn].
  destruct (query_points (ctx_message request) (Config.retrieval_top_k settings)
                         (Retrieval.search_filter_of (ctx_chapter_slug request)))
    as [results | msg] eqn:Hq; [ | discriminate ].
  intros H. exists results. cbv zeta. split; [ reflexivity | ].
  assert (Hsrc : match results with
                 | [] => Eff.Ok []
                 | _ :: _ => Chat.build_sources round validation_error results
                 end = Chat.build_sources round validation_error results)
    by (now destruct results).
  destruct (level_parses settings (Chat.top_score results))
    as [[E P] | [[E P] | [E P]]]; rewrite E in *;
    cbn [String.eqb Ascii.eqb Bool.eqb] in H |- *;
    (destruct (chat_completions_create _ _ _ _) as [ans | msg] eqn:Hllm;
     [ | discriminate ]);
    try rewrite Hsrc in H;
    (destruct (build_sources_cases round validation_error results)
      as [[Hb Hall] | (bad & _ & _ & Hb)];
     rewrite Hb in H; [ | discriminate ]);
    cbn in H; rewrite <- app_assoc in H; cbn [app] in H;
    destruct (ctx_session_id request); injection H as <- <-; cbn;
    (repeat split; trivial); try discriminate; try (now apply sources_valid).
Qed.

(** Zero hits under the default thresholds. *)
Lemma send_contextual_message_response_witness :
  exists results r w',
    Chat.send_contextual_message Config.defaults round_id sample_validation_error (always_hits [])
      (always_says "A node is ...") uuid_count
      {| ctx_message := "Explain X";
         selected_text := "A node is a process that performs computation.";
         ctx_chapter_slug := None; ctx_session_id := None |} Eff.initial
    = (Chat.Response r, w')
    /\ always_hits [] "Explain X" (Config.retrieval_top_k Config.defaults) None
       = Eff.Ok results
    /\ confidence r <> LOW.
Proof.
  destruct (send_contextual_message_response Config.defaults round_id sample_validation_error (always_hits []) (always_says "A node is ...") uuid_count
              {| ctx_message := "Explain X";
                 selected_text := "A node is a process that performs computation.";
                 ctx_chapter_slug := None; ctx_session_id := None |}
              Eff.initial _ _ eq_refl) as (results & H1 & H2 & _).
  exists results. eexists. eexists.
  split; [ reflexivity | ]. split; [ exact H1 | exact H2 ].
Defined.

(** X11.  When the vector query raises, both handlers answer HTTP 500 with
    the code INTERNAL_ERROR and the message of the exception, and nothing
    else happened in the run: no chat-completion call, no [uuid4()]. *)
Theorem vector_failure_is_internal_error
        (settings : Config.Settings) (round : float -> Z -> float)
        (validation_error : Source -> string)
        (query_points : string -> Z -> option string ->
                        Eff.Outcome (list Retrieval.RetrievalResult))
        (chat_completions_create : list Eff.Message -> string -> float -> Z ->
                                   Eff.Outcome string)
        (uuid_stream : nat -> Eff.UUID) (w : Eff.World) (msg : string) :
  (forall request,
      query_points (message request) (Config.retrieval_top_k settings) None
      = Eff.Raise msg ->
      Chat.send_chat_message settings round validation_error query_points chat_completions_create
                             uuid_stream request w
      = (Chat.HTTPException 500
           {| Chat.error := "Failed to process chat request";
              Chat.code := INTERNAL_ERROR;
              Chat.details_message := msg |},
         {| Eff.trace := Eff.trace w
                         ++ [Eff.EvQueryPoints (message request)
                                               (Config.retrieval_top_k settings)
                                               None];
            Eff.uuids_drawn := Eff.uuids_drawn w |}))
  /\ (forall request,
         query_points (ctx_message request) (Config.retrieval_top_k settings)
                      (Retrieval.search_filter_of (ctx_chapter_slug request))
         = Eff.Raise msg ->
         Chat.send_contextual_message settings round validation_error query_points
                                      chat_completions_create uuid_stream request w
         = (Chat.HTTPException 500
              {| Chat.error := "Failed to process contextual chat request";
                 Chat.code := INTERNAL_ERROR;
                 Chat.details_message := msg |},
            {| Eff.trace := Eff.trace w
                            ++ [Eff.EvQueryPoints
                                  (ctx_message request)
                                  (Config.retrieval_top_k settings)
                                  (Retrieval.search_filter_of
                                     (ctx_chapter_slug request))];
               Eff.uuids_drawn := Eff.uuids_drawn w |})).
Proof.
  split; intros request Hq.
  - unfold Chat.send_chat_message, Chat.guarded, Chat.search_similar,
      Retrieval.search_similar, Eff.bind, Eff.call.
    cbn [Retrieval.search_filter_of]. now rewrite Hq.
  - unfold Chat.send_contextual_message, Chat.guarded, Chat.search_similar,
      Retrieval.search_similar, Eff.bind, Eff.call.
    now rewrite Hq.
Qed.

(** A vector store that is down. *)
Lemma vector_failure_is_internal_error_witness :
  Chat.send_chat_message Config.defaults round_id sample_validation_error
    (fun _ _ _ => Eff.Raise "connection refused") (always_says "unused")
    uuid_count {| message := "What is a node?"; session_id := None |} Eff.initial
  = (Chat.HTTPException 500
       {| Chat.error := "Failed to process chat request";
          Chat.code := INTERNAL_ERROR;
          Chat.details_message := "connection refused" |},
     {| Eff.trace := [Eff.EvQueryPoints "What is a node?" 3 None];
        Eff.uuids_drawn := 0 |}).
Proof.
  apply (proj1 (vector_failure_is_internal_error Config.defaults round_id
                  sample_validation_error
                  (fun _ _ _ => Eff.Raise "connection refused")
                  (always_says "unused") uuid_count Eff.initial
                  "connection refused")).
  reflexivity.
Defined.

(** X12.  A hit whose rounded score fails the validation of [Source] makes
    the request fail after the chat-completion call was made: on
    [send_chat_message] with a level that is not low, and on
    [send_contextual_message] with any level, the handler answers HTTP 500
    with the code INTERNAL_ERROR, the message is the text of the validation
    error of the first such hit, the completion is dropped and no
    [uuid4()] was drawn. *)
Theorem invalid_score_fails_after_completion
        (settings : Config.Settings) (round : float -> Z -> float)
        (validation_error : Source -> string)
        (query_points : string -> Z -> option string ->
                        Eff.Outcome (list Retrieval.RetrievalResult))
        (chat_completions_create : list Eff.Message -> string -> float -> Z ->
                                   Eff.Outcome string)
        (uuid_stream : nat -> Eff.UUID) (w : Eff.World)
        (good : list Retrieval.RetrievalResult) (bad : Retrieval.RetrievalResult)
        (rest : list Retrieval.RetrievalResult) (completion : string) :
  let results := (good ++ bad :: rest)%list in
  Forall (fun r => score_in_range (round (Retrieval.score r) 3) = true) good ->
  score_in_range (round (Retrieval.score bad) 3) = false ->
  (forall request,
      query_points (message request) (Config.retrieval_top_k settings) None
      = Eff.Ok results ->
      Retrieval.get_confidence_level settings (Chat.top_score results) <> "low" ->
      chat_completions_create (Generation.prompt (message request) results None)
                              (Config.groq_model settings) 0.3%float 1000
      = Eff.Ok completion ->
      Chat.send_chat_message settings round validation_error query_points
                             chat_completions_create uuid_stream request w
      = (Chat.HTTPException 500
           {| Chat.error := "Failed to process chat request";
              Chat.code := INTERNAL_ERROR;
              Chat.details_message :=
                validation_error (Chat.source_fields round bad) |},
         {| Eff.trace := Eff.trace w
                         ++ [Eff.EvQueryPoints (message request)
                                               (Config.retrieval_top_k settings)
                                               None;
                             Eff.EvChatCompletion
                               (Generation.prompt (message request) results None)
                               (Config.groq_model settings) 0.3%float 1000];
            Eff.uuids_drawn := Eff.uuids_drawn w |}))
  /\ (forall request,
         let filter := Retrieval.search_filter_of (ctx_chapter_slug request) in
         let messages := Generation.prompt (ctx_message request) results
                                           (Some (selected_text request)) in
         query_points (ctx_message request) (Config.retrieval_top_k settings) filter
         = Eff.Ok results ->
         chat_completions_create messages (Config.groq_model settings) 0.3%float 1000
         = Eff.Ok completion ->
         Chat.send_contextual_message settings round validation_error query_points
                                      chat_completions_create uuid_stream request w
         = (Chat.HTTPException 500
              {| Chat.error := "Failed to process contextual chat request";
                 Chat.code := INTERNAL_ERROR;
                 Chat.details_message :=
                   validation_error (Chat.source_fields round bad) |},
            {| Eff.trace := Eff.trace w
                            ++ [Eff.EvQueryPoints (ctx_message request)
                                                  (Config.retrieval_top_k settings)
                                                  filter;
                                Eff.EvChatCompletion
                                  messages (Config.groq_model settings)
                                  0.3%float 1000];
               Eff.uuids_drawn := Eff.uuids_drawn w |})).
Proof.
  intros results Hgood Hbad.
  pose proof (build_sources_first_invalid round validation_error good bad rest
                Hgood Hbad) as Hb.
  fold results in Hb.
  split.
  - intros request Hq Hlevel Hllm.
    unfold Chat.send_chat_message, Chat.guarded, Chat.search_similar,
      Retrieval.search_similar, Eff.bind, Eff.call, Chat.get_confidence_level,
      Chat.generate_response, Generation.generate_response, Eff.lift.
    cbn [Retrieval.search_filter_of Eff.trace Eff.uuids_drawn]. rewrite Hq.
    destruct (String.eqb_spec
                (Retrieval.get_confidence_level settings (Chat.top_score results))
                "low") as [E | _]; [ now elim Hlevel | ].
    rewrite Hllm, Hb. unfold Eff.call. cbn [Eff.trace Eff.uuids_drawn].
    now rewrite <- app_assoc.
  - intros request filter messages Hq Hllm.
    assert (Hs : match results with
                 | [] => Eff.Ok []
                 | _ :: _ => Chat.build_sources round validation_error results
                 end
                 = Eff.Raise (validation_error (Chat.source_fields round bad))).
    { destruct results eqn:E; [ | exact Hb ].
      unfold results in E. now destruct good. }
    unfold Chat.send_contextual_message, Chat.guarded, Chat.search_similar,
      Retrieval.search_similar, Eff.bind, Eff.call, Chat.get_confidence_level,
      Chat.generate_response, Generation.generate_response, Eff.lift.
    cbn [Eff.trace Eff.uuids_drawn]. fold filter. rewrite Hq. fold messages.
    destruct (String.eqb
                (Retrieval.get_confidence_level settings (Chat.top_score results))
                "low"); rewrite Hllm; [ rewrite Hs | rewrite Hb ];
      unfold Eff.call; cbn [Eff.trace Eff.uuids_drawn]; now rewrite <- app_assoc.
Qed.

(** A valid hit followed by one whose score is not a number, on the
    contextual handler: the message is the one for the second hit. *)
Lemma invalid_score_fails_after_completion_witness :
  let good := sample_result "A node is a process." 0.8%float in
  let bad := {| Retrieval.chunk_text := "Topics carry messages.";
                Retrieval.chapter_slug := "digital-twin";
                Retrieval.section_id := None;
                Retrieval.chunk_index := 4;
                Retrieval.score := nan;
                Retrieval.start_char := 0;
                Retrieval.end_char := 22 |} in
  let request := {| ctx_message := "Explain X";
                    selected_text := "A node is a process.";
                    ctx_chapter_slug := None; ctx_session_id := None |} in
  Chat.send_contextual_message Config.defaults round_id sample_validation_error
                               (always_hits [good; bad])
                               (always_says "A node is ...") uuid_count request
                               Eff.initial
  = (Chat.HTTPException 500
       {| Chat.error := "Failed to process contextual chat request";
          Chat.code := INTERNAL_ERROR;
          Chat.details_message :=
            sample_validation_error (Chat.source_fields round_id bad) |},
     {| Eff.trace := Eff.trace Eff.initial
                     ++ [Eff.EvQueryPoints "Explain X" 3 None;
                         Eff.EvChatCompletion
                           (Generation.prompt "Explain X" [good; bad]
                                              (Some "A node is a process."))
                           "llama-3.1-8b-instant" 0.3%float 1000];
        Eff.uuids_drawn := 0 |}).
Proof.
  intros good bad request.
  apply (proj2 (invalid_score_fails_after_completion Config.defaults round_id
                  sample_validation_error (always_hits [good; bad])
                  (always_says "A node is ...") uuid_count
                  Eff.initial [good] bad [] "A node is ..."
                  ltac:(repeat constructor) ltac:(reflexivity)) request);
    reflexivity.
Defined.

End ChatTheory.

(* ===================================================================== *)
(** * The fallback answer (src/services/generation.py) *)
(* ===================================================================== *)

Module GenerationTheory.

(** C10.  [generate_low_confidence_response] does not look at its query:
    any two queries get the same string, one fixed text. *)
Theorem generate_low_confidence_response_constant :
  (forall q1 q2 : string,
      Generation.generate_low_confidence_response q1
      = Generation.generate_low_confidence_response q2)
  /\ (exists fixed : string,
         forall q : string, Generation.generate_low_confidence_response q = fixed).
Proof.
  split; [ reflexivity | ].
  exists (Generation.generate_low_confidence_response EmptyString). reflexivity.
Qed.

End GenerationTheory.

(* ===================================================================== *)
(** * Chunking (scripts/ingest.py) *)
(* ===================================================================== *)

Module IngestTheory.
Import Claims Ingest.

(** ** Words of [split] *)

Lemma no_space_app (a b : string) :
  no_space (a ++ b) = no_space a && no_space b.
Proof.
  induction a as [| c a IH]; cbn; trivial.
  now rewrite IH, andb_assoc.
Qed.

Lemma is_empty_app_char (a : string) (c : ascii) :
  Py.is_empty (a ++ String c EmptyString) = false.
Proof. now destruct a. Qed.

Lemma split_aux_words (s cur : string) :
  no_space cur = true -> Forall (fun w => is_word w = true) (Py.split_aux cur s).
Proof.
  revert cur; induction s as [| c r IH]; intros cur Hcur; cbn [Py.split_aux].
  - destruct (Py.is_empty cur) eqn:E; constructor; trivial.
    unfold is_word. now rewrite E, Hcur.
  - destruct (Py.is_space c) eqn:Hc.
    + destruct (Py.is_empty cur) eqn:E.
      * now apply IH.
      * constructor; [ unfold is_word; now rewrite E, Hcur | now apply IH ].
    + apply IH. rewrite no_space_app, Hcur. cbn. now rewrite Hc.
Qed.

Lemma split_words (s : string) :
  Forall (fun w => is_word w = true) (Py.split s).
Proof. now apply split_aux_words. Qed.

Lemma slice_eq {A} (l : list A) (a b : Z) :
  0 <= a -> 0 <= b ->
  Py.slice l a b
  = firstn (Z.to_nat (Z.min b (Py.llen l) - Z.min a (Py.llen l)))
           (skipn (Z.to_nat (Z.min a (Py.llen l))) l).
Proof.
  intros Ha Hb. unfold Py.slice, Py.clamp.
  destruct (Z.ltb_spec a 0), (Z.ltb_spec b 0); try lia. reflexivity.
Qed.

Lemma Forall_firstn_of {A} (P : A -> Prop) (n : nat) (l : list A) :
  Forall P l -> Forall P (firstn n l).
Proof.
  intros H; revert n; induction H as [| x l Hx _ IH]; intros [| n]; cbn;
    constructor; auto.
Qed.

Lemma Forall_skipn_of {A} (P : A -> Prop) (n : nat) (l : list A) :
  Forall P l -> Forall P (skipn n l).
Proof.
  intros H; revert n; induction H as [| x l Hx Hl IH]; intros [| n]; cbn;
    auto.
Qed.

Lemma slice_Forall {A} (P : A -> Prop) (l : list A) (a b : Z) :
  Forall P l -> Forall P (Py.slice l a b).
Proof.
  intros H. unfold Py.slice. now apply Forall_firstn_of, Forall_skipn_of.
Qed.


(** ** Strings *)

Lemma length_app (a b : string) :
  String.length (a ++ b) = (String.length a + String.length b)%nat.
Proof. induction a as [| c a IH]; cbn; auto. Qed.

Lemma len_app (a b : string) : Py.len (a ++ b) = Py.len a + Py.len b.
Proof. unfold Py.len. rewrite length_app. lia. Qed.

Lemma len_nonneg (a : string) : 0 <= Py.len a.
Proof. unfold Py.len. lia. Qed.

Lemma app_assoc_str (a b c : string) : (a ++ b) ++ c = a ++ (b ++ c).
Proof. induction a as [| x a IH]; cbn; [ trivial | now rewrite IH ]. Qed.

Lemma app_empty_r (a : string) : a ++ EmptyString = a.
Proof. induction a as [| x a IH]; cbn; [ trivial | now rewrite IH ]. Qed.

Lemma is_word_len (w : string) : is_word w = true -> 1 <= Py.len w.
Proof.
  destruct w as [| c w]; [ discriminate | ].
  intros _. unfold Py.len. cbn. lia.
Qed.

Lemma join_cons (sep x y : string) (l : list string) :
  Py.join sep (x :: y :: l) = x ++ sep ++ Py.join sep (y :: l).
Proof. reflexivity. Qed.

(** The join of a non-empty list of words is not empty. *)
Lemma join_words_len (ws : list string) :
  ws <> [] -> Forall (fun w => is_word w = true) ws ->
  1 <= Py.len (Py.join " " ws).
Proof.
  intros Hne Hw. destruct Hw as [| w rest Hw _]; [ now elim Hne | ].
  apply is_word_len in Hw.
  destruct rest as [| y rest]; [ exact Hw | ].
  rewrite join_cons, len_app.
  pose proof (len_nonneg (" " ++ Py.join " " (y :: rest))). lia.
Qed.

(** ** The loop of [chunk_text] *)

Section LoopFacts.
Variable T : string.
Variable words : list string.
Variables max_tokens overlap_tokens : Z.

#[local] Abbreviation body := (loop_body T words max_tokens overlap_tokens).
#[local] Abbreviation loop := (chunk_loop T words max_tokens overlap_tokens).
#[local] Abbreviation n := (Py.llen words).

(** The window of a pass and the chunk it appends. *)
Lemma loop_body_chunks (st : LoopState) :
  let end_idx := Z.min (start_idx st + max_tokens) n in
  let chunk_words := Py.slice words (start_idx st) end_idx in
  exists c,
    chunks (fst (body st)) = (chunks st ++ [c])%list
    /\ text c = Py.join " " chunk_words
    /\ end_char c = start_char c + Py.len (text c)
    /\ char_pos (fst (body st)) = end_char c
    /\ start_char c = match chunk_words with
                      | w :: _ => Py.find T w (char_pos st)
                      | [] => char_pos st
                      end.
Proof. intros end_idx chunk_words. eexists. cbn. repeat split. Qed.

(** A pass that does not break moves the window start by
    [max_tokens - overlap_tokens]. *)
Lemma loop_body_advance (st : LoopState) :
  snd (body st) = false ->
  start_idx (fst (body st)) = start_idx st + (max_tokens - overlap_tokens).
Proof.
  cbn. intros H. apply Z.leb_gt in H. lia.
Qed.

Lemma loop_body_break (st : LoopState) :
  snd (body st) = true -> Z.min (start_idx st + max_tokens) n = n.
Proof.
  cbn. intros H. apply Z.leb_le in H. lia.
Qed.

Lemma chunk_loop_S (fuel : nat) (st : LoopState) :
  loop (S fuel) st =
  if start_idx st <? n then
    if snd (body st) then Some (chunks (fst (body st)))
    else loop fuel (fst (body st))
  else Some (chunks st).
Proof. reflexivity. Qed.

(** More fuel does not change a result. *)
Lemma chunk_loop_more_fuel (fuel fuel' : nat) (st : LoopState) (cs : list Chunk) :
  (fuel <= fuel')%nat -> loop fuel st = Some cs -> loop fuel' st = Some cs.
Proof.
  revert fuel' st; induction fuel as [| fuel IH]; intros fuel' st Hle H;
    [ discriminate | ].
  destruct fuel' as [| fuel']; [ lia | ].
  rewrite chunk_loop_S in *.
  destruct (start_idx st <? n); trivial.
  destruct (snd (body st)); trivial.
  apply IH; [ lia | exact H ].
Qed.

Lemma chunk_loop_deterministic (f1 f2 : nat) (st : LoopState) (a b : list Chunk) :
  loop f1 st = Some a -> loop f2 st = Some b -> a = b.
Proof.
  intros Ha Hb.
  apply (chunk_loop_more_fuel f1 (Nat.max f1 f2)) in Ha; [ | lia ].
  apply (chunk_loop_more_fuel f2 (Nat.max f1 f2)) in Hb; [ | lia ].
  congruence.
Qed.

(** With [overlap_tokens < max_tokens] the loop ends within
    [len(words) - start_idx + 1] passes. *)
Lemma chunk_loop_terminates (fuel : nat) (st : LoopState) :
  overlap_tokens < max_tokens ->
  Z.max 0 (n - start_idx st) < Z.of_nat fuel ->
  exists cs, loop fuel st = Some cs.
Proof.
  intros Hov. revert st; induction fuel as [| fuel IH]; intros st Hfuel.
  - lia.
  - rewrite chunk_loop_S.
    destruct (Z.ltb_spec (start_idx st) n) as [Hlt | Hge]; [ | eauto ].
    destruct (snd (body st)) eqn:Hb; [ eauto | ].
    apply IH. rewrite (loop_body_advance st Hb). lia.
Qed.

(** A property of the state at the loop head and a property of every
    appended chunk, carried through the loop. *)
Lemma chunk_loop_invariant (I : LoopState -> Prop) (P : Chunk -> Prop) :
  (forall st, I st -> start_idx st < n ->
              exists c, chunks (fst (body st)) = (chunks st ++ [c])%list
                        /\ P c
                        /\ (snd (body st) = false -> I (fst (body st)))) ->
  forall fuel st cs,
    I st -> Forall P (chunks st) -> loop fuel st = Some cs -> Forall P cs.
Proof.
  intros Hstep. induction fuel as [| fuel IH]; intros st cs HI HP H;
    [ discriminate | ].
  rewrite chunk_loop_S in H.
  destruct (Z.ltb_spec (start_idx st) n) as [Hlt | Hge];
    [ | injection H as <-; exact HP ].
  destruct (Hstep st HI Hlt) as (c & Hc & HPc & Hnext).
  assert (HP' : Forall P (chunks (fst (body st)))).
  { rewrite Hc. apply Forall_app. split; [ exact HP | now constructor ]. }
  destruct (snd (body st)) eqn:Hb.
  - injection H as <-. exact HP'.
  - apply (IH (fst (body st))); auto.
Qed.

End LoopFacts.

Lemma chunk_text_deterministic (f1 f2 : nat) (T : string) (max_tokens overlap_tokens : Z)
      (a b : list Chunk) :
  chunk_text f1 T max_tokens overlap_tokens = Some a ->
  chunk_text f2 T max_tokens overlap_tokens = Some b -> a = b.
Proof. apply chunk_loop_deterministic. Qed.

(** ** Termination *)

(** C7.  With [overlap_tokens < max_tokens] (in particular with
    [max_tokens > 0]) the loop of [chunk_text] ends: every run of more than
    [len(words)] passes returns the same chunk list; a pass that does not
    break moves the window start forward by
    [max_tokens - overlap_tokens]; and the empty text gives no chunk. *)
Theorem chunk_text_terminates (T : string) (max_tokens overlap_tokens : Z) :
  overlap_tokens < max_tokens ->
  (exists cs, forall fuel, (List.length (Py.split T) < fuel)%nat ->
                           chunk_text fuel T max_tokens overlap_tokens = Some cs)
  /\ (forall st,
         let next := loop_body T (Py.split T) max_tokens overlap_tokens st in
         snd next = false ->
         start_idx (fst next) = start_idx st + (max_tokens - overlap_tokens)
         /\ start_idx st < start_idx (fst next))
  /\ (forall fuel, (0 < fuel)%nat ->
                   chunk_text fuel EmptyString max_tokens overlap_tokens = Some []).
Proof.
  intros Hov. split; [ | split ].
  - destruct (chunk_loop_terminates T (Py.split T) max_tokens overlap_tokens
                (S (List.length (Py.split T)))
                {| start_idx := 0; char_pos := 0; chunks := [] |} Hov)
      as [cs Hcs].
    { cbn [start_idx]. unfold Py.llen. lia. }
    exists cs. intros fuel Hfuel. unfold chunk_text.
    eapply chunk_loop_more_fuel; [ | exact Hcs ]. lia.
  - intros st next Hb. subst next.
    rewrite (loop_body_advance _ _ _ _ st Hb). lia.
  - intros [| fuel] Hfuel; [ lia | reflexivity ].
Qed.

(** The default parameters on a three-word text. *)
Lemma chunk_text_terminates_witness :
  (exists cs, forall fuel, (List.length (Py.split "one two three") < fuel)%nat ->
                           chunk_text fuel "one two three" 512 50 = Some cs)
  /\ (forall st,
         let next := loop_body "one two three" (Py.split "one two three") 512 50 st in
         snd next = false ->
         start_idx (fst next) = start_idx st + (512 - 50)
         /\ start_idx st < start_idx (fst next))
  /\ (forall fuel, (0 < fuel)%nat -> chunk_text fuel EmptyString 512 50 = Some []).
Proof.
  apply (chunk_text_terminates "one two three" 512 50). reflexivity.
Defined.

(** With [overlap_tokens = max_tokens] the window does not move: on a text
    of three words and windows of two, no number of passes ends the loop. *)
Lemma chunk_loop_stuck (fuel : nat) (st : LoopState) :
  start_idx st = 0 ->
  chunk_loop "a b c" (Py.split "a b c") 2 2 fuel st = None.
Proof.
  revert st; induction fuel as [| fuel IH]; intros st Hst; [ reflexivity | ].
  rewrite chunk_loop_S, Hst.
  change (0 <? Py.llen (Py.split "a b c")) with true. cbv iota.
  assert (Hb : snd (loop_body "a b c" (Py.split "a b c") 2 2 st) = false)
    by (cbn [loop_body snd]; rewrite Hst; reflexivity).
  rewrite Hb. apply IH.
  rewrite (loop_body_advance _ _ _ _ st Hb), Hst. reflexivity.
Qed.

Lemma chunk_text_overlap_equal_max_diverges (fuel : nat) :
  chunk_text fuel "a b c" 2 2 = None.
Proof. now apply chunk_loop_stuck. Qed.

(** ** Chunk texts and offsets *)

Lemma chunk_text_joined_windows (fuel : nat) (T : string)
      (max_tokens overlap_tokens : Z) (cs : list Chunk) :
  chunk_text fuel T max_tokens overlap_tokens = Some cs ->
  Forall (joined_window T) cs.
Proof.
  unfold chunk_text.
  apply (chunk_loop_invariant T (Py.split T) max_tokens overlap_tokens
           (fun _ => True) (joined_window T)); [ | trivial | constructor ].
  intros st _ _.
  destruct (loop_body_chunks T (Py.split T) max_tokens overlap_tokens st)
    as (c & Hc & Htext & Hend & _).
  exists c. split; [ exact Hc | split; [ | trivial ] ].
  exists (start_idx st),
    (Z.min (start_idx st + max_tokens) (Py.llen (Py.split T))).
  cbv zeta. split; [ apply slice_Forall, split_words | now split ].
Qed.

(** C9.  Every chunk's text is a window of the words of the text joined by
    single spaces, each word non-empty and free of white space, and its
    [end_char] is [start_char] plus the length of that joined text.  On the
    text "alpha", two newlines, two spaces, "beta", a tab, "gamma" the one
    chunk has the text "alpha beta gamma", which does not occur in the text,
    and [end_char] 16 where the text has 19 characters. *)
Theorem chunk_text_collapses_whitespace :
  (forall fuel T max_tokens overlap_tokens cs,
      chunk_text fuel T max_tokens overlap_tokens = Some cs ->
      Forall (joined_window T) cs)
  /\ (let T := "alpha" ++ Py.nl ++ Py.nl ++ "  beta" ++ Py.chr 9 ++ "gamma" in
      chunk_text 1 T default_max_tokens default_overlap_tokens
      = Some [ {| text := "alpha beta gamma"; start_char := 0; end_char := 16 |} ]
      /\ Py.find T "alpha beta gamma" 0 = -1
      /\ Py.len T = 19).
Proof.
  split; [ exact chunk_text_joined_windows | ].
  cbv zeta. split; [ | split ]; vm_compute; reflexivity.
Qed.

(** The same text, through the general statement. *)
Lemma chunk_text_collapses_whitespace_witness :
  Forall (joined_window ("alpha" ++ Py.nl ++ Py.nl ++ "  beta" ++ Py.chr 9 ++ "gamma"))
         [ {| text := "alpha beta gamma"; start_char := 0; end_char := 16 |} ].
Proof.
  apply (proj1 chunk_text_collapses_whitespace 1%nat
               ("alpha" ++ Py.nl ++ Py.nl ++ "  beta" ++ Py.chr 9 ++ "gamma")
               default_max_tokens default_overlap_tokens).
  reflexivity.
Defined.

Lemma slice_nonempty {A} (l : list A) (a b : Z) :
  0 <= a -> a < b -> a < Py.llen l -> Py.slice l a b <> [].
Proof.
  intros Ha Hab Han E. apply (f_equal (@List.length A)) in E.
  rewrite slice_eq in E by lia.
  rewrite length_firstn, length_skipn in E. cbn in E.
  unfold Py.llen in *. lia.
Qed.

(** With [0 < max_tokens] and [overlap_tokens < max_tokens] every window has a
    word, so every chunk has [start_char < end_char]. *)
Lemma chunk_text_start_lt_end (fuel : nat) (T : string)
      (max_tokens overlap_tokens : Z) (cs : list Chunk) :
  0 < max_tokens -> overlap_tokens < max_tokens ->
  chunk_text fuel T max_tokens overlap_tokens = Some cs ->
  Forall (fun c => start_char c < end_char c) cs.
Proof.
  intros Hmax Hov. unfold chunk_text.
  apply (chunk_loop_invariant T (Py.split T) max_tokens overlap_tokens
           (fun st => 0 <= start_idx st) (fun c => start_char c < end_char c));
    [ | cbn; lia | constructor ].
  intros st Hst Hlt.
  destruct (loop_body_chunks T (Py.split T) max_tokens overlap_tokens st)
    as (c & Hc & Htext & Hend & _).
  exists c. split; [ exact Hc | split ].
  - rewrite Hend, Htext.
    assert (1 <= Py.len (Py.join " "
                   (Py.slice (Py.split T) (start_idx st)
                      (Z.min (start_idx st + max_tokens) (Py.llen (Py.split T))))));
      [ | lia ].
    apply join_words_len.
    + apply slice_nonempty; lia.
    + apply slice_Forall, split_words.
  - intros Hb. rewrite (loop_body_advance _ _ _ _ st Hb). lia.
Qed.

(** C5 on the code: with an overlap, the first word of a window lies before
    the offset the search starts from, [find] returns -1, and the start
    offsets decrease.  Here on a three-word text with windows of two words
    overlapping by one, and with the default parameters on a text of 600
    distinct words. *)
Theorem chunk_text_overlap_start_decreases :
  chunk_text 2 "a b c" 2 1
  = Some [ {| text := "a b"; start_char := 0; end_char := 3 |};
           {| text := "b c"; start_char := -1; end_char := 2 |} ]
  /\ option_map (fun cs => non_decreasing (map start_char cs))
                (chunk_text 2 "a b c" 2 1)
     = Some false
  /\ option_map (map start_char)
                (chunk_text 2 (numbered_words 600) default_max_tokens
                            default_overlap_tokens)
     = Some [0; -1].
Proof.
  split; [ reflexivity | split; [ reflexivity | ] ].
  vm_compute. reflexivity.
Qed.

(** C4, as stated, fails on a text that ends in a newline: the last chunk
    ends at 11, the text has 12 characters. *)
Lemma final_end_char_counterexample :
  ("hello world" ++ Py.nl <> EmptyString)
  /\ default_overlap_tokens < default_max_tokens
  /\ ~ final_end_is_len ("hello world" ++ Py.nl)
                        default_max_tokens default_overlap_tokens.
Proof.
  split; [ discriminate | split; [ reflexivity | ] ].
  intros (fuel & cs & c & H & Hlast & Hend).
  assert (E : cs = [ {| text := "hello world"; start_char := 0; end_char := 11 |} ]).
  { eapply chunk_text_deterministic; [ exact H | ].
    instantiate (1 := 1%nat). reflexivity. }
  subst cs. cbn in Hlast. injection Hlast as <-. discriminate Hend.
Qed.

(** ** Offsets in a single-spaced text *)

Lemma last_chunk_app (cs : list Chunk) (c : Chunk) :
  last_chunk (cs ++ [c]) = Some c.
Proof. unfold last_chunk. rewrite map_app. cbn [map]. apply last_last. Qed.

Lemma prefix_cons (c d : ascii) (a b : string) :
  prefix (String c a) (String d b) = if Ascii.eqb c d then prefix a b else false.
Proof.
  destruct (Ascii.eqb_spec c d) as [-> | Hne].
  - destruct (prefix a b) eqn:E.
    + apply prefix_correct. cbn. f_equal. now apply prefix_correct.
    + destruct (prefix (String d a) (String d b)) eqn:E'; trivial.
      apply prefix_correct in E'. cbn in E'. injection E' as E'.
      apply prefix_correct in E'. congruence.
  - destruct (prefix (String c a) (String d b)) eqn:E'; trivial.
    apply prefix_correct in E'. cbn in E'. injection E' as E' _. congruence.
Qed.

Lemma prefix_app_self (a b : string) : prefix a (a ++ b) = true.
Proof.
  induction a as [| c a IH]; [ now destruct b | ].
  cbn [append]. rewrite prefix_cons, Ascii.eqb_refl. exact IH.
Qed.

Lemma index_0_cons (sub : string) (c : ascii) (s : string) :
  index 0 sub (String c s) =
  if prefix sub (String c s) then Some 0%nat
  else option_map S (index 0 sub s).
Proof. cbn. now destruct (prefix sub (String c s)). Qed.

(** Searching from the end of [a] in [a ++ b] is searching in [b]. *)
Lemma index_app_from (a b sub : string) (k : nat) :
  index (String.length a + k) sub (a ++ b)
  = option_map (Nat.add (String.length a)) (index k sub b).
Proof.
  induction a as [| c a IH]; cbn [append String.length Nat.add].
  - now destruct (index k sub b).
  - cbn [index]. rewrite IH. now destruct (index k sub b).
Qed.

(** A word that occurs at the head of the text is found there. *)
Lemma index_0_self (w b : string) :
  w <> EmptyString -> index 0 w (w ++ b) = Some 0%nat.
Proof.
  destruct w as [| c w]; [ congruence | intros _ ].
  cbn [append]. rewrite index_0_cons.
  change (String c (w ++ b)) with (String c w ++ b).
  now rewrite prefix_app_self.
Qed.

(** A word does not start inside the white space before it. *)
Lemma index_0_after_spaces (lead b w : string) :
  all_space lead = true -> is_word w = true ->
  index 0 w (lead ++ b) = option_map (Nat.add (String.length lead)) (index 0 w b).
Proof.
  intros Hlead Hw. destruct w as [| c w]; [ discriminate | ].
  unfold is_word in Hw. cbn in Hw. apply andb_prop in Hw as [Hc _].
  induction lead as [| d lead IH]; cbn [append String.length].
  - now destruct (index 0 (String c w) b).
  - cbn in Hlead. apply andb_prop in Hlead as [Hd Hlead].
    rewrite index_0_cons, prefix_cons.
    destruct (Ascii.eqb_spec c d) as [-> | _].
    + rewrite Hd in Hc. discriminate.
    + rewrite (IH Hlead). now destruct (index 0 (String c w) b).
Qed.

Lemma join_head (sep w : string) (rest : list string) :
  exists tail, Py.join sep (w :: rest) = w ++ tail.
Proof.
  destruct rest as [| y rest].
  - exists EmptyString. cbn. now rewrite app_empty_r.
  - eexists. apply join_cons.
Qed.

(** The join of a list splits at every inner position. *)
Lemma join_split_at (sep : string) (ws : list string) (i : nat) :
  (0 < i < List.length ws)%nat ->
  Py.join sep ws
  = Py.join sep (firstn i ws) ++ sep ++ Py.join sep (skipn i ws).
Proof.
  revert i; induction ws as [| x rest IH]; intros i Hi; cbn [List.length] in Hi;
    [ lia | ].
  destruct i as [| i]; [ lia | ].
  destruct rest as [| y rest]; cbn [List.length] in Hi; [ lia | ].
  destruct i as [| i].
  - reflexivity.
  - rewrite join_cons, (IH (S i)) by (cbn [List.length]; lia).
    cbn [firstn skipn]. rewrite join_cons.
    now rewrite !app_assoc_str.
Qed.

Section SingleSpaced.
Variables lead T : string.
Variable ws : list string.
Hypothesis Hlead : all_space lead = true.
Hypothesis Hwords : Forall (fun w => is_word w = true) ws.
Hypothesis HT : T = lead ++ Py.join " " ws.

(** [find] locates word [i] at its own offset when the search starts just
    after word [i - 1]. *)
Lemma find_word_at (i : nat) (w : string) (rest : list string) :
  skipn i ws = w :: rest ->
  Py.find T w (offset_after lead ws i) = offset_of lead ws i.
Proof.
  intros Hskip.
  assert (Hw : is_word w = true).
  { assert (H : Forall (fun w => is_word w = true) (skipn i ws))
      by (now apply Forall_skipn_of).
    rewrite Hskip in H. now inversion H. }
  assert (Hne : w <> EmptyString) by (intros ->; discriminate).
  destruct (join_head " " w rest) as [tail Htail].
  unfold Py.find.
  assert (Hpos : 0 <= offset_after lead ws i).
  { destruct i; cbn [offset_after]; [ lia | ].
    pose proof (len_nonneg lead).
    pose proof (len_nonneg (Py.join " " (firstn (S i) ws))). lia. }
  destruct (Z.ltb_spec (offset_after lead ws i) 0) as [ | _ ]; [ lia | ].
  destruct i as [| i].
  - cbn [skipn] in Hskip. subst ws. cbn [offset_after offset_of].
    change (Z.to_nat 0) with 0%nat.
    rewrite HT, (index_0_after_spaces lead _ w Hlead Hw), Htail.
    rewrite index_0_self by exact Hne. cbn [option_map].
    unfold Py.len. f_equal. lia.
  - assert (Hi : (0 < S i < List.length ws)%nat).
    { split; [ lia | ].
      destruct (Nat.lt_ge_cases (S i) (List.length ws)) as [ | Hge ]; trivial.
      rewrite skipn_all2 in Hskip by exact Hge. discriminate. }
    cbn [offset_after offset_of].
    rewrite HT at 1. rewrite (join_split_at " " ws (S i) Hi), Hskip, Htail.
    rewrite <- app_assoc_str.
    replace (Z.to_nat (Py.len lead + Py.len (Py.join " " (firstn (S i) ws))))
      with (String.length (lead ++ Py.join " " (firstn (S i) ws)) + 0)%nat
      by (rewrite length_app; unfold Py.len; lia).
    rewrite index_app_from.
    change (" " ++ w ++ tail) with (String " "%char (w ++ tail)).
    rewrite index_0_cons.
    assert (Hpre : prefix w (String " "%char (w ++ tail)) = false).
    { destruct w as [| c w']; [ congruence | ].
      rewrite prefix_cons.
      destruct (Ascii.eqb_spec c " "%char) as [-> | _]; [ discriminate Hw | trivial ]. }
    rewrite Hpre, index_0_self by exact Hne. cbn [option_map].
    rewrite length_app. unfold Py.len. lia.
Qed.

(** The offset after a window of [k] words that starts at word [i]. *)
Lemma offset_after_window (i k : nat) :
  (0 < k)%nat -> (i + k <= List.length ws)%nat ->
  offset_after lead ws (i + k)
  = offset_of lead ws i + Py.len (Py.join " " (firstn k (skipn i ws))).
Proof.
  intros Hk Hik. destruct i as [| i].
  - cbn [Nat.add skipn offset_of]. destruct k; [ lia | reflexivity ].
  - replace (offset_after lead ws (S i + k))
      with (Py.len lead + Py.len (Py.join " " (firstn (S i + k) ws)))
      by (now destruct k).
    cbn [offset_of].
    rewrite (join_split_at " " (firstn (S i + k) ws) (S i))
      by (rewrite length_firstn; lia).
    rewrite firstn_firstn, skipn_firstn_comm.
    replace (Nat.min (S i) (S i + k)) with (S i) by lia.
    replace (S i + k - S i)%nat with k by lia.
    rewrite !len_app. change (Py.len " ") with 1. lia.
Qed.

End SingleSpaced.

(* --------------------------------------------------------------------- *)
(** ** Further properties of [chunk_text] *)
(* --------------------------------------------------------------------- *)

(** A rule for the loop: [I] holds at the loop head, [Q] of the result. *)
Lemma chunk_loop_rule (T : string) (words : list string)
      (max_tokens overlap_tokens : Z)
      (I : LoopState -> Prop) (Q : list Chunk -> Prop) :
  (forall st, I st -> Py.llen words <= start_idx st -> Q (chunks st)) ->
  (forall st, I st -> start_idx st < Py.llen words ->
              snd (loop_body T words max_tokens overlap_tokens st) = true ->
              Q (chunks (fst (loop_body T words max_tokens overlap_tokens st)))) ->
  (forall st, I st -> start_idx st < Py.llen words ->
              snd (loop_body T words max_tokens overlap_tokens st) = false ->
              I (fst (loop_body T words max_tokens overlap_tokens st))) ->
  forall fuel st cs,
    I st -> chunk_loop T words max_tokens overlap_tokens fuel st = Some cs -> Q cs.
Proof.
  intros Hexit Hbreak Hnext.
  induction fuel as [| fuel IH]; intros st cs HI H; [ discriminate | ].
  rewrite chunk_loop_S in H.
  destruct (Z.ltb_spec (start_idx st) (Py.llen words)) as [Hlt | Hge].
  - destruct (snd (loop_body T words max_tokens overlap_tokens st)) eqn:Hb.
    + injection H as <-. now apply Hbreak.
    + apply (IH (fst (loop_body T words max_tokens overlap_tokens st))); auto.
  - injection H as <-. now apply Hexit.
Qed.

(** [split] undoes [join] on words. *)
Lemma split_aux_word (w cur r : string) :
  no_space w = true -> Py.split_aux cur (w ++ r) = Py.split_aux (cur ++ w) r.
Proof.
  revert cur; induction w as [| c w IH]; intros cur Hw; cbn [append].
  - now rewrite app_empty_r.
  - cbn in Hw. apply andb_prop in Hw as [Hc Hw].
    apply negb_true_iff in Hc. cbn [Py.split_aux]. rewrite Hc.
    rewrite IH by exact Hw. now rewrite app_assoc_str.
Qed.

Lemma split_join (ws : list string) :
  Forall (fun w => is_word w = true) ws -> Py.split (Py.join " " ws) = ws.
Proof.
  unfold Py.split.
  induction 1 as [| w rest Hw Hrest IH]; [ reflexivity | ].
  unfold is_word in Hw. apply andb_prop in Hw as [Hne Hns].
  destruct rest as [| y rest].
  - cbn [Py.join String.concat].
    pose proof (split_aux_word w EmptyString EmptyString Hns) as E.
    rewrite app_empty_r in E. rewrite E.
    cbn [append Py.split_aux]. now destruct w.
  - rewrite join_cons, split_aux_word by exact Hns.
    cbn [append Py.split_aux]. change (Py.is_space " ") with true. cbv iota.
    destruct w; [ discriminate | ]. cbn [append Py.is_empty].
    f_equal. exact IH.
Qed.

Lemma slice_clamp_end {A} (l : list A) (a b : Z) :
  0 <= a -> 0 <= b -> Py.slice l a (Z.min b (Py.llen l)) = Py.slice l a b.
Proof.
  intros Ha Hb. rewrite !slice_eq; unfold Py.llen in *; try lia.
  f_equal. lia.
Qed.

Lemma slice_length {A} (l : list A) (a b : Z) :
  0 <= a -> 0 <= b ->
  Py.llen (Py.slice l a b)
  = Z.max 0 (Z.min b (Py.llen l) - Z.min a (Py.llen l)).
Proof.
  intros Ha Hb. rewrite slice_eq by lia. unfold Py.llen.
  rewrite length_firstn, length_skipn. lia.
Qed.

Lemma map_text_nil (cs : list Chunk) : map text cs = [] -> cs = [].
Proof. now destruct cs. Qed.

(** The chunk texts are the sliding windows, in order: the loop stops at
    the first window that reaches the last word. *)
Lemma chunk_text_windows (fuel : nat) (T : string)
      (max_tokens overlap_tokens : Z) (cs : list Chunk) :
  0 <= overlap_tokens < max_tokens ->
  chunk_text fuel T max_tokens overlap_tokens = Some cs ->
  (Py.split T = [] /\ cs = [])
  \/ exists N : nat,
      map text cs
      = map (fun k => Py.join " " (window (Py.split T) max_tokens overlap_tokens k))
            (seq 0 (S N))
      /\ Z.of_nat N * (max_tokens - overlap_tokens) < Py.llen (Py.split T)
         <= Z.of_nat N * (max_tokens - overlap_tokens) + max_tokens
      /\ forall k : nat,
          (k < N)%nat ->
          Z.of_nat k * (max_tokens - overlap_tokens) + max_tokens
          < Py.llen (Py.split T).
Proof.
  intros Hov. unfold chunk_text.
  set (words := Py.split T). set (step := max_tokens - overlap_tokens).
  set (W := fun k => Py.join " " (window words max_tokens overlap_tokens k)).
  intros Hrun.
  apply (chunk_loop_rule T words max_tokens overlap_tokens
           (fun st => exists K : nat,
                start_idx st = Z.of_nat K * step
                /\ map text (chunks st) = map W (seq 0 K)
                /\ forall k : nat, (k < K)%nat ->
                                   Z.of_nat k * step + max_tokens < Py.llen words)
           (fun cs =>
              (words = [] /\ cs = [])
              \/ exists N : nat,
                  map text cs = map W (seq 0 (S N))
                  /\ Z.of_nat N * step < Py.llen words
                     <= Z.of_nat N * step + max_tokens
                  /\ forall k : nat, (k < N)%nat ->
                                     Z.of_nat k * step + max_tokens < Py.llen words))
    with (5 := Hrun).
  - intros st (K & Hs & Hc & Hk) Hge. left.
    destruct K as [| K].
    + cbn in Hc. apply map_text_nil in Hc. split; trivial.
      destruct words; [ trivial | ]. unfold Py.llen in Hge. cbn in Hge. lia.
    + specialize (Hk K (Nat.lt_succ_diag_r K)). unfold step in *. nia.
  - intros st (K & Hs & Hc & Hk) Hlt Hb. right. exists K.
    apply loop_body_break in Hb.
    destruct (loop_body_chunks T words max_tokens overlap_tokens st)
      as (c & Hch & Htext & _).
    split; [ | split; [ unfold step in *; lia | exact Hk ] ].
    rewrite Hch, map_app, Hc, seq_S, map_app. cbn [map Nat.add]. f_equal.
    rewrite Htext. unfold W, window. fold step. rewrite Hs.
    rewrite slice_clamp_end; [ reflexivity | unfold step; nia | unfold step; nia ].
  - intros st (K & Hs & Hc & Hk) Hlt Hb. exists (S K).
    pose proof (loop_body_advance _ _ _ _ st Hb) as Hadv.
    destruct (loop_body_chunks T words max_tokens overlap_tokens st)
      as (c & Hch & Htext & _).
    assert (Hnb : start_idx st + max_tokens < Py.llen words).
    { revert Hb. cbn. intros Hb. apply Z.leb_gt in Hb. lia. }
    split; [ fold step in Hadv; lia | split ].
    + rewrite Hch, map_app, Hc, seq_S, map_app. cbn [map Nat.add]. f_equal.
      rewrite Htext. unfold W, window. fold step. rewrite Hs.
      rewrite slice_clamp_end; [ reflexivity | unfold step; nia | unfold step; nia ].
    + intros k Hk'. destruct (Nat.eq_dec k K) as [-> | Hne].
      * lia.
      * apply Hk. lia.
  - exists 0%nat. cbn. repeat split. intros k Hk. lia.
Qed.

(** The same on the words of each chunk, which [split] gives back. *)
Lemma chunk_words_windows (fuel : nat) (T : string)
      (max_tokens overlap_tokens : Z) (cs : list Chunk) :
  0 <= overlap_tokens < max_tokens ->
  chunk_text fuel T max_tokens overlap_tokens = Some cs ->
  (Py.split T = [] /\ cs = [])
  \/ exists N : nat,
      map (fun c => Py.split (text c)) cs
      = map (window (Py.split T) max_tokens overlap_tokens) (seq 0 (S N))
      /\ Z.of_nat N * (max_tokens - overlap_tokens) < Py.llen (Py.split T)
         <= Z.of_nat N * (max_tokens - overlap_tokens) + max_tokens
      /\ forall k : nat,
          (k < N)%nat ->
          Z.of_nat k * (max_tokens - overlap_tokens) + max_tokens
          < Py.llen (Py.split T).
Proof.
  intros Hov H.
  destruct (chunk_text_windows fuel T max_tokens overlap_tokens cs Hov H)
    as [ | (N & Hmap & Hn & Hk)]; [ now left | right ].
  exists N. split; [ | now split ].
  rewrite <- (map_map text Py.split), Hmap, map_map.
  apply map_ext. intros k. apply split_join.
  apply slice_Forall, split_words.
Qed.

Lemma window_length {A} (words : list A) (max_tokens overlap_tokens : Z) (k : nat) :
  0 <= overlap_tokens < max_tokens ->
  Py.llen (window words max_tokens overlap_tokens k)
  = Z.max 0 (Z.min (Z.of_nat k * (max_tokens - overlap_tokens) + max_tokens)
                   (Py.llen words)
             - Z.min (Z.of_nat k * (max_tokens - overlap_tokens)) (Py.llen words)).
Proof.
  intros Hov. unfold window. apply slice_length; nia.
Qed.

Lemma map_removelast {A B} (f : A -> B) (l : list A) :
  map f (removelast l) = removelast (map f l).
Proof.
  induction l as [| a l IH]; [ reflexivity | ].
  destruct l as [| b l]; [ reflexivity | ].
  cbn [removelast map] in *. now rewrite IH.
Qed.

(** X1.  For [0 <= overlap_tokens < max_tokens], splitting the text of the
    [k]-th chunk gives the words [words[k*step : k*step + max_tokens]] of
    the document, with [step = max_tokens - overlap_tokens]; there is no
    chunk exactly when the document has no word. *)
Theorem chunk_text_sliding_windows (fuel : nat) (T : string)
        (max_tokens overlap_tokens : Z) (cs : list Chunk) :
  0 <= overlap_tokens < max_tokens ->
  chunk_text fuel T max_tokens overlap_tokens = Some cs ->
  map (fun c => Py.split (text c)) cs
  = map (window (Py.split T) max_tokens overlap_tokens) (seq 0 (List.length cs))
  /\ (cs = [] <-> Py.split T = []).
Proof.
  intros Hov H.
  destruct (chunk_words_windows fuel T max_tokens overlap_tokens cs Hov H)
    as [ [Hw ->] | (N & Hmap & Hn & _)].
  - split; [ reflexivity | tauto ].
  - assert (Hlen : List.length cs = S N).
    { apply (f_equal (@List.length _)) in Hmap.
      now rewrite !length_map, length_seq in Hmap. }
    rewrite Hlen. split; [ exact Hmap | ].
    split; intros E.
    + subst cs. discriminate Hlen.
    + rewrite E in Hn. unfold Py.llen in Hn. cbn in Hn. nia.
Qed.

(** Windows of two words overlapping by one over a four-word text. *)
Lemma chunk_text_sliding_windows_witness :
  map (fun c => Py.split (text c))
      [ {| text := "a b"; start_char := 0; end_char := 3 |};
        {| text := "b c"; start_char := -1; end_char := 2 |};
        {| text := "c d"; start_char := 4; end_char := 7 |} ]
  = map (window (Py.split "a b c d") 2 1) (seq 0 3)
  /\ ([ {| text := "a b"; start_char := 0; end_char := 3 |};
        {| text := "b c"; start_char := -1; end_char := 2 |};
        {| text := "c d"; start_char := 4; end_char := 7 |} ] = []
      <-> Py.split "a b c d" = []).
Proof.
  apply (chunk_text_sliding_windows 3 "a b c d" 2 1); [ lia | reflexivity ].
Defined.

(** X2.  For [0 <= overlap_tokens < max_tokens], every chunk holds at least
    one and at most [max_tokens] words, and every chunk but the last holds
    exactly [max_tokens] words. *)
Theorem chunk_text_word_counts (fuel : nat) (T : string)
        (max_tokens overlap_tokens : Z) (cs : list Chunk) :
  0 <= overlap_tokens < max_tokens ->
  chunk_text fuel T max_tokens overlap_tokens = Some cs ->
  Forall (fun c => 1 <= Py.llen (Py.split (text c)) <= max_tokens) cs
  /\ Forall (fun c => Py.llen (Py.split (text c)) = max_tokens) (removelast cs).
Proof.
  intros Hov H.
  destruct (chunk_words_windows fuel T max_tokens overlap_tokens cs Hov H)
    as [ [Hw ->] | (N & Hmap & Hn & Hk)]; [ split; constructor | ].
  split.
  - apply (Forall_map (fun c => Py.split (text c))
                      (fun ws => 1 <= Py.llen ws <= max_tokens)).
    rewrite Hmap. apply Forall_map, Forall_forall. intros k Hin.
    apply in_seq in Hin. rewrite window_length by exact Hov.
    destruct (Nat.eq_dec k N) as [-> | Hne].
    + set (x := Z.of_nat N * (max_tokens - overlap_tokens)) in *. lia.
    + specialize (Hk k ltac:(lia)).
      assert (0 <= Z.of_nat k * (max_tokens - overlap_tokens)) by nia.
      set (x := Z.of_nat k * (max_tokens - overlap_tokens)) in *. lia.
  - apply (Forall_map (fun c => Py.split (text c))
                      (fun ws => Py.llen ws = max_tokens)).
    rewrite map_removelast, Hmap, seq_S, map_app. cbn [map].
    rewrite removelast_last.
    apply Forall_map, Forall_forall. intros k Hin.
    apply in_seq in Hin. rewrite window_length by exact Hov.
    specialize (Hk k ltac:(lia)).
    assert (0 <= Z.of_nat k * (max_tokens - overlap_tokens)) by nia.
    set (x := Z.of_nat k * (max_tokens - overlap_tokens)) in *. lia.
Qed.

(** Five words in windows of two words overlapping by one: four chunks. *)
Lemma chunk_text_word_counts_witness :
  exists cs,
    chunk_text 5 "a b c d e" 2 1 = Some cs
    /\ Forall (fun c => 1 <= Py.llen (Py.split (text c)) <= 2) cs
    /\ Forall (fun c => Py.llen (Py.split (text c)) = 2) (removelast cs).
Proof.
  eexists. split; [ reflexivity | ].
  apply (chunk_text_word_counts 5 "a b c d e" 2 1); [ lia | reflexivity ].
Defined.

Lemma firstn_firstn_skipn {A} (a b : nat) (l : list A) :
  (firstn a l ++ firstn b (skipn a l))%list = firstn (a + b) l.
Proof.
  revert l; induction a as [| a IH]; intros l; [ reflexivity | ].
  destruct l as [| x l]; cbn [firstn skipn Nat.add app].
  - now rewrite firstn_nil.
  - now rewrite IH.
Qed.

(** Adjacent slices join. *)
Lemma slice_app {A} (l : list A) (a b c : Z) :
  0 <= a <= b -> b <= c ->
  (Py.slice l a b ++ Py.slice l b c)%list = Py.slice l a c.
Proof.
  intros Hab Hbc. rewrite !slice_eq by lia.
  set (n := Py.llen l).
  replace (skipn (Z.to_nat (Z.min b n)) l)
    with (skipn (Z.to_nat (Z.min b n - Z.min a n))
                (skipn (Z.to_nat (Z.min a n)) l))
    by (rewrite skipn_skipn; f_equal; unfold n, Py.llen; lia).
  rewrite firstn_firstn_skipn. f_equal. unfold n, Py.llen. lia.
Qed.

Lemma skipn_slice {A} (l : list A) (x y a : Z) :
  0 <= x -> 0 <= a -> 0 <= y -> x + a <= Py.llen l ->
  skipn (Z.to_nat a) (Py.slice l x y) = Py.slice l (x + a) y.
Proof.
  intros Hx Ha Hy Hle. rewrite !slice_eq by lia.
  rewrite skipn_firstn_comm, skipn_skipn.
  unfold Py.llen in *. f_equal; [ lia | f_equal; lia ].
Qed.

Lemma slice_all {A} (l : list A) (b : Z) :
  Py.llen l <= b -> Py.slice l 0 b = l.
Proof.
  intros Hb. unfold Py.llen in Hb. rewrite slice_eq by lia. unfold Py.llen.
  cbn [skipn]. replace (Z.min 0 _) with 0 by lia. cbn [Z.to_nat skipn].
  apply firstn_all2. lia.
Qed.

(** The later windows without their first [overlap_tokens] words continue
    the first window up to the end of window [j]. *)
Lemma windows_rebuild {A} (words : list A) (max_tokens overlap_tokens : Z) (j : nat) :
  0 <= overlap_tokens < max_tokens ->
  (forall k : nat, (k < j)%nat ->
                   Z.of_nat k * (max_tokens - overlap_tokens) + max_tokens
                   < Py.llen words) ->
  (window words max_tokens overlap_tokens 0
   ++ List.concat (map (fun k => skipn (Z.to_nat overlap_tokens)
                                      (window words max_tokens overlap_tokens k))
                       (seq 1 j)))%list
  = Py.slice words 0 (Z.of_nat j * (max_tokens - overlap_tokens) + max_tokens).
Proof.
  intros Hov. induction j as [| j IH]; intros Hk.
  - cbn [seq map List.concat]. rewrite app_nil_r. reflexivity.
  - rewrite seq_S, map_app, concat_app, app_assoc, IH
      by (intros k Hk'; apply Hk; lia).
    cbn [map List.concat Nat.add]. rewrite app_nil_r.
    specialize (Hk j (Nat.lt_succ_diag_r j)).
    unfold window. rewrite skipn_slice by nia.
    replace (Z.of_nat (S j) * (max_tokens - overlap_tokens) + overlap_tokens)
      with (Z.of_nat j * (max_tokens - overlap_tokens) + max_tokens) by lia.
    apply slice_app; nia.
Qed.

(** X3.  For [0 <= overlap_tokens < max_tokens] no word is lost: the words
    of the document are the words of the first chunk followed by the words
    of every later chunk after its first [overlap_tokens] ones. *)
Theorem chunk_text_rebuilds_words (fuel : nat) (T : string)
        (max_tokens overlap_tokens : Z) (cs : list Chunk) :
  0 <= overlap_tokens < max_tokens ->
  chunk_text fuel T max_tokens overlap_tokens = Some cs ->
  rebuild_words overlap_tokens (map text cs) = Py.split T.
Proof.
  intros Hov H.
  destruct (chunk_words_windows fuel T max_tokens overlap_tokens cs Hov H)
    as [ [Hw ->] | (N & Hmap & Hn & Hk)]; [ now rewrite Hw | ].
  assert (E : rebuild_words overlap_tokens (map text cs)
              = match map (fun c => Py.split (text c)) cs with
                | [] => []
                | w :: rest =>
                    (w ++ List.concat (map (skipn (Z.to_nat overlap_tokens)) rest))%list
                end).
  { destruct cs as [| c cs']; [ reflexivity | ].
    cbn [map rebuild_words]. now rewrite !map_map. }
  rewrite E, Hmap. cbn [seq map]. rewrite map_map.
  rewrite (windows_rebuild (Py.split T) max_tokens overlap_tokens N Hov Hk).
  apply slice_all. lia.
Qed.

(** Seven words in windows of three words overlapping by one. *)
Lemma chunk_text_rebuilds_words_witness :
  rebuild_words 1 ["a b c"; "c d e"; "e f g"] = Py.split "a b c d e f g".
Proof.
  apply (chunk_text_rebuilds_words 4 "a b c d e f g" 3 1
           [ {| text := "a b c"; start_char := 0; end_char := 5 |};
             {| text := "c d e"; start_char := -1; end_char := 4 |};
             {| text := "e f g"; start_char := 8; end_char := 13 |} ]);
    [ lia | reflexivity ].
Defined.

(* --------------------------------------------------------------------- *)
(** ** The upload batches of [ingest_docs] *)
(* --------------------------------------------------------------------- *)

(** The batches are the windows of [batch_size] points without overlap. *)
Lemma upload_batches_windows {A} (all_points : list A) (size : Z) :
  upload_batches all_points size
  = map (window all_points size 0)
        (seq 0 (Z.to_nat ((Py.llen all_points + size - 1) / size))).
Proof.
  unfold upload_batches, Py.range_step. rewrite map_map.
  apply map_ext. intros k. unfold window. now rewrite Z.sub_0_r.
Qed.

(** X4.  For a positive batch size, the upload batches of [ingest_docs],
    concatenated in upload order, are exactly the points; every batch holds
    at least one and at most [batch_size] points, every batch but the last
    exactly [batch_size]; and there are
    [(len(all_points) + batch_size - 1) // batch_size] batches, the number
    the progress message prints. *)
Theorem upload_batches_partition {A} (all_points : list A) (size : Z) :
  0 < size ->
  List.concat (upload_batches all_points size) = all_points
  /\ Forall (fun batch => 1 <= Py.llen batch <= size)
            (upload_batches all_points size)
  /\ Forall (fun batch => Py.llen batch = size)
            (removelast (upload_batches all_points size))
  /\ Py.llen (upload_batches all_points size)
     = (Py.llen all_points + size - 1) / size.
Proof.
  intros Hsize. rewrite upload_batches_windows.
  set (n := Py.llen all_points).
  assert (Hn : 0 <= n) by (unfold n, Py.llen; lia).
  pose proof (Z.div_mod (n + size - 1) size ltac:(lia)) as Hdm.
  pose proof (Z.mod_pos_bound (n + size - 1) size Hsize) as Hmod.
  set (q := (n + size - 1) / size) in *.
  assert (Hq : 0 <= q) by (apply Z.div_pos; lia).
  assert (Hhi : n <= q * size) by nia.
  assert (Hlo : (q - 1) * size < n) by nia.
  assert (Hov : 0 <= 0 < size) by lia.
  assert (Hwl : forall k : nat,
             (k < Z.to_nat q)%nat ->
             1 <= Py.llen (window all_points size 0 k) <= size
             /\ ((S k < Z.to_nat q)%nat ->
                 Py.llen (window all_points size 0 k) = size)).
  { intros k Hk. rewrite window_length by exact Hov. fold n.
    rewrite Z.sub_0_r.
    assert (Z.of_nat k * size <= (q - 1) * size) by nia.
    split; [ lia | ]. intros Hk'.
    assert (Z.of_nat k * size + size <= (q - 1) * size) by nia. lia. }
  split; [ | split; [ | split ] ].
  - destruct (Z.to_nat q) as [| j] eqn:Hj.
    + cbn. destruct all_points; [ reflexivity | ].
      unfold n, Py.llen in *. cbn [List.length] in *. nia.
    + change (seq 0 (S j)) with (0%nat :: seq 1 j). cbn [map List.concat].
      pose proof (windows_rebuild all_points size 0 j Hov) as Hreb.
      cbn [Z.to_nat skipn] in Hreb.
      rewrite (map_ext (fun k => skipn 0 (window all_points size 0 k))
                       (window all_points size 0)) in Hreb by reflexivity.
      rewrite Hreb.
      * apply slice_all. fold n. rewrite Z.sub_0_r. nia.
      * intros k Hk. fold n. rewrite Z.sub_0_r. nia.
  - apply Forall_map, Forall_forall. intros k Hin. apply in_seq in Hin.
    apply Hwl. lia.
  - destruct (Z.to_nat q) as [| j] eqn:Hj; [ constructor | ].
    rewrite seq_S, map_app. cbn [map]. rewrite removelast_last.
    apply Forall_map, Forall_forall. intros k Hin. apply in_seq in Hin.
    apply Hwl; lia.
  - unfold Py.llen at 1. rewrite length_map, length_seq. lia.
Qed.

(** Two hundred and fifty points in batches of one hundred. *)
Lemma upload_batches_partition_witness :
  List.concat (upload_batches (seq 0 250) batch_size) = seq 0 250
  /\ Forall (fun batch => 1 <= Py.llen batch <= batch_size)
            (upload_batches (seq 0 250) batch_size)
  /\ Forall (fun batch => Py.llen batch = batch_size)
            (removelast (upload_batches (seq 0 250) batch_size))
  /\ Py.llen (upload_batches (seq 0 250) batch_size)
     = (Py.llen (seq 0 250) + batch_size - 1) / batch_size.
Proof.
  apply (upload_batches_partition (seq 0 250) batch_size). reflexivity.
Defined.

(* --------------------------------------------------------------------- *)
(** ** [parse_markdown] *)
(* --------------------------------------------------------------------- *)

Lemma str_drop_suffix (n : nat) (s : string) :
  exists pre, s = pre ++ Py.str_drop n s.
Proof.
  revert s; induction n as [| n IH]; intros s.
  - now exists EmptyString.
  - destruct s as [| c s]; [ now exists EmptyString | ].
    destruct (IH s) as [pre Hpre]. exists (String c pre).
    cbn [Py.str_drop append]. now rewrite <- Hpre.
Qed.

Lemma str_drop_app (a b : string) : Py.str_drop (String.length a) (a ++ b) = b.
Proof. induction a as [| c a IH]; [ now destruct b | exact IH ]. Qed.

Lemma str_all_app (P : ascii -> bool) (a b : string) :
  str_all P (a ++ b) = str_all P a && str_all P b.
Proof.
  induction a as [| c a IH]; cbn; [ trivial | now rewrite IH, andb_assoc ].
Qed.

Lemma str_all_drop (P : ascii -> bool) (n : nat) (s : string) :
  str_all P s = true -> str_all P (Py.str_drop n s) = true.
Proof.
  revert s; induction n as [| n IH]; intros s H; [ exact H | ].
  destruct s as [| c s]; [ reflexivity | ].
  cbn in H. apply andb_prop in H as [_ H]. now apply IH.
Qed.

(** No piece of [s.split(sep)] holds the separator. *)
Lemma split_on_aux_free (sep : ascii) (s cur : string) :
  str_all (fun c => negb (Ascii.eqb c sep)) cur = true ->
  Forall (fun piece => str_all (fun c => negb (Ascii.eqb c sep)) piece = true)
         (Py.split_on_aux sep cur s).
Proof.
  revert cur; induction s as [| c s IH]; intros cur Hcur; cbn [Py.split_on_aux].
  - now constructor.
  - destruct (Ascii.eqb c sep) eqn:E.
    + constructor; [ exact Hcur | now apply IH ].
    + apply IH. rewrite str_all_app, Hcur. cbn. now rewrite E.
Qed.

Lemma lines_free (s : string) :
  Forall (fun line => str_all (fun c => negb (Ascii.eqb c "010")) line = true)
         (Py.lines s).
Proof. now apply split_on_aux_free. Qed.

Lemma title_search_some (ls : list string) (t : string) :
  title_search ls = Some t ->
  t <> EmptyString /\ exists line, In line ls /\ line = "# " ++ t.
Proof.
  induction ls as [| line rest IH]; [ discriminate | ].
  cbn [title_search].
  destruct (prefix "# " line && negb (Py.is_empty (Py.str_drop 2 line))) eqn:E.
  - apply andb_prop in E as [Hp Hne].
    assert (Hl : line = "# " ++ Py.str_drop 2 line).
    { apply prefix_correct in Hp. cbn [String.length] in Hp.
      destruct line as [| c1 [| c2 line]]; try discriminate.
      cbn in Hp. injection Hp as -> ->. reflexivity. }
    remember (Py.str_drop 2 line) as d eqn:Hd. clear Hd.
    intros [= <-].
    split; [ destruct d; [ discriminate Hne | discriminate ] | ].
    exists line. split; [ now left | exact Hl ].
  - intros H. destruct (IH H) as (Hne & line' & Hin & Hl).
    split; [ exact Hne | ]. exists line'. split; [ now right | exact Hl ].
Qed.

(** X5.  [parse_markdown] returns a content that is a suffix of its input,
    the input itself when it does not start with the front-matter line; the
    title is never empty and holds no newline, and it is "Untitled" unless
    the returned content has the line "# " followed by the title. *)
Theorem parse_markdown_shape (content_in : string) :
  (exists removed, content_in = removed ++ content (parse_markdown content_in))
  /\ (prefix FRONTMATTER_OPEN content_in = false ->
      content (parse_markdown content_in) = content_in)
  /\ title (parse_markdown content_in) <> EmptyString
  /\ str_all (fun c => negb (Ascii.eqb c "010")) (title (parse_markdown content_in))
     = true
  /\ (title (parse_markdown content_in) = "Untitled"
      \/ In ("# " ++ title (parse_markdown content_in))
            (Py.lines (content (parse_markdown content_in)))).
Proof.
  unfold parse_markdown. cbn [content title].
  set (body := match frontmatter_match_end content_in with
               | Some e => Py.str_drop e content_in
               | None => content_in
               end).
  split; [ | split ].
  - unfold body. destruct (frontmatter_match_end content_in).
    + apply str_drop_suffix.
    + now exists EmptyString.
  - intros Hp. unfold body, frontmatter_match_end. now rewrite Hp.
  - destruct (title_search (Py.lines body)) as [t |] eqn:Ht.
    + destruct (title_search_some _ _ Ht) as (Hne & line & Hin & Hl).
      split; [ exact Hne | split ].
      * pose proof (lines_free body) as Hfree.
        rewrite Forall_forall in Hfree. specialize (Hfree line Hin).
        subst line. rewrite str_all_app in Hfree.
        now apply andb_prop in Hfree as [_ Hfree].
      * right. now subst line.
    + split; [ discriminate | split; [ reflexivity | now left ] ].
Qed.

(** A text with a title line and no front matter. *)
Lemma parse_markdown_shape_witness :
  content (parse_markdown ("# Intro" ++ Py.nl ++ "Robots.")) = "# Intro" ++ Py.nl ++ "Robots."
  /\ title (parse_markdown ("# Intro" ++ Py.nl ++ "Robots.")) = "Intro".
Proof.
  split.
  - apply (proj1 (proj2 (parse_markdown_shape ("# Intro" ++ Py.nl ++ "Robots.")))).
    reflexivity.
  - reflexivity.
Defined.

Lemma prefix_length (p s : string) :
  prefix p s = true -> (String.length p <= String.length s)%nat.
Proof.
  revert s; induction p as [| c p IH]; intros s H; cbn; [ lia | ].
  destruct s as [| d s]; [ discriminate | ].
  rewrite prefix_cons in H. destruct (Ascii.eqb c d); [ | discriminate ].
  apply IH in H. cbn. lia.
Qed.

(** Whether [p] is a prefix of [s ++ b] is decided by [s] alone when [p] is
    no longer than [s]. *)
Lemma prefix_app_short (p s b : string) :
  (String.length p <= String.length s)%nat -> prefix p (s ++ b) = prefix p s.
Proof.
  revert s; induction p as [| c p IH]; intros s Hlen.
  - now destruct s, b.
  - destruct s as [| d s]; cbn in Hlen; [ lia | ].
    cbn [append]. rewrite !prefix_cons.
    destruct (Ascii.eqb c d); [ apply IH; lia | reflexivity ].
Qed.

Lemma index_0_length (sub s : string) (i : nat) :
  index 0 sub s = Some i -> (i + String.length sub <= String.length s)%nat.
Proof.
  revert i; induction s as [| c s IH]; intros i H.
  - destruct sub; [ injection H as <-; cbn; lia | discriminate ].
  - rewrite index_0_cons in H.
    destruct (prefix sub (String c s)) eqn:Hp.
    + injection H as <-. apply prefix_length in Hp. lia.
    + destruct (index 0 sub s) as [j |]; [ | discriminate ].
      injection H as <-. specialize (IH j eq_refl). cbn. lia.
Qed.

(** The first occurrence of [sub] in [a] is its first occurrence in
    [a ++ b]. *)
Lemma index_0_app_stable (sub a b : string) (i : nat) :
  index 0 sub a = Some i -> index 0 sub (a ++ b) = Some i.
Proof.
  revert i; induction a as [| c a IH]; intros i H.
  - destruct sub; [ | discriminate ]. injection H as <-.
    now destruct b.
  - pose proof (index_0_length _ _ _ H) as Hlen.
    rewrite index_0_cons in H. cbn [append]. rewrite index_0_cons.
    change (String c (a ++ b)) with (String c a ++ b).
    rewrite prefix_app_short by lia.
    destruct (prefix sub (String c a)); [ exact H | ].
    destruct (index 0 sub a) as [j |]; [ | discriminate ].
    now rewrite (IH j eq_refl).
Qed.

(** X6.  Front matter is removed whole and the text after it is kept as it
    is: on the opening line, a front matter that holds no closing line
    before its end, the closing line and a body, [parse_markdown] returns
    the body as content. *)
Theorem parse_markdown_strips_frontmatter (front body : string) :
  index 0 FRONTMATTER_CLOSE (front ++ FRONTMATTER_CLOSE)
  = Some (String.length front) ->
  content (parse_markdown (FRONTMATTER_OPEN ++ front ++ FRONTMATTER_CLOSE ++ body))
  = body.
Proof.
  intros Hfirst. unfold parse_markdown. cbn [content].
  unfold frontmatter_match_end. rewrite prefix_app_self.
  pose proof (index_app_from FRONTMATTER_OPEN
                (front ++ FRONTMATTER_CLOSE ++ body) FRONTMATTER_CLOSE 0) as Hi.
  change (String.length FRONTMATTER_OPEN + 0)%nat with 4%nat in Hi.
  rewrite <- (app_assoc_str front) in Hi.
  rewrite (index_0_app_stable _ _ body _ Hfirst) in Hi. cbn [option_map] in Hi.
  rewrite app_assoc_str in Hi. rewrite Hi.
  replace (String.length FRONTMATTER_OPEN + String.length front + 5)%nat
    with (String.length (FRONTMATTER_OPEN ++ front ++ FRONTMATTER_CLOSE))
    by (rewrite !length_app; cbn; lia).
  replace (FRONTMATTER_OPEN ++ front ++ FRONTMATTER_CLOSE ++ body)
    with ((FRONTMATTER_OPEN ++ front ++ FRONTMATTER_CLOSE) ++ body)
    by (now rewrite !app_assoc_str).
  apply str_drop_app.
Qed.

(** A front matter of two lines. *)
Lemma parse_markdown_strips_frontmatter_witness :
  content (parse_markdown
             (FRONTMATTER_OPEN ++ ("title: Intro" ++ Py.nl ++ "sidebar: 1")
              ++ FRONTMATTER_CLOSE ++ ("# Intro" ++ Py.nl ++ "Robots.")))
  = "# Intro" ++ Py.nl ++ "Robots.".
Proof.
  apply (parse_markdown_strips_frontmatter
           ("title: Intro" ++ Py.nl ++ "sidebar: 1") ("# Intro" ++ Py.nl ++ "Robots.")).
  reflexivity.
Defined.

(* --------------------------------------------------------------------- *)
(** ** [extract_section_id] *)
(* --------------------------------------------------------------------- *)

Lemma lower_char_idempotent (c : ascii) :
  Py.lower_char (Py.lower_char c) = Py.lower_char c.
Proof. destruct c as [[] [] [] [] [] [] [] []]; reflexivity. Qed.

Lemma lower_lowered (s : string) : str_all lowered (Py.lower s) = true.
Proof.
  induction s as [| c s IH]; [ reflexivity | ].
  cbn [Py.lower str_all]. rewrite IH. unfold lowered.
  now rewrite lower_char_idempotent, Ascii.eqb_refl.
Qed.

Lemma str_all_impl (P Q : ascii -> bool) (s : string) :
  (forall c, P c = true -> Q c = true) ->
  str_all P s = true -> str_all Q s = true.
Proof.
  intros HPQ. induction s as [| c s IH]; [ trivial | ].
  cbn. intros H. apply andb_prop in H as [Hc Hs].
  now rewrite (HPQ c Hc), (IH Hs).
Qed.

(** What is left after the removal passes [P] and is outside the class. *)
Lemma remove_class_all (cls P : ascii -> bool) (s : string) :
  str_all P s = true ->
  str_all (fun c => P c && negb (cls c)) (Py.remove_class cls s) = true.
Proof.
  induction s as [| c s IH]; [ trivial | ].
  cbn [str_all Py.remove_class]. intros H. apply andb_prop in H as [Hc Hs].
  destruct (cls c) eqn:E; [ now apply IH | ].
  cbn [str_all]. now rewrite Hc, E, (IH Hs).
Qed.

(** After the collapse every character is the replacement or an old
    character outside the class. *)
Lemma collapse_class_all (cls P : ascii -> bool) (rep : ascii) (s : string)
      (in_run : bool) :
  str_all P s = true ->
  str_all (fun c => Ascii.eqb c rep || (P c && negb (cls c)))
          (Py.collapse_class cls rep in_run s) = true.
Proof.
  revert in_run; induction s as [| c s IH]; intros in_run H; [ trivial | ].
  cbn [str_all] in H. apply andb_prop in H as [Hc Hs].
  cbn [Py.collapse_class]. destruct (cls c) eqn:E.
  - destruct in_run; [ now apply IH | ].
    cbn [str_all]. rewrite Ascii.eqb_refl. cbn. now apply IH.
  - cbn [str_all]. rewrite Hc, E, (IH false Hs). cbn. now rewrite orb_true_r.
Qed.

(** Every character of a heading slug is a slug character. *)
Lemma heading_slug_chars (heading : string) :
  str_all slug_char (heading_slug_of heading) = true.
Proof.
  unfold heading_slug_of.
  apply str_all_impl
    with (P := fun c => Ascii.eqb c "-"
                        || (lowered c && negb (not_word_space_hyphen c))
                           && negb (space_or_underscore c)).
  - intros c. unfold slug_char, not_word_space_hyphen, space_or_underscore.
    destruct (Ascii.eqb c "-"); [ reflexivity | ].
    destruct (Py.re_word c), (Py.is_space c), (Ascii.eqb c "_"), (lowered c);
      cbn; congruence.
  - apply (collapse_class_all space_or_underscore
             (fun c => lowered c && negb (not_word_space_hyphen c))).
    apply remove_class_all, lower_lowered.
Qed.

(** A heading slug holds no white space, no underscore and no hash. *)
Lemma extract_section_id_free (heading : string) :
  str_all (fun c => negb (Py.is_space c) && negb (Ascii.eqb c "_")) 
          (heading_slug_of heading) = true
  /\ str_all (fun c => negb (Ascii.eqb c "#")) (heading_slug_of heading) = true.
Proof.
  split; apply str_all_impl with (P := slug_char); try apply heading_slug_chars;
    intros c; unfold slug_char.
  - destruct (Ascii.eqb_spec c "-") as [-> | _]; [ reflexivity | ].
    cbn [orb]. destruct (Py.is_space c), (Ascii.eqb c "_"), (Py.re_word c);
      cbn; congruence.
  - destruct (Ascii.eqb_spec c "-") as [-> | _]; [ reflexivity | ].
    destruct (Ascii.eqb_spec c "#") as [-> | _]; [ discriminate | reflexivity ].
Qed.

Lemma heading_search_some (ls : list string) (h : string) :
  heading_search ls = Some h ->
  exists line, In line ls /\ heading_of_line line = Some h.
Proof.
  induction ls as [| line rest IH]; [ discriminate | ].
  cbn [heading_search]. destruct (heading_of_line line) as [h' |] eqn:E.
  - intros [= <-]. exists line. split; [ now left | exact E ].
  - intros H. destruct (IH H) as (l & Hin & Hl).
    exists l. split; [ now right | exact Hl ].
Qed.

(** X7.  [extract_section_id] returns the chapter slug itself when no line
    of the text is a heading of level two or deeper, and otherwise the
    chapter slug, a hash, and a heading slug made only of hyphens and
    lower-case word characters: it holds no white space, no underscore and
    no hash. *)
Theorem extract_section_id_shape (text_in chapter_slug : string) :
  (heading_search (Py.lines text_in) = None ->
   extract_section_id text_in chapter_slug = chapter_slug)
  /\ (forall heading,
         heading_search (Py.lines text_in) = Some heading ->
         extract_section_id text_in chapter_slug
         = chapter_slug ++ "#" ++ heading_slug_of heading)
  /\ (exists slug,
         extract_section_id text_in chapter_slug = chapter_slug ++ slug
         /\ (slug = EmptyString
             \/ exists heading_slug,
                 slug = "#" ++ heading_slug
                 /\ str_all slug_char heading_slug = true
                 /\ str_all (fun c => negb (Py.is_space c)
                                      && negb (Ascii.eqb c "_")
                                      && negb (Ascii.eqb c "#"))
                            heading_slug = true)).
Proof.
  unfold extract_section_id.
  destruct (heading_search (Py.lines text_in)) as [h |].
  - split; [ discriminate | split; [ now intros ? [= <-] | ] ].
    exists ("#" ++ heading_slug_of h). split; [ reflexivity | right ].
    exists (heading_slug_of h). split; [ reflexivity | ].
    split; [ apply heading_slug_chars | ].
    apply str_all_impl with (P := slug_char); [ | apply heading_slug_chars ].
    intros c. unfold slug_char.
    destruct (Ascii.eqb_spec c "-") as [-> | _]; [ reflexivity | ].
    destruct (Ascii.eqb_spec c "#") as [-> | _]; [ discriminate | ].
    cbn [orb]. destruct (Py.is_space c), (Ascii.eqb c "_"), (Py.re_word c);
      cbn; congruence.
  - split; [ reflexivity | split; [ discriminate | ] ].
    exists EmptyString. split; [ now rewrite app_empty_r | now left ].
Qed.

(** A chunk with a heading line in the middle. *)
Lemma extract_section_id_shape_witness :
  extract_section_id ("intro text" ++ Py.nl ++ "## Nodes & Topics_2" ++ Py.nl ++ "more")
                     "ros2-fundamentals"
  = "ros2-fundamentals" ++ "#" ++ heading_slug_of "Nodes & Topics_2"
  /\ heading_slug_of "Nodes & Topics_2" = "nodes-topics-2".
Proof.
  split; [ | reflexivity ].
  apply (proj1 (proj2 (extract_section_id_shape
                         ("intro text" ++ Py.nl ++ "## Nodes & Topics_2" ++ Py.nl ++ "more")
                         "ros2-fundamentals"))).
  reflexivity.
Defined.

(** A text without newline is its own single line. *)
Lemma split_on_aux_no_sep (sep : ascii) (s cur : string) :
  str_all (fun c => negb (Ascii.eqb c sep)) s = true ->
  Py.split_on_aux sep cur s = [cur ++ s].
Proof.
  revert cur; induction s as [| c s IH]; intros cur H; cbn [Py.split_on_aux].
  - now rewrite app_empty_r.
  - cbn in H. apply andb_prop in H as [Hc Hs].
    apply negb_true_iff in Hc. rewrite Hc, (IH _ Hs).
    now rewrite app_assoc_str.
Qed.

Lemma join_str_all (P : ascii -> bool) (sep : string) (ws : list string) :
  str_all P sep = true -> Forall (fun w => str_all P w = true) ws ->
  str_all P (Py.join sep ws) = true.
Proof.
  intros Hsep. induction 1 as [| w rest Hw _ IH]; [ reflexivity | ].
  destruct rest as [| y rest]; [ exact Hw | ].
  rewrite join_cons, !str_all_app, Hw, Hsep. exact IH.
Qed.

Lemma no_space_no_newline (w : string) :
  no_space w = true -> str_all (fun c => negb (Ascii.eqb c "010")) w = true.
Proof.
  induction w as [| c w IH]; [ trivial | ].
  cbn. intros H. apply andb_prop in H as [Hc Hw]. rewrite (IH Hw).
  destruct (Ascii.eqb_spec c "010") as [-> | _]; [ discriminate Hc | reflexivity ].
Qed.

Lemma count_hashes_two (line : string) :
  (2 <= count_hashes line)%nat -> prefix "##" line = true.
Proof.
  destruct line as [| c1 [| c2 line]]; cbn [count_hashes].
  - lia.
  - destruct (Ascii.eqb c1 "#"); cbn; lia.
  - destruct (Ascii.eqb_spec c1 "#") as [-> | _]; [ | lia ].
    destruct (Ascii.eqb_spec c2 "#") as [-> | _]; [ | cbn; lia ].
    intros _. rewrite !prefix_cons. cbn. now destruct line.
Qed.

(** A line that starts with hashes is its hashes and what follows them. *)
Lemma count_hashes_split (line : string) :
  line = repeat_char "#" (count_hashes line)
         ++ Py.str_drop (count_hashes line) line.
Proof.
  induction line as [| c line IH]; [ reflexivity | ].
  cbn [count_hashes]. destruct (Ascii.eqb_spec c "#") as [-> | _];
    [ | reflexivity ].
  cbn [repeat_char Py.str_drop append]. now rewrite <- IH.
Qed.

Lemma count_hashes_repeat (n : nat) (rest : string) :
  count_hashes (repeat_char "#" n ++ " " ++ rest) = n.
Proof.
  induction n as [| n IH]; [ reflexivity | ].
  cbn [repeat_char append count_hashes]. rewrite Ascii.eqb_refl.
  f_equal. exact IH.
Qed.

Lemma str_drop_repeat (c : ascii) (n : nat) (rest : string) :
  Py.str_drop n (repeat_char c n ++ rest) = rest.
Proof. induction n as [| n IH]; [ now destruct rest | exact IH ]. Qed.

Lemma str_drop_S (n : nat) (s : string) :
  Py.str_drop (S n) s = Py.str_drop 1 (Py.str_drop n s).
Proof.
  revert s; induction n as [| n IH]; intros s; [ reflexivity | ].
  destruct s as [| c s]; [ reflexivity | ].
  change (Py.str_drop (S (S n)) (String c s)) with (Py.str_drop (S n) s).
  change (Py.str_drop (S n) (String c s)) with (Py.str_drop n s).
  apply IH.
Qed.

(** The one line of a heading: its hashes, a space and the heading. *)
Lemma heading_of_line_some (line heading : string) :
  heading_of_line line = Some heading
  <-> exists n, (2 <= n)%nat /\ heading <> EmptyString
                /\ line = repeat_char "#" n ++ " " ++ heading.
Proof.
  unfold heading_of_line. split.
  - set (k := count_hashes line). set (h := Py.str_drop (S k) line).
    destruct ((2 <=? k)%nat && prefix " " (Py.str_drop k line)
              && negb (Py.is_empty h)) eqn:E; [ | discriminate ].
    intros [= <-].
    apply andb_prop in E as [E Hne]. apply andb_prop in E as [Hk Hsp].
    apply Nat.leb_le in Hk. exists k.
    split; [ exact Hk | split ].
    + intros Hr. rewrite Hr in Hne. discriminate Hne.
    + unfold h. rewrite str_drop_S.
      pose proof (count_hashes_split line) as Hsplit. fold k in Hsplit.
      destruct (Py.str_drop k line) as [| c r];
        [ discriminate Hsp | ].
      rewrite prefix_cons in Hsp.
      destruct (Ascii.eqb_spec " " c) as [<- | _]; [ | discriminate Hsp ].
      exact Hsplit.
  - intros (n & Hn & Hne & ->).
    rewrite count_hashes_repeat, str_drop_S, str_drop_repeat.
    cbn [append Py.str_drop].
    apply Nat.leb_le in Hn. rewrite Hn, prefix_cons. cbn.
    destruct heading; [ congruence | reflexivity ].
Qed.

(** X8.  A chunk text never holds a newline, so [extract_section_id] sees
    it as one line, and a heading is found only at the very start of a
    chunk: when the chunk text is two or more hashes, a space and a rest
    that is not empty, the section id is the chapter slug, a hash and the
    heading slug of that whole rest, which is all the remaining words of
    the chunk and not only the heading line of the document; for every
    other chunk text the section id is the chapter slug alone. *)
Theorem chunk_section_id_only_at_start (fuel : nat) (T : string)
        (max_tokens overlap_tokens : Z) (cs : list Chunk) (chapter_slug : string) :
  chunk_text fuel T max_tokens overlap_tokens = Some cs ->
  Forall (fun c =>
            str_all (fun ch => negb (Ascii.eqb ch "010")) (text c) = true
            /\ (forall n rest,
                   (2 <= n)%nat -> rest <> EmptyString ->
                   text c = repeat_char "#" n ++ " " ++ rest ->
                   extract_section_id (text c) chapter_slug
                   = chapter_slug ++ "#" ++ heading_slug_of rest)
            /\ ((forall n rest,
                    (2 <= n)%nat -> rest <> EmptyString ->
                    text c <> repeat_char "#" n ++ " " ++ rest) ->
                extract_section_id (text c) chapter_slug = chapter_slug))
         cs.
Proof.
  intros H. apply chunk_text_joined_windows in H.
  apply Forall_impl with (2 := H). intros c (i & j & Hw & Htext & _).
  assert (Hnl : str_all (fun ch => negb (Ascii.eqb ch "010")) (text c) = true).
  { rewrite Htext. apply join_str_all; [ reflexivity | ].
    apply Forall_impl with (2 := Hw). intros w Hword.
    unfold is_word in Hword. apply andb_prop in Hword as [_ Hns].
    now apply no_space_no_newline. }
  assert (Hlines : Py.lines (text c) = [text c]).
  { unfold Py.lines, Py.split_on. now rewrite split_on_aux_no_sep. }
  split; [ exact Hnl | ].
  unfold extract_section_id. rewrite Hlines. cbn [heading_search].
  split.
  - intros n rest Hn Hne Hc.
    assert (Hh : heading_of_line (text c) = Some rest)
      by (apply heading_of_line_some; now exists n).
    now rewrite Hh.
  - intros Hno. destruct (heading_of_line (text c)) as [h |] eqn:Hh;
      [ | reflexivity ].
    apply heading_of_line_some in Hh as (n & Hn & Hne & Hc).
    now elim (Hno n h).
Qed.

(** A document whose heading is followed by prose, cut into one chunk:
    the section id is made from the heading and the prose. *)
Lemma chunk_section_id_only_at_start_witness :
  let T := "## Nodes" ++ Py.nl ++ "A node is a process." in
  chunk_text 1 T default_max_tokens default_overlap_tokens
  = Some [ {| text := "## Nodes A node is a process.";
              start_char := 0; end_char := 29 |} ]
  /\ extract_section_id "## Nodes A node is a process." "ros2"
     = "ros2#nodes-a-node-is-a-process".
Proof.
  intros T. split; [ reflexivity | ].
  exact (proj1 (proj2 (Forall_inv
           (chunk_section_id_only_at_start 1 T default_max_tokens
              default_overlap_tokens _ "ros2" eq_refl)))
           2%nat "Nodes A node is a process." (Nat.le_refl 2)
           ltac:(discriminate) eq_refl).
Defined.

(* --------------------------------------------------------------------- *)
(** ** Offsets of every chunk in a single-spaced text *)
(* --------------------------------------------------------------------- *)

Lemma substring_app_mid (a b c : string) :
  substring (String.length a) (String.length b) (a ++ b ++ c) = b.
Proof.
  induction a as [| x a IH]; cbn [String.length append].
  - induction b as [| y b IH]; cbn [String.length append].
    + now destruct c.
    + cbn [substring]. now rewrite IH.
  - cbn [substring]. exact IH.
Qed.

(** A window of the words, joined, sits in the join of all words between
    what comes before it and what comes after it. *)
Lemma join_window_split (ws : list string) (i j : nat) :
  (i < j <= List.length ws)%nat ->
  exists pre post,
    Py.join " " ws
    = pre ++ Py.join " " (firstn (j - i) (skipn i ws)) ++ post
    /\ pre = match i with
             | O => EmptyString
             | S _ => Py.join " " (firstn i ws) ++ " "
             end.
Proof.
  intros Hij.
  assert (Hwin : forall l k, (0 < k <= List.length l)%nat ->
            exists post, Py.join " " l = Py.join " " (firstn k l) ++ post).
  { intros l k Hk. destruct (Nat.eq_dec k (List.length l)) as [-> | Hne].
    - exists EmptyString. now rewrite firstn_all, app_empty_r.
    - eexists. apply join_split_at. lia. }
  destruct i as [| i].
  - exists EmptyString. cbn [skipn]. rewrite Nat.sub_0_r.
    destruct (Hwin ws j) as [post Hpost]; [ lia | ].
    exists post. split; [ exact Hpost | reflexivity ].
  - destruct (Hwin (skipn (S i) ws) (j - S i)%nat) as [post Hpost];
      [ rewrite length_skipn; lia | ].
    exists (Py.join " " (firstn (S i) ws) ++ " "), post.
    split; [ | reflexivity ].
    rewrite (join_split_at " " ws (S i)) by lia.
    rewrite Hpost. now rewrite !app_assoc_str.
Qed.

Section SingleSpacedChunks.
Variables lead T : string.
Variable ws : list string.
Hypothesis Hlead : all_space lead = true.
Hypothesis Hwords : Forall (fun w => is_word w = true) ws.
Hypothesis HT : T = lead ++ Py.join " " ws.
Variables max_tokens overlap_tokens : Z.
Hypothesis Hmax : 0 < max_tokens.
Hypothesis Hov : overlap_tokens = 0 \/ Py.llen ws <= max_tokens.

(** The text of a window is the slice of [T] that starts where its first
    word starts. *)
Lemma window_is_slice (i j : nat) :
  (i < j <= List.length ws)%nat ->
  let w := Py.join " " (firstn (j - i) (skipn i ws)) in
  substring (Z.to_nat (offset_of lead ws i)) (String.length w) T = w
  /\ 0 <= offset_of lead ws i
  /\ offset_of lead ws i + Py.len w <= Py.len T.
Proof.
  intros Hij w.
  destruct (join_window_split ws i j Hij) as (pre & post & Hjoin & Hpre).
  fold w in Hjoin.
  assert (Hoff : offset_of lead ws i = Py.len (lead ++ pre)).
  { rewrite len_app, Hpre. destruct i as [| i]; cbn [offset_of].
    - change (Py.len EmptyString) with 0. lia.
    - rewrite len_app. change (Py.len " ") with 1. lia. }
  assert (HT' : T = (lead ++ pre) ++ w ++ post)
    by (now rewrite HT, Hjoin, !app_assoc_str).
  split; [ | split ].
  - rewrite Hoff. unfold Py.len. rewrite Nat2Z.id.
    rewrite HT'. apply substring_app_mid.
  - rewrite Hoff. apply len_nonneg.
  - rewrite Hoff, HT', !len_app. pose proof (len_nonneg post). lia.
Qed.

(** One pass of the loop from a window start reached with the search
    offset just after the word before it. *)
Lemma single_spaced_pass (i : nat) (st : LoopState) :
  start_idx st = Z.of_nat i -> (i < List.length ws)%nat ->
  char_pos st = offset_after lead ws i ->
  let j := Z.to_nat (Z.min (start_idx st + max_tokens) (Py.llen ws)) in
  exists c,
    chunks (fst (loop_body T ws max_tokens overlap_tokens st))
    = (chunks st ++ [c])%list
    /\ (i < j <= List.length ws)%nat
    /\ text c = Py.join " " (firstn (j - i) (skipn i ws))
    /\ start_char c = offset_of lead ws i
    /\ end_char c = start_char c + Py.len (text c)
    /\ char_pos (fst (loop_body T ws max_tokens overlap_tokens st))
       = offset_after lead ws j.
Proof.
  intros Hi Hlt Hpos j.
  destruct (loop_body_chunks T ws max_tokens overlap_tokens st)
    as (c & Hc & Htext & Hend & Hcp & Hstart).
  assert (Hj : Z.min (start_idx st + max_tokens) (Py.llen ws) = Z.of_nat j)
    by (unfold j, Py.llen; lia).
  assert (Hij : (i < j <= List.length ws)%nat) by (unfold j, Py.llen in *; lia).
  assert (Hslice : Py.slice ws (start_idx st)
                            (Z.min (start_idx st + max_tokens) (Py.llen ws))
                   = firstn (j - i) (skipn i ws)).
  { rewrite slice_eq by lia. rewrite Hj, Hi. unfold Py.llen.
    f_equal; [ lia | f_equal; lia ]. }
  rewrite Hslice in Hstart, Htext.
  destruct (skipn i ws) as [| w rest] eqn:Hskip.
  { apply (f_equal (@List.length string)) in Hskip.
    rewrite length_skipn in Hskip. cbn in Hskip. lia. }
  assert (Hs : start_char c = offset_of lead ws i).
  { destruct (j - i)%nat as [| k] eqn:Hk; [ lia | ].
    cbn [firstn] in Hstart. rewrite Hstart, Hpos.
    now apply (find_word_at lead T ws Hlead Hwords HT) with rest. }
  exists c. repeat split; try assumption; try lia.
  rewrite Hcp, Hend, Hs, Htext.
  replace j with (i + (j - i))%nat at 2 by lia.
  rewrite (offset_after_window lead ws i (j - i)) by lia.
  now rewrite Hskip.
Qed.

Lemma chunk_loop_slices (fuel : nat) (cs : list Chunk) :
  chunk_loop T ws max_tokens overlap_tokens fuel
    {| start_idx := 0; char_pos := 0; chunks := [] |} = Some cs ->
  Forall (chunk_is_slice T) cs.
Proof.
  apply (chunk_loop_rule T ws max_tokens overlap_tokens
           (fun st => Forall (chunk_is_slice T) (chunks st)
                      /\ exists i, start_idx st = Z.of_nat i
                                   /\ char_pos st = offset_after lead ws i)
           (Forall (chunk_is_slice T))).
  - now intros st [H _] _.
  - intros st [Hcs (i & Hi & Hpos)] Hlt _.
    destruct (single_spaced_pass i st Hi) as (c & Hc & Hij & Htext & Hs & He & _);
      [ unfold Py.llen in Hlt; lia | exact Hpos | ].
    rewrite Hc. apply Forall_app. split; [ exact Hcs | constructor; [ | constructor ] ].
    destruct (window_is_slice i _ Hij) as (Hsub & H0 & Hle).
    rewrite <- Htext in Hsub, Hle.
    pose proof (len_nonneg (text c)).
    unfold chunk_is_slice. rewrite He, Hs. repeat split; try lia.
    replace (offset_of lead ws i + Py.len (text c) - offset_of lead ws i)
      with (Py.len (text c)) by lia.
    unfold Py.len. rewrite Nat2Z.id. exact Hsub.
  - intros st [Hcs (i & Hi & Hpos)] Hlt Hb.
    destruct (single_spaced_pass i st Hi) as (c & Hc & Hij & Htext & Hs & He & Hcp);
      [ unfold Py.llen in Hlt; lia | exact Hpos | ].
    split.
    + rewrite Hc. apply Forall_app. split; [ exact Hcs | constructor; [ | constructor ] ].
      destruct (window_is_slice i _ Hij) as (Hsub & H0 & Hle).
      rewrite <- Htext in Hsub, Hle.
      pose proof (len_nonneg (text c)).
      unfold chunk_is_slice. rewrite He, Hs. repeat split; try lia.
      replace (offset_of lead ws i + Py.len (text c) - offset_of lead ws i)
        with (Py.len (text c)) by lia.
      unfold Py.len. rewrite Nat2Z.id. exact Hsub.
    + eexists. split; [ | exact Hcp ].
      rewrite (loop_body_advance _ _ _ _ st Hb).
      assert (Hnb : Z.min (start_idx st + max_tokens) (Py.llen ws) < Py.llen ws).
      { revert Hb. cbn. intros Hb. now apply Z.leb_gt in Hb. }
      assert (Hz : overlap_tokens = 0).
      { destruct Hov as [ | Hle ]; trivial. unfold Py.llen in *. lia. }
      unfold Py.llen in *. lia.
  - split; [ constructor | ]. exists 0%nat. now split.
Qed.

End SingleSpacedChunks.

(** X21. Without overlap the offsets are exact on a single-spaced text:
    when the words of the text are separated by single spaces and nothing
    follows the last word, [max_tokens > 0], and either
    [overlap_tokens = 0] or all the words fit into one chunk, every chunk
    that [chunk_text] returns has [0 <= start_char <= end_char <= len(text)]
    and its text is exactly [text[start_char:end_char]]. *)
Theorem chunk_text_offsets_exact (fuel : nat) (T : string)
      (max_tokens overlap_tokens : Z) (cs : list Chunk) :
  single_spaced T ->
  0 < max_tokens ->
  overlap_tokens = 0 \/ Py.llen (Py.split T) <= max_tokens ->
  chunk_text fuel T max_tokens overlap_tokens = Some cs ->
  Forall (chunk_is_slice T) cs.
Proof.
  intros (lead & Hlead & HT) Hmax Hov Hrun.
  exact (chunk_loop_slices lead T (Py.split T) Hlead (split_words T) HT
           max_tokens overlap_tokens Hmax Hov fuel cs Hrun).
Qed.

(** Five words in windows of two, without overlap. *)
Lemma chunk_text_offsets_exact_witness :
  let T := "  one two three four five" in
  Forall (chunk_is_slice T)
    [ {| text := "one two"; start_char := 2; end_char := 9 |};
      {| text := "three four"; start_char := 10; end_char := 20 |};
      {| text := "five"; start_char := 21; end_char := 25 |} ].
Proof.
  intros T.
  apply (chunk_text_offsets_exact 3 T 2 0).
  - exists "  ". split; reflexivity.
  - lia.
  - now left.
  - reflexivity.
Defined.

(* --------------------------------------------------------------------- *)
(** ** The layout of a text and the offsets of its words *)
(* --------------------------------------------------------------------- *)

Lemma render_layout (s : string) :
  s = fst (layout s) ++ render_items (snd (layout s)).
Proof.
  induction s as [| c r IH]; [ reflexivity | ].
  cbn [layout]. destruct (layout r) as [lead items]. cbn [fst snd] in IH.
  destruct (Py.is_space c).
  - cbn [fst snd append]. now rewrite <- IH.
  - destruct lead as [| d lead].
    + destruct items as [| [w gap] rest]; cbn [fst snd render_items append] in *;
        now rewrite IH.
    + cbn [fst snd render_items append] in *. now rewrite IH.
Qed.

Lemma layout_lead_space (s : string) : all_space (fst (layout s)) = true.
Proof.
  induction s as [| c r IH]; [ reflexivity | ].
  cbn [layout]. destruct (layout r) as [lead items]. cbn [fst] in IH.
  destruct (Py.is_space c) eqn:Hc.
  - cbn. now rewrite Hc.
  - destruct lead as [| d lead]; [ destruct items as [| [w gap] rest] | ];
      reflexivity.
Qed.

Lemma layout_wf (s : string) : wf_items (snd (layout s)).
Proof.
  induction s as [| c r IH]; [ exact I | ].
  cbn [layout]. pose proof (layout_lead_space r) as Hlead.
  destruct (layout r) as [lead items]. cbn [fst snd] in IH, Hlead.
  destruct (Py.is_space c) eqn:Hc; [ exact IH | ].
  assert (Hw : forall w, no_space w = true -> is_word (String c w) = true).
  { intros w Hns. unfold is_word. cbn. now rewrite Hc, Hns. }
  destruct lead as [| d lead].
  - destruct items as [| [w gap] rest]; cbn [snd wf_items] in *.
    + repeat split; try easy. now apply Hw.
    + destruct IH as (Hword & Hgap & Hne & Hrest). repeat split; trivial.
      apply Hw. unfold is_word in Hword. now apply andb_prop in Hword.
  - cbn [snd wf_items]. repeat split; try easy. now apply Hw.
Qed.

Lemma split_aux_spaces (gap cur r : string) :
  all_space gap = true -> gap <> EmptyString -> Py.is_empty cur = false ->
  Py.split_aux cur (gap ++ r) = cur :: Py.split_aux EmptyString r.
Proof.
  intros Hgap Hne Hcur. destruct gap as [| c gap]; [ congruence | clear Hne ].
  cbn in Hgap. apply andb_prop in Hgap as [Hc Hgap].
  cbn [append Py.split_aux]. rewrite Hc, Hcur. f_equal.
  clear c Hc. induction gap as [| c gap IH]; [ reflexivity | ].
  cbn in Hgap. apply andb_prop in Hgap as [Hc Hgap].
  cbn [append Py.split_aux]. rewrite Hc. cbn [Py.is_empty]. now apply IH.
Qed.

Lemma split_aux_lead (lead r : string) :
  all_space lead = true ->
  Py.split_aux EmptyString (lead ++ r) = Py.split_aux EmptyString r.
Proof.
  induction lead as [| c lead IH]; [ reflexivity | ].
  cbn. intros H. apply andb_prop in H as [Hc Hlead]. rewrite Hc. now apply IH.
Qed.

Lemma split_aux_tail (gap cur : string) :
  all_space gap = true -> Py.is_empty cur = false ->
  Py.split_aux cur gap = [cur].
Proof.
  intros Hgap Hcur. destruct gap as [| c gap]; [ cbn; now rewrite Hcur | ].
  rewrite <- (app_empty_r (String c gap)).
  rewrite split_aux_spaces; trivial; discriminate.
Qed.

Lemma split_render_items (items : list (string * string)) :
  wf_items items ->
  Py.split_aux EmptyString (render_items items) = map fst items.
Proof.
  induction items as [| [w gap] rest IH]; [ reflexivity | ].
  cbn [wf_items render_items map fst].
  intros (Hword & Hgap & Hne & Hrest).
  unfold is_word in Hword. apply andb_prop in Hword as [Hw Hns].
  apply negb_true_iff in Hw.
  rewrite split_aux_word by exact Hns. cbn [append].
  destruct rest as [| item rest].
  - cbn [render_items map]. rewrite app_empty_r. now apply split_aux_tail.
  - rewrite split_aux_spaces; trivial; [ | apply Hne; discriminate ].
    f_equal. now apply IH.
Qed.

(** The words of [split] are the words of the layout. *)
Lemma split_layout (T : string) : Py.split T = map fst (snd (layout T)).
Proof.
  unfold Py.split. rewrite (render_layout T) at 1.
  rewrite split_aux_lead by apply layout_lead_space.
  apply split_render_items, layout_wf.
Qed.

Lemma render_items_app (a b : list (string * string)) :
  render_items (a ++ b) = render_items a ++ render_items b.
Proof.
  induction a as [| [w gap] a IH]; [ reflexivity | ].
  cbn [app render_items]. now rewrite IH, !app_assoc_str.
Qed.

Lemma render_core (items : list (string * string)) :
  render_items items = core items ++ last (map snd items) EmptyString.
Proof.
  induction items as [| [w gap] rest IH]; [ reflexivity | ].
  destruct rest as [| item rest].
  - cbn. now rewrite app_empty_r.
  - destruct item as [w' gap'].
    change (render_items ((w, gap) :: (w', gap') :: rest))
      with (w ++ gap ++ render_items ((w', gap') :: rest)).
    change (core ((w, gap) :: (w', gap') :: rest))
      with (w ++ gap ++ core ((w', gap') :: rest)).
    rewrite IH, !app_assoc_str. reflexivity.
Qed.

Lemma wf_items_skipn (k : nat) (items : list (string * string)) :
  wf_items items -> wf_items (skipn k items).
Proof.
  revert items; induction k as [| k IH]; intros items H; [ exact H | ].
  destruct items as [| [w gap] rest]; [ exact I | ].
  cbn [skipn]. apply IH. now destruct H as (_ & _ & _ & H).
Qed.


Lemma wf_items_firstn (k : nat) (items : list (string * string)) :
  wf_items items -> wf_items (firstn k items).
Proof.
  revert items; induction k as [| k IH]; intros items H; [ exact I | ].
  destruct items as [| [w gap] rest]; [ exact I | ].
  destruct H as (Hw & Hg & Hne & Hrest).
  cbn [firstn wf_items]. repeat split; trivial; [ | now apply IH ].
  intros H. apply Hne. intros ->. now destruct k.
Qed.

(** The words of a window joined by single spaces are no longer than the
    window is in the text, and as long exactly when its words are separated
    by single characters. *)
Lemma join_core (items : list (string * string)) :
  wf_items items ->
  Py.len (Py.join " " (map fst items)) <= Py.len (core items)
  /\ (Py.len (Py.join " " (map fst items)) = Py.len (core items)
      <-> Forall (fun gap => String.length gap = 1%nat)
                 (removelast (map snd items))).
Proof.
  induction items as [| [w gap] rest IH]; [ cbn; intuition (auto; lia) | ].
  intros (Hw & Hg & Hne & Hrest). specialize (IH Hrest).
  destruct rest as [| item rest].
  - cbn. split; [ lia | ]. split; [ constructor | reflexivity ].
  - assert (Hlen : 1 <= Py.len gap).
    { destruct gap; [ now elim Hne | unfold Py.len; cbn; lia ]. }
    change (map fst ((w, gap) :: item :: rest))
      with (w :: fst item :: map fst rest).
    change (core ((w, gap) :: item :: rest))
      with (w ++ gap ++ core (item :: rest)).
    change (removelast (map snd ((w, gap) :: item :: rest)))
      with (gap :: removelast (map snd (item :: rest))).
    rewrite join_cons, !len_app. change (Py.len " ") with 1.
    change (fst item :: map fst rest) with (map fst (item :: rest)).
    destruct IH as [IH1 IH2].
    split; [ lia | ]. split.
    + intros H. constructor; [ unfold Py.len in *; lia | apply IH2; lia ].
    + intros H. inversion H as [| g l Hg1 Hl]; subst.
      apply IH2 in Hl. unfold Py.len in *. lia.
Qed.

Lemma index_ge (n m : nat) (sub s : string) :
  index n sub s = Some m -> (n <= m)%nat.
Proof.
  revert n m; induction s as [| c s IH]; intros n m.
  - destruct n; cbn; [ | discriminate ].
    destruct sub; [ intros [= <-]; lia | discriminate ].
  - destruct n as [| n]; [ lia | ].
    cbn [index]. destruct (index n sub s) as [k |] eqn:E; [ | discriminate ].
    intros [= <-]. apply IH in E. lia.
Qed.

(** [find] from an offset before an occurrence of a word finds an
    occurrence between the two. *)
Lemma find_bound (pre w post : string) (p : Z) :
  w <> EmptyString -> 0 <= p <= Py.len pre ->
  p <= Py.find (pre ++ w ++ post) w p <= Py.len pre.
Proof.
  intros Hw Hp. unfold Py.find.
  destruct (Z.ltb_spec p 0) as [ | _ ]; [ lia | ].
  pose proof (substring_app_mid pre w post) as Hocc.
  destruct (index (Z.to_nat p) w (pre ++ w ++ post)) as [m |] eqn:E.
  - pose proof (index_ge _ _ _ _ E) as Hge.
    split; [ lia | ].
    destruct (Nat.le_gt_cases m (String.length pre)) as [Hle | Hgt];
      [ unfold Py.len; lia | ].
    exfalso.
    apply (index_correct2 _ _ _ _ E (String.length pre));
      [ unfold Py.len in Hp; lia | exact Hgt | exact Hocc ].
  - exfalso.
    apply (index_correct3 _ (String.length pre) _ _ E Hw);
      [ unfold Py.len in Hp; lia | exact Hocc ].
Qed.

(** A string cut at a position inside it. *)
Lemma str_cut (q : nat) (s : string) :
  (q <= String.length s)%nat ->
  exists a b, s = a ++ b /\ String.length a = q.
Proof.
  revert s; induction q as [| q IH]; intros s Hq.
  - now exists EmptyString, s.
  - destruct s as [| c s]; cbn in Hq; [ lia | ].
    destruct (IH s) as (a & b & -> & Ha); [ lia | ].
    exists (String c a), b. split; [ reflexivity | cbn; now rewrite Ha ].
Qed.

Lemma all_space_app (a b : string) :
  all_space (a ++ b) = all_space a && all_space b.
Proof.
  induction a as [| c a IH]; cbn; [ trivial | now rewrite IH, andb_assoc ].
Qed.

(** [find] from an offset inside the white space before a word finds the
    word where it starts. *)
Lemma find_after_gap (pre gap w post : string) (p : Z) :
  all_space gap = true -> is_word w = true ->
  Py.len pre <= p <= Py.len pre + Py.len gap ->
  Py.find (pre ++ gap ++ w ++ post) w p = Py.len pre + Py.len gap.
Proof.
  intros Hgap Hw Hp.
  destruct (str_cut (Z.to_nat (p - Py.len pre)) gap) as (g1 & g2 & -> & Hg1);
    [ unfold Py.len in *; lia | ].
  rewrite all_space_app in Hgap. apply andb_prop in Hgap as [_ Hg2].
  assert (Hne : w <> EmptyString) by (intros ->; discriminate).
  unfold Py.find.
  destruct (Z.ltb_spec p 0) as [ | _ ]; [ pose proof (len_nonneg pre); lia | ].
  replace (pre ++ (g1 ++ g2) ++ w ++ post)
    with ((pre ++ g1) ++ g2 ++ w ++ post) by (now rewrite !app_assoc_str).
  replace (Z.to_nat p) with (String.length (pre ++ g1) + 0)%nat
    by (rewrite length_app; unfold Py.len in *; lia).
  rewrite index_app_from, (index_0_after_spaces g2 _ w Hg2 Hw).
  rewrite index_0_self by exact Hne. cbn [option_map].
  rewrite !len_app. unfold Py.len. rewrite length_app. lia.
Qed.

Lemma str_app_inv_length (a b c d : string) :
  a ++ b = c ++ d -> String.length a = String.length c -> a = c /\ b = d.
Proof.
  revert c; induction a as [| x a IH]; intros c H Hlen.
  - destruct c; [ now split | discriminate ].
  - destruct c as [| y c]; [ discriminate | ].
    cbn in H, Hlen. injection H as -> H. injection Hlen as Hlen.
    destruct (IH c H Hlen) as [-> ->]. now split.
Qed.

Lemma wf_items_gaps (items : list (string * string)) :
  wf_items items -> Forall (fun gap => all_space gap = true) (map snd items).
Proof.
  induction items as [| [w gap] rest IH]; [ constructor | ].
  intros (_ & Hg & _ & Hrest). constructor; [ exact Hg | now apply IH ].
Qed.

Lemma last_all_space (l : list string) :
  Forall (fun gap => all_space gap = true) l -> all_space (last l EmptyString) = true.
Proof.
  induction 1 as [| g l Hg Hl IH]; [ reflexivity | ].
  destruct l; [ exact Hg | exact IH ].
Qed.

Lemma last_skipn {A} (k : nat) (l : list A) (d : A) :
  (k < List.length l)%nat -> last (skipn k l) d = last l d.
Proof.
  revert l; induction k as [| k IH]; intros l Hk; [ reflexivity | ].
  destruct l as [| x l]; cbn in Hk; [ lia | ].
  cbn [skipn]. rewrite IH by lia.
  destruct l; [ cbn in Hk; lia | reflexivity ].
Qed.

Section LayoutChunks.
Variable T : string.
Variables max_tokens overlap_tokens : Z.
Hypothesis Hmax : 0 < max_tokens.
Hypothesis Hov : overlap_tokens = 0 \/ Py.llen (Py.split T) <= max_tokens.

#[local] Abbreviation lead := (fst (layout T)).
#[local] Abbreviation items := (snd (layout T)).
#[local] Abbreviation ws := (Py.split T).
#[local] Abbreviation n := (List.length (Py.split T)).
#[local] Abbreviation m := (Z.to_nat max_tokens).
#[local] Abbreviation offset := (word_offset T).

(** The search offset lies in the white space before word [i]. *)
#[local] Abbreviation in_gap i p :=
  (exists pre gap post,
      T = pre ++ gap ++ post /\ all_space gap = true
      /\ Py.len pre <= p /\ Py.len pre + Py.len gap = offset i).

Lemma items_length : List.length items = n.
Proof. rewrite split_layout. now rewrite length_map. Qed.

Lemma text_split_at (i : nat) :
  T = (lead ++ render_items (firstn i items)) ++ render_items (skipn i items).
Proof.
  rewrite app_assoc_str, <- render_items_app, firstn_skipn.
  apply render_layout.
Qed.

Lemma offset_len (i : nat) :
  offset i = Py.len (lead ++ render_items (firstn i items)).
Proof. unfold word_offset, leading. now rewrite len_app. Qed.

Lemma offset_add (i k : nat) :
  offset (i + k) = offset i + Py.len (render_items (firstn k (skipn i items))).
Proof.
  unfold word_offset. rewrite <- firstn_firstn_skipn, render_items_app, len_app.
  lia.
Qed.

Lemma offset_nonneg (i : nat) : 0 <= offset i.
Proof. rewrite offset_len. apply len_nonneg. Qed.

(** A window of the words in the text: what is before it, the window
    without the white space after its last word, that white space, and
    what is after it. *)
Lemma text_window (i j : nat) :
  (i < j <= n)%nat ->
  let window := firstn (j - i) (skipn i items) in
  T = (lead ++ render_items (firstn i items) ++ core window)
      ++ last (map snd window) EmptyString ++ render_items (skipn j items)
  /\ offset j
     = offset i + Py.len (core window)
       + Py.len (last (map snd window) EmptyString)
  /\ all_space (last (map snd window) EmptyString) = true
  /\ wf_items window.
Proof.
  intros Hij window.
  assert (Hwf : wf_items window)
    by (apply wf_items_firstn, wf_items_skipn, layout_wf).
  split; [ | split; [ | split; [ | exact Hwf ] ] ].
  - rewrite (text_split_at i) at 1.
    rewrite <- (firstn_skipn (j - i) (skipn i items)) at 1.
    fold window. rewrite skipn_skipn.
    replace (j - i + i)%nat with j by lia.
    rewrite render_items_app, (render_core window).
    now rewrite !app_assoc_str.
  - replace j with (i + (j - i))%nat at 1 by lia.
    rewrite offset_add. fold window. rewrite (render_core window), len_app. lia.
  - apply last_all_space, wf_items_gaps, Hwf.
Qed.

(** One pass of the loop from the first word of a window, with the search
    offset at or before that word. *)
Lemma layout_pass (i : nat) (st : LoopState) :
  start_idx st = Z.of_nat i -> (i < n)%nat ->
  0 <= char_pos st <= offset i ->
  let j := Z.to_nat (Z.min (start_idx st + max_tokens) (Py.llen ws)) in
  let window := firstn (j - i) (skipn i items) in
  exists c,
    chunks (fst (loop_body T ws max_tokens overlap_tokens st))
    = (chunks st ++ [c])%list
    /\ (i < j <= n)%nat
    /\ text c = Py.join " " (map fst window)
    /\ end_char c = start_char c + Py.len (text c)
    /\ char_pos (fst (loop_body T ws max_tokens overlap_tokens st)) = end_char c
    /\ char_pos st <= start_char c <= offset i
    /\ (in_gap i (char_pos st) -> start_char c = offset i).
Proof.
  intros Hi Hlt Hpos j window.
  destruct (loop_body_chunks T ws max_tokens overlap_tokens st)
    as (c & Hc & Htext & Hend & Hcp & Hstart).
  assert (Hj : Z.min (start_idx st + max_tokens) (Py.llen ws) = Z.of_nat j)
    by (unfold j, Py.llen; lia).
  assert (Hij : (i < j <= n)%nat) by (unfold j, Py.llen in *; lia).
  assert (Hslice : Py.slice ws (start_idx st)
                            (Z.min (start_idx st + max_tokens) (Py.llen ws))
                   = map fst window).
  { rewrite slice_eq by lia. rewrite Hj, Hi. unfold Py.llen, window.
    rewrite <- firstn_map, <- skipn_map, <- split_layout.
    f_equal; [ lia | f_equal; lia ]. }
  rewrite Hslice in Hstart, Htext.
  assert (Hskip : exists w gap rest, skipn i items = (w, gap) :: rest).
  { destruct (skipn i items) as [| [w gap] rest] eqn:E; [ exfalso | eauto ].
    apply (f_equal (@List.length _)) in E.
    rewrite length_skipn, items_length in E. cbn in E. lia. }
  destruct Hskip as (w & gap & rest & Hskip).
  assert (Hword : is_word w = true).
  { pose proof (wf_items_skipn i items (layout_wf T)) as Hwf.
    rewrite Hskip in Hwf. now destruct Hwf. }
  assert (Hne : w <> EmptyString) by (intros ->; discriminate).
  assert (HT : T = (lead ++ render_items (firstn i items))
                   ++ w ++ gap ++ render_items rest).
  { rewrite (text_split_at i) at 1. now rewrite Hskip. }
  assert (Hs : start_char c = Py.find T w (char_pos st)).
  { rewrite Hstart. unfold window. rewrite Hskip.
    destruct (j - i)%nat as [| k] eqn:Hk; [ lia | reflexivity ]. }
  exists c. split; [ exact Hc | ]. split; [ exact Hij | ].
  split; [ exact Htext | ]. split; [ exact Hend | ]. split; [ exact Hcp | ].
  split.
  - pose proof (find_bound (lead ++ render_items (firstn i items)) w
                  (gap ++ render_items rest) (char_pos st) Hne) as Hfb.
    rewrite <- HT, <- offset_len in Hfb. rewrite Hs. now apply Hfb.
  - intros (pre & g & post & HT' & Hg & Hle & Hoff).
    assert (E : pre ++ g = lead ++ render_items (firstn i items)
                /\ post = w ++ gap ++ render_items rest).
    { apply str_app_inv_length.
      - rewrite app_assoc_str, <- HT'. exact HT.
      - rewrite offset_len in Hoff. rewrite <- len_app in Hoff.
        unfold Py.len in Hoff. lia. }
    destruct E as [_ ->].
    pose proof (find_after_gap pre g w (gap ++ render_items rest) (char_pos st)
                  Hg Hword) as Hfg.
    rewrite <- HT', Hoff in Hfg. rewrite Hs. apply Hfg. lia.
Qed.

(** The index of the last window, at the pass that ends the loop. *)
Lemma last_window_at (q : nat) :
  (q * m < n)%nat -> (n <= q * m + m)%nat -> last_window n max_tokens = (q * m)%nat.
Proof.
  intros Hlo Hhi. unfold last_window.
  assert (Hm : (0 < m)%nat) by lia.
  rewrite (Nat.div_unique (n - 1) m q (n - 1 - q * m)); lia.
Qed.

(** From the first word of a window to the end of the loop. *)
Lemma chunk_loop_layout (fuel q : nat) (st : LoopState) :
  start_idx st = Z.of_nat (q * m) -> (q * m < n)%nat ->
  0 <= char_pos st <= offset (q * m) ->
  (n - q * m < fuel)%nat ->
  exists cs c,
    chunk_loop T ws max_tokens overlap_tokens fuel st = Some cs
    /\ last_chunk cs = Some c
    /\ text c = Py.join " " (skipn (last_window n max_tokens) ws)
    /\ end_char c = start_char c + Py.len (text c)
    /\ 0 <= start_char c <= offset (last_window n max_tokens)
    /\ (windows_tight T max_tokens -> in_gap (q * m) (char_pos st) ->
        start_char c = offset (last_window n max_tokens)).
Proof.
  revert q st; induction fuel as [| fuel IH]; intros q st Hi Hlt Hpos Hfuel;
    [ lia | ].
  rewrite chunk_loop_S.
  destruct (Z.ltb_spec (start_idx st) (Py.llen ws)) as [_ | Hge];
    [ | unfold Py.llen in Hge; lia ].
  destruct (layout_pass (q * m) st Hi Hlt Hpos)
    as (c & Hc & Hij & Htext & Hend & Hcp & Hs & Hexact).
  set (j := Z.to_nat (Z.min (start_idx st + max_tokens) (Py.llen ws))) in *.
  set (window := firstn (j - q * m) (skipn (q * m) items)) in *.
  assert (Hj : Z.of_nat j = Z.min (Z.of_nat (q * m) + max_tokens) (Z.of_nat n))
    by (unfold j, Py.llen; lia).
  destruct (text_window (q * m) j Hij) as (HT & Hoff & Hgap & Hwf).
  fold window in HT, Hoff, Hgap, Hwf.
  destruct (join_core window Hwf) as [Hjoin Htight].
  destruct (snd (loop_body T ws max_tokens overlap_tokens st)) eqn:Hb.
  - (* the last pass *)
    apply loop_body_break in Hb.
    assert (Hjn : j = n) by (unfold j, Py.llen in *; lia).
    assert (Hlast : last_window n max_tokens = (q * m)%nat)
      by (apply last_window_at; lia).
    exists (chunks st ++ [c])%list, c. rewrite Hc.
    split; [ reflexivity | ]. split; [ apply last_chunk_app | ].
    rewrite Hlast. split; [ | split; [ exact Hend | split; [ lia | ] ] ].
    + rewrite Htext. unfold window. rewrite Hjn.
      rewrite firstn_all2 by (rewrite length_skipn, items_length; lia).
      now rewrite <- skipn_map, <- split_layout.
    + intros _ Hin. now apply Hexact.
  - (* a pass that goes on *)
    pose proof (loop_body_advance _ _ _ _ st Hb) as Hadv.
    assert (Hnb : Z.of_nat j < Z.of_nat n).
    { revert Hb. cbn. intros Hb. apply Z.leb_gt in Hb.
      unfold j, Py.llen in *. lia. }
    assert (Hz : overlap_tokens = 0).
    { destruct Hov as [ | Hle ]; trivial. unfold Py.llen in *. lia. }
    assert (Hjq : j = (S q * m)%nat) by lia.
    assert (Hpos' : 0 <= end_char c <= offset j).
    { pose proof (len_nonneg (text c)).
      pose proof (len_nonneg (last (map snd window) EmptyString)).
      rewrite Htext in *. lia. }
    destruct (IH (S q) (fst (loop_body T ws max_tokens overlap_tokens st)))
      as (cs & c' & Hrun & Hl & Ht & He & Hb' & Hex');
      [ lia | lia | rewrite Hcp, <- Hjq; exact Hpos' | lia | ].
    exists cs, c'. split; [ exact Hrun | ]. split; [ exact Hl | ].
    split; [ exact Ht | ]. split; [ exact He | ]. split; [ exact Hb' | ].
    intros Hwin Hin. apply Hex'; [ exact Hwin | ].
    rewrite Hcp, <- Hjq.
    specialize (Hexact Hin).
    assert (Hlen : Py.len (text c) = Py.len (core window)).
    { rewrite Htext. apply Htight.
      specialize (Hwin q). unfold tight in Hwin.
      replace (Nat.min (q * m + m) n) with j in Hwin by lia.
      unfold window. rewrite <- firstn_map, <- skipn_map.
      fold (gaps T).
      destruct (j - q * m)%nat as [| k] eqn:Hk; [ lia | ].
      rewrite removelast_firstn
        by (rewrite length_skipn; unfold gaps; rewrite length_map, items_length; lia).
      replace (j - 1 - q * m)%nat with k in Hwin by lia. exact Hwin. }
    exists (lead ++ render_items (firstn (q * m) items) ++ core window),
      (last (map snd window) EmptyString), (render_items (skipn j items)).
    split; [ exact HT | ]. split; [ exact Hgap | ].
    assert (Hpre : Py.len (lead ++ render_items (firstn (q * m) items)
                                 ++ core window)
                   = offset (q * m) + Py.len (core window)).
    { rewrite <- app_assoc_str, len_app, <- offset_len. reflexivity. }
    rewrite Hpre. split; lia.
Qed.

End LayoutChunks.

(** C4, as amended.  For a text [T] with at least one word, [max_tokens > 0]
    and either [overlap_tokens = 0] or all the words in one chunk, chunking
    ends and the last chunk holds the words from the first word of the last
    window on.  Its [end_char] is at most [len(T)], and it is [len(T)]
    exactly when no white space follows the last word of [T], the words of
    the last chunk are separated in [T] by single white-space characters
    (of any kind), and [start_char] is the offset of the chunk's first
    word.  [start_char] is that offset whenever the words inside every
    window are separated by single white-space characters, whatever white
    space stands before the first word and between two windows; so for
    such a text without white space at its end [end_char] is [len(T)].
    The layout these statements speak of is the text itself: [T] is its
    leading white space followed by its words, each with the white space
    after it. *)
Theorem chunk_text_final_end_char (T : string) (max_tokens overlap_tokens : Z) :
  Py.split T <> [] ->
  0 < max_tokens ->
  overlap_tokens = 0 \/ Py.llen (Py.split T) <= max_tokens ->
  let n := List.length (Py.split T) in
  let first := last_window n max_tokens in
  T = leading T ++ render_items (snd (layout T))
  /\ map fst (snd (layout T)) = Py.split T
  /\ exists cs c,
       (forall fuel, (n < fuel)%nat ->
                     chunk_text fuel T max_tokens overlap_tokens = Some cs)
       /\ last_chunk cs = Some c
       /\ text c = Py.join " " (skipn first (Py.split T))
       /\ end_char c <= Py.len T
       /\ (end_char c = Py.len T
           <-> trailing T = EmptyString
               /\ tight T first n
               /\ start_char c = word_offset T first)
       /\ (windows_tight T max_tokens -> start_char c = word_offset T first)
       /\ (windows_tight T max_tokens -> trailing T = EmptyString ->
           end_char c = Py.len T).
Proof.
  intros Hne Hmax Hov n first.
  split; [ apply render_layout | ].
  split; [ symmetry; apply split_layout | ].
  assert (Hn : (0 < n)%nat)
    by (unfold n; destruct (Py.split T); [ congruence | cbn; lia ]).
  assert (Hm : (0 < Z.to_nat max_tokens)%nat) by lia.
  destruct (chunk_loop_layout T max_tokens overlap_tokens Hmax Hov (S n) 0
              {| start_idx := 0; char_pos := 0; chunks := [] |})
    as (cs & c & Hcs & Hlast & Htext & Hend & Hstart & Hexact);
    [ reflexivity | exact Hn
    | cbn [char_pos]; split; [ lia | apply offset_nonneg ] | lia | ].
  fold n first in Htext, Hstart, Hexact.
  (* the last window in the text *)
  assert (Hfirst : (first < n)%nat).
  { unfold first, last_window.
    pose proof (Nat.Div0.mul_div_le (n - 1) (Z.to_nat max_tokens)). lia. }
  assert (Hupper : (n <= first + Z.to_nat max_tokens)%nat).
  { unfold first, last_window.
    pose proof (Nat.mul_succ_div_gt (n - 1) (Z.to_nat max_tokens)). lia. }
  set (window := skipn first (snd (layout T))).
  assert (Hwf : wf_items window) by (apply wf_items_skipn, layout_wf).
  destruct (join_core window Hwf) as [Hjoin Htight].
  assert (Hwords : map fst window = skipn first (Py.split T))
    by (unfold window; now rewrite <- skipn_map, <- split_layout).
  rewrite Hwords, <- Htext in Hjoin, Htight.
  assert (Hgaps : removelast (map snd window)
                  = firstn (n - 1 - first) (skipn first (gaps T))).
  { unfold window. rewrite <- skipn_map. fold (gaps T).
    rewrite removelast_firstn_len, length_skipn.
    unfold gaps. rewrite length_map, items_length. fold n.
    f_equal. lia. }
  rewrite Hgaps in Htight. fold (tight T first n) in Htight.
  assert (Htrail : last (map snd window) EmptyString = trailing T).
  { unfold window, trailing. rewrite <- skipn_map. fold (gaps T).
    apply last_skipn. unfold gaps. rewrite length_map, items_length.
    exact Hfirst. }
  assert (Hlen : Py.len T
                 = word_offset T first + Py.len (core window)
                   + Py.len (trailing T)).
  { rewrite (text_split_at T first) at 1. fold window.
    rewrite len_app, <- offset_len, (render_core window), len_app, Htrail.
    lia. }
  pose proof (len_nonneg (trailing T)) as Htl.
  assert (Htl0 : Py.len (trailing T) = 0 <-> trailing T = EmptyString).
  { split; [ | now intros -> ].
    destruct (trailing T); [ reflexivity | unfold Py.len; cbn; lia ]. }
  assert (Hiff : end_char c = Py.len T
                 <-> trailing T = EmptyString
                     /\ tight T first n
                     /\ start_char c = word_offset T first).
  { split.
    - intros He. split; [ apply Htl0; lia | ].
      split; [ apply Htight; lia | lia ].
    - intros (Ht & Hti & Hs). apply Htl0 in Ht. apply Htight in Hti. lia. }
  assert (Hwin : windows_tight T max_tokens -> tight T first n).
  { intros H.
    specialize (H ((n - 1) / Z.to_nat max_tokens)%nat).
    fold n in H.
    replace ((n - 1) / Z.to_nat max_tokens * Z.to_nat max_tokens)%nat
      with first in H by (unfold first, last_window; lia).
    now replace (Nat.min (first + Z.to_nat max_tokens) n) with n in H by lia. }
  assert (Hex : windows_tight T max_tokens -> start_char c = word_offset T first).
  { intros H. apply Hexact; [ exact H | ].
    exists EmptyString, (fst (layout T)), (render_items (snd (layout T))).
    split; [ apply render_layout | ].
    split; [ apply layout_lead_space | ].
    cbn [char_pos]. split; [ reflexivity | ].
    unfold word_offset, leading. cbn [Nat.mul firstn render_items].
    change (Py.len EmptyString) with 0. lia. }
  exists cs, c.
  split.
  { intros fuel Hfuel. unfold chunk_text.
    eapply chunk_loop_more_fuel; [ | exact Hcs ]. lia. }
  split; [ exact Hlast | ].
  split; [ exact Htext | ].
  split; [ lia | ].
  split; [ exact Hiff | ].
  split; [ exact Hex | ].
  intros H Ht. apply Hiff. split; [ exact Ht | ].
  split; [ now apply Hwin | now apply Hex ].
Qed.

(** Four words in windows of two, without overlap, with two spaces between
    the windows; and two words on two lines with the default parameters. *)
Lemma chunk_text_final_end_char_witness :
  (exists cs c,
      (forall fuel, (4 < fuel)%nat -> chunk_text fuel "a b  c d" 2 0 = Some cs)
      /\ last_chunk cs = Some c
      /\ text c = "c d"
      /\ end_char c = 8)
  /\ (exists cs c,
         (forall fuel, (2 < fuel)%nat ->
                       chunk_text fuel ("hello" ++ Py.nl ++ "world")
                                  default_max_tokens default_overlap_tokens
                       = Some cs)
         /\ last_chunk cs = Some c
         /\ text c = "hello world"
         /\ end_char c = 11).
Proof.
  split.
  - destruct (chunk_text_final_end_char "a b  c d" 2 0)
      as (_ & _ & cs & c & Hrun & Hlast & Htext & _ & _ & _ & Hend);
      [ discriminate | lia | now left | ].
    exists cs, c. split; [ exact Hrun | ]. split; [ exact Hlast | ].
    split; [ exact Htext | ].
    apply Hend; [ | reflexivity ].
    intros [| [| q]]; [ repeat constructor | repeat constructor | ].
    unfold tight. rewrite skipn_all2; [ now rewrite firstn_nil | ].
    change (List.length (gaps "a b  c d")) with 4%nat.
    change (Z.to_nat 2) with 2%nat. lia.
  - destruct (chunk_text_final_end_char ("hello" ++ Py.nl ++ "world")
                default_max_tokens default_overlap_tokens)
      as (_ & _ & cs & c & Hrun & Hlast & Htext & _ & _ & _ & Hend);
      [ discriminate | reflexivity | right; now vm_compute | ].
    exists cs, c. split; [ exact Hrun | ]. split; [ exact Hlast | ].
    split; [ exact Htext | ].
    apply Hend; [ | reflexivity ].
    intros [| q]; [ repeat constructor | ].
    unfold tight. rewrite skipn_all2; [ now rewrite firstn_nil | ].
    change (List.length (gaps ("hello" ++ Py.nl ++ "world"))) with 2%nat.
    change (Z.to_nat default_max_tokens) with 512%nat. lia.
Defined.

End IngestTheory.

(* ===================================================================== *)
(** * From ingestion to the response *)
(* ===================================================================== *)

Module PipelineTheory.
Import Claims.

Lemma file_points_nth (uuid_stream : nat -> Eff.UUID) (chapter_slug : string)
      (score : float) (chunks : list Ingest.Chunk) :
  forall (embeddings : list (list float)) (drawn : nat) (i : Z)
         (k : nat) (c : Ingest.Chunk) (e : list float),
    nth_error chunks k = Some c -> nth_error embeddings k = Some e ->
    option_map (fun p => (Ingest.id p, Ingest.vector p,
                          Retrieval.result_of_hit (hit_of_point score p)))
               (nth_error (Ingest.file_points uuid_stream drawn i chapter_slug
                                              chunks embeddings) k)
    = Some (uuid_stream (drawn + k)%nat, e,
            stored_result chapter_slug score (i + Z.of_nat k) c).
Proof.
  induction chunks as [| c0 chunks IH]; intros [| e0 embeddings] drawn i k c e Hc He;
    try (destruct k; discriminate).
  destruct k as [| k].
  - injection Hc as <-. injection He as <-.
    cbn. unfold stored_result. now rewrite Z.add_0_r, Nat.add_0_r.
  - cbn [nth_error] in Hc, He. cbn [Ingest.file_points nth_error].
    rewrite (IH embeddings (S drawn) (i + 1) k c e Hc He).
    replace (S drawn + k)%nat with (drawn + S k)%nat by lia.
    replace (i + 1 + Z.of_nat k) with (i + Z.of_nat (S k)) by lia. reflexivity.
Qed.

Lemma file_points_length (uuid_stream : nat -> Eff.UUID) (chapter_slug : string)
      (chunks : list Ingest.Chunk) :
  forall (embeddings : list (list float)) (drawn : nat) (i : Z),
    List.length (Ingest.file_points uuid_stream drawn i chapter_slug chunks
                                    embeddings)
    = Nat.min (List.length chunks) (List.length embeddings).
Proof.
  induction chunks as [| c chunks IH]; intros [| e embeddings] drawn i;
    try reflexivity.
  cbn [Ingest.file_points List.length]. now rewrite IH.
Qed.

(** X13.  What ingestion stores comes back unchanged: when a document's
    chunk number [k] and its embedding are made into a point by
    [ingest_docs] and the point is later returned as a hit, the retrieval
    result carries the chunk's text and offsets, the chapter slug, the
    section id computed from the chunk text and [chunk_index = k]; the point
    holds that embedding and the [k]-th drawn id.  There are as many points
    as pairs of chunk and embedding. *)
Theorem ingested_chunk_round_trip
        (uuid_stream : nat -> Eff.UUID) (drawn : nat) (chapter_slug : string)
        (score : float) (chunks : list Ingest.Chunk)
        (embeddings : list (list float))
        (k : nat) (c : Ingest.Chunk) (e : list float) :
  nth_error chunks k = Some c -> nth_error embeddings k = Some e ->
  let points := Ingest.file_points uuid_stream drawn 0 chapter_slug chunks
                                   embeddings in
  (exists p,
      nth_error points k = Some p
      /\ Ingest.id p = uuid_stream (drawn + k)%nat
      /\ Ingest.vector p = e
      /\ nth_error (Retrieval.results_of_hits (map (hit_of_point score) points)) k
         = Some (stored_result chapter_slug score (Z.of_nat k) c))
  /\ List.length points = Nat.min (List.length chunks) (List.length embeddings).
Proof.
  intros Hc He points. split; [ | apply file_points_length ].
  pose proof (file_points_nth uuid_stream chapter_slug score chunks embeddings
                drawn 0 k c e Hc He) as H.
  fold points in H.
  destruct (nth_error points k) as [p |] eqn:Hp; [ | discriminate ].
  cbn [option_map] in H.
  remember (Retrieval.result_of_hit (hit_of_point score p)) as res eqn:Hres.
  remember (stored_result chapter_slug score (0 + Z.of_nat k) c) as want eqn:Hwant.
  injection H as Hid Hv Hr. subst res want.
  exists p. repeat split; trivial.
  unfold Retrieval.results_of_hits. rewrite map_map.
  rewrite nth_error_map, Hp. cbn [option_map]. now rewrite Hr.
Qed.

(** The second of two chunks. *)
Lemma ingested_chunk_round_trip_witness :
  let chunks := [ {| Ingest.text := "## Nodes A node";
                     Ingest.start_char := 0; Ingest.end_char := 15 |};
                  {| Ingest.text := "is a process.";
                     Ingest.start_char := 16; Ingest.end_char := 29 |} ] in
  let points := Ingest.file_points uuid_count 0 0 "ros2" chunks
                                   [ [0.1]; [0.2] ]%float in
  (exists p,
      nth_error points 1 = Some p
      /\ Ingest.id p = uuid_count 1
      /\ Ingest.vector p = [0.2]%float
      /\ nth_error (Retrieval.results_of_hits (map (hit_of_point 0.9%float) points)) 1
         = Some (stored_result "ros2" 0.9%float 1
                               {| Ingest.text := "is a process.";
                                  Ingest.start_char := 16;
                                  Ingest.end_char := 29 |}))
  /\ List.length points = 2%nat.
Proof.
  intros chunks points.
  apply (ingested_chunk_round_trip uuid_count 0 "ros2" 0.9%float chunks
           [ [0.1]; [0.2] ]%float 1); reflexivity.
Defined.

(* --------------------------------------------------------------------- *)
(** ** Chapter names and section titles *)
(* --------------------------------------------------------------------- *)

Lemma dict_get_missing (d : list (string * string)) (k default : string) :
  ~ In k (map fst d) -> Retrieval.dict_get d k default = default.
Proof.
  induction d as [| [k' v] d IH]; [ reflexivity | ].
  cbn [map fst In Retrieval.dict_get]. intros H.
  destruct (String.eqb_spec k k') as [-> | _]; [ elim H; now left | ].
  apply IH. intros Hin. apply H. now right.
Qed.

(** X14.  The chapter title of a citation and the chapter name written into
    the prompt agree exactly for the chapters that are not in
    [CHAPTER_TITLES]: for each of the six known chapters the citation shows
    the title of the table and the prompt the title-cased slug. *)
Theorem chapter_title_differs_for_known_chapters
        (round : float -> Z -> float) (result : Retrieval.RetrievalResult) :
  Schemas.chapter_title (Chat.source_fields round result)
  = prompt_chapter_name (Retrieval.chapter_slug result)
  <-> ~ In (Retrieval.chapter_slug result) (map fst Retrieval.CHAPTER_TITLES).
Proof.
  cbn [Schemas.chapter_title Chat.source_fields].
  unfold Retrieval.get_chapter_title, prompt_chapter_name.
  split.
  - intros E Hin. cbn in Hin.
    destruct Hin as [H | [H | [H | [H | [H | [H | []]]]]]];
      rewrite <- H in E; vm_compute in E; discriminate E.
  - apply dict_get_missing.
Qed.

Lemma split_on_aux_first (sep : ascii) (a b cur : string) :
  str_all (fun c => negb (Ascii.eqb c sep)) a = true ->
  Py.split_on_aux sep cur (a ++ String sep b)
  = (cur ++ a) :: Py.split_on_aux sep EmptyString b.
Proof.
  revert cur; induction a as [| c a IH]; intros cur H; cbn [append Py.split_on_aux].
  - now rewrite Ascii.eqb_refl, IngestTheory.app_empty_r.
  - cbn in H. apply andb_prop in H as [Hc Ha].
    apply negb_true_iff in Hc. rewrite Hc, (IH _ Ha).
    now rewrite IngestTheory.app_assoc_str.
Qed.

Lemma contains_char_free (sep : ascii) (s : string) :
  str_all (fun c => negb (Ascii.eqb c sep)) s = true ->
  Py.contains_char sep s = false.
Proof.
  induction s as [| c s IH]; [ reflexivity | ].
  cbn. intros H. apply andb_prop in H as [Hc Hs].
  rewrite (IH Hs), Ascii.eqb_sym. apply negb_true_iff in Hc. now rewrite Hc.
Qed.

Lemma contains_char_app (sep : ascii) (a b : string) :
  Py.contains_char sep (a ++ String sep b) = true.
Proof.
  induction a as [| c a IH]; cbn.
  - now rewrite Ascii.eqb_refl.
  - rewrite IH. apply orb_true_r.
Qed.

(** X15.  The section title of a citation is read back from the section id
    that ingestion wrote: for a chapter slug without hash and a section id
    made by [extract_section_id], [build_sources] gives no section title
    when the chunk had no heading, and otherwise the title-cased heading
    slug with its hyphens turned into spaces. *)
Theorem section_title_from_section_id
        (round : float -> Z -> float) (result : Retrieval.RetrievalResult)
        (text_in : string) :
  str_all (fun c => negb (Ascii.eqb c "#")) (Retrieval.chapter_slug result) = true ->
  Retrieval.section_id result
  = Some (Ingest.extract_section_id text_in (Retrieval.chapter_slug result)) ->
  Schemas.section_title (Chat.source_fields round result)
  = option_map (fun heading =>
                  Py.title (Py.replace_char "-" " " (Ingest.heading_slug_of heading)))
               (Ingest.heading_search (Py.lines text_in)).
Proof.
  intros Hslug Hsid. cbn [Schemas.section_title Chat.source_fields].
  rewrite Hsid. unfold Ingest.extract_section_id.
  destruct (Ingest.heading_search (Py.lines text_in)) as [h |]; cbn [option_map].
  - change (Retrieval.chapter_slug result ++ "#" ++ Ingest.heading_slug_of h)
      with (Retrieval.chapter_slug result
            ++ String "#" (Ingest.heading_slug_of h)).
    rewrite contains_char_app.
    assert (Hne : Py.is_empty (Retrieval.chapter_slug result
                               ++ String "#" (Ingest.heading_slug_of h)) = false)
      by (now destruct (Retrieval.chapter_slug result)).
    rewrite Hne. cbn [negb andb].
    unfold Py.split_on. rewrite split_on_aux_first by exact Hslug.
    rewrite IngestTheory.split_on_aux_no_sep.
    + reflexivity.
    + destruct (IngestTheory.extract_section_id_free h) as [_ H]. exact H.
  - rewrite (contains_char_free _ _ Hslug). now rewrite andb_false_r.
Qed.

(** A chunk that starts with a heading of level two. *)
Lemma section_title_from_section_id_witness :
  let text_in := "## Nodes and topics" in
  let result := {| Retrieval.chunk_text := text_in;
                   Retrieval.chapter_slug := "ros2-fundamentals";
                   Retrieval.section_id :=
                     Some (Ingest.extract_section_id text_in "ros2-fundamentals");
                   Retrieval.chunk_index := 0;
                   Retrieval.score := 0.8%float;
                   Retrieval.start_char := 0;
                   Retrieval.end_char := 19 |} in
  Schemas.section_title (Chat.source_fields round_id result)
  = option_map (fun heading =>
                  Py.title (Py.replace_char "-" " " (Ingest.heading_slug_of heading)))
               (Ingest.heading_search (Py.lines text_in)).
Proof.
  intros text_in result.
  apply (section_title_from_section_id round_id result text_in); reflexivity.
Defined.

(* --------------------------------------------------------------------- *)
(** ** The prompt context *)
(* --------------------------------------------------------------------- *)

Lemma join_In (sep x : string) (l : list string) :
  In x l -> exists pre post, Py.join sep l = pre ++ x ++ post.
Proof.
  induction l as [| y l IH]; [ intros [] | ].
  intros [-> | Hin].
  - exists EmptyString. destruct (IngestTheory.join_head sep x l) as [tail ->].
    now exists tail.
  - destruct l as [| z l]; [ destruct Hin | ].
    destruct (IH Hin) as (pre & post & E).
    exists (y ++ sep ++ pre), post.
    rewrite IngestTheory.join_cons, E.
    now rewrite !IngestTheory.app_assoc_str.
Qed.

Lemma context_parts_In (results : list Retrieval.RetrievalResult)
      (result : Retrieval.RetrievalResult) :
  forall i : nat,
    In result results ->
    exists k : nat,
      (i <= k < i + List.length results)%nat
      /\ In ("[Source " ++ Py.str_of_nat k ++ ": "
             ++ prompt_chapter_name (Retrieval.chapter_slug result) ++ "]" ++ Py.nl
             ++ Retrieval.chunk_text result)
            (Generation.context_parts i results).
Proof.
  induction results as [| r rs IH]; intros i; [ intros [] | ].
  intros [-> | Hin]; cbn [Generation.context_parts List.length].
  - exists i. split; [ lia | now left ].
  - destruct (IH (S i) Hin) as (k & Hk & Hpart).
    exists k. split; [ lia | now right ].
Qed.

(** X16.  The prompt context is never empty: it is the fixed placeholder
    for an empty result list, and otherwise it holds, for every result, a
    label "[Source k: chapter name]" with [1 <= k <= len(results)] followed by
    a newline and the whole chunk text, not only its excerpt. *)
Theorem format_context_holds_every_chunk (results : list Retrieval.RetrievalResult) :
  Generation.format_context results <> EmptyString
  /\ (results = [] ->
      Generation.format_context results
      = "No relevant content found in the textbook.")
  /\ (forall result,
         In result results ->
         exists (k : nat) (before after : string),
           (1 <= k <= List.length results)%nat
           /\ Generation.format_context results
              = before
                ++ ("[Source " ++ Py.str_of_nat k ++ ": "
                    ++ prompt_chapter_name (Retrieval.chapter_slug result) ++ "]"
                    ++ Py.nl ++ Retrieval.chunk_text result)
                ++ after).
Proof.
  split; [ | split ].
  - destruct results as [| r rs]; [ discriminate | ].
    unfold Generation.format_context.
    destruct (IngestTheory.join_head (Py.nl ++ Py.nl)
                ("[Source " ++ Py.str_of_nat 1 ++ ": "
                 ++ Py.title (Py.replace_char "-" " " (Retrieval.chapter_slug r))
                 ++ "]" ++ Py.nl ++ Retrieval.chunk_text r)
                (Generation.context_parts 2 rs)) as [tail E].
    cbn [Generation.context_parts]. rewrite E. discriminate.
  - now intros ->.
  - intros result Hin.
    destruct (context_parts_In results result 1 Hin) as (k & Hk & Hpart).
    destruct (join_In (Py.nl ++ Py.nl) _ _ Hpart) as (pre & post & E).
    exists k, pre, post. split; [ lia | ].
    destruct results; [ destruct Hin | exact E ].
Qed.

(** Two hits: the second chunk is in the context in full. *)
Lemma format_context_holds_every_chunk_witness :
  let first := sample_result "Gazebo simulates rigid bodies." 0.8%float in
  let second := sample_result (repeat_char "b" 300) 0.7%float in
  exists (k : nat) (before after : string),
    (1 <= k <= 2)%nat
    /\ Generation.format_context [first; second]
       = before
         ++ ("[Source " ++ Py.str_of_nat k ++ ": "
             ++ prompt_chapter_name (Retrieval.chapter_slug second) ++ "]"
             ++ Py.nl ++ Retrieval.chunk_text second)
         ++ after.
Proof.
  intros first second.
  apply (proj2 (proj2 (format_context_holds_every_chunk [first; second])) second).
  right; now left.
Defined.

(* --------------------------------------------------------------------- *)
(** ** Hits without payload *)
(* --------------------------------------------------------------------- *)

(** X17.  The conversion of hits keeps their number, order and scores, so
    the top score is the score of the first hit; and a hit that comes
    without payload, or with an empty one, is cited as chapter "unknown"
    with the title "Unknown", no section and an empty excerpt. *)
Theorem hits_keep_scores_and_default_fields
        (round : float -> Z -> float) (hits : list Retrieval.ScoredPoint) :
  map Retrieval.score (Retrieval.results_of_hits hits)
  = map Retrieval.hit_score hits
  /\ Chat.top_score (Retrieval.results_of_hits hits)
     = match hits with
       | hit :: _ => Retrieval.hit_score hit
       | [] => 0%float
       end
  /\ (forall hit,
         In hit hits ->
         Retrieval.hit_payload hit = None
         \/ Retrieval.hit_payload hit = Some Retrieval.empty_payload ->
         Chat.source_fields round (Retrieval.result_of_hit hit)
         = {| Schemas.chapter_slug := "unknown";
              Schemas.chapter_title := "Unknown";
              Schemas.section_id := None;
              Schemas.section_title := None;
              Schemas.excerpt := EmptyString;
              Schemas.score := round (Retrieval.hit_score hit) 3 |}).
Proof.
  split; [ | split ].
  - unfold Retrieval.results_of_hits. rewrite map_map. now apply map_ext.
  - now destruct hits.
  - intros hit _ [H | H]; unfold Chat.source_fields, Retrieval.result_of_hit;
      rewrite H; reflexivity.
Qed.

(** A hit without payload. *)
Lemma hits_keep_scores_and_default_fields_witness :
  let hit := {| Retrieval.hit_payload := None;
                Retrieval.hit_score := 0.5%float |} in
  Chat.source_fields round_id (Retrieval.result_of_hit hit)
  = {| Schemas.chapter_slug := "unknown";
       Schemas.chapter_title := "Unknown";
       Schemas.section_id := None;
       Schemas.section_title := None;
       Schemas.excerpt := EmptyString;
       Schemas.score := 0.5%float |}.
Proof.
  intros hit.
  apply (proj2 (proj2 (hits_keep_scores_and_default_fields round_id [hit])) hit).
  - now left.
  - now left.
Defined.

End PipelineTheory.

(* ===================================================================== *)
(** * The rate limiter of src/main.py *)
(* ===================================================================== *)

Module MainTheory.

Section Limiter.
Variable limits : Main.Limits.
Variable Time : Type.
Variable window_expired : Time -> Time -> bool.
Variable retry_after_seconds : Time -> Time -> Z.
Variable sha256_hexdigest : string -> string.

#[local] Abbreviation check_rate_limit :=
  (Main.check_rate_limit limits Time window_expired retry_after_seconds).
#[local] Abbreviation check_all :=
  (Main.check_all limits Time window_expired retry_after_seconds).
#[local] Abbreviation rate_limit_middleware :=
  (Main.rate_limit_middleware limits Time window_expired retry_after_seconds
     sha256_hexdigest).
#[local] Abbreviation limit := (Main.rate_limit_requests limits).

Lemma store_set_same (store : Main.Store Time) key value :
  Main.store_set Time store key value key = Some value.
Proof. unfold Main.store_set. now rewrite String.eqb_refl. Qed.

Lemma store_set_other (store : Main.Store Time) key value k :
  k <> key -> Main.store_set Time store key value k = store k.
Proof.
  intros Hk. unfold Main.store_set.
  destruct (String.eqb_spec k key); [ contradiction | reflexivity ].
Qed.

(** A request that opens a window is let through and leaves the count 1. *)
Lemma check_rate_limit_opens client_hash now store :
  Claims.opens_window window_expired store client_hash now ->
  check_rate_limit client_hash now store
  = ((true, None),
     Main.store_set Time store client_hash
       {| Main.count := 1; Main.window_start := now |}).
Proof.
  unfold Claims.opens_window, Main.check_rate_limit.
  destruct (store client_hash) as [data | ]; [ | reflexivity ].
  now intros ->.
Qed.

(** A request inside a running window is let through while the count is
    below the limit, and is then counted. *)
Lemma check_rate_limit_running client_hash now store c start :
  store client_hash = Some {| Main.count := c; Main.window_start := start |} ->
  window_expired now start = false ->
  check_rate_limit client_hash now store
  = if limit <=? c
    then ((false, Some (retry_after_seconds now start)), store)
    else ((true, None),
          Main.store_set Time store client_hash
            {| Main.count := c + 1; Main.window_start := start |}).
Proof.
  intros Hs He. unfold Main.check_rate_limit. rewrite Hs. cbn.
  now rewrite He.
Qed.

Lemma check_all_running client_hash start times :
  forall c store,
    store client_hash = Some {| Main.count := c; Main.window_start := start |} ->
    (forall t, In t times -> window_expired t start = false) ->
    fst (check_all client_hash times store)
    = map (fun k => c + Z.of_nat k <? limit) (seq 0 (List.length times))
    /\ snd (check_all client_hash times store) client_hash
       = Some {| Main.count := Z.max c (Z.min (c + Z.of_nat (List.length times)) limit);
                 Main.window_start := start |}.
Proof.
  induction times as [ | now rest IH]; intros c store Hs Hin.
  - cbn. split; [ reflexivity | ]. rewrite Hs. do 2 f_equal. lia.
  - cbn [Main.check_all].
    rewrite (check_rate_limit_running client_hash now store c start Hs)
      by (apply Hin; now left).
    destruct (Z.leb_spec limit c) as [Hge | Hlt].
    + destruct (IH c store Hs (fun t Ht => Hin t (or_intror Ht))) as [IH1 IH2].
      destruct (check_all client_hash rest store) as [verdicts store''].
      cbn [fst snd] in *. split.
      * cbn [List.length seq map]. rewrite Z.add_0_r.
        destruct (Z.ltb_spec c limit); [ lia | ]. f_equal.
        rewrite IH1, <- seq_shift, map_map. apply map_ext. intros k.
        destruct (Z.ltb_spec (c + Z.of_nat k) limit),
                 (Z.ltb_spec (c + Z.of_nat (S k)) limit); lia || reflexivity.
      * rewrite IH2. do 2 f_equal. cbn [List.length]. lia.
    + destruct (IH (c + 1)
                  (Main.store_set Time store client_hash
                     {| Main.count := c + 1; Main.window_start := start |})
                  (store_set_same _ _ _)
                  (fun t Ht => Hin t (or_intror Ht))) as [IH1 IH2].
      destruct (check_all client_hash rest _) as [verdicts store''].
      cbn [fst snd] in *. split.
      * cbn [List.length seq map]. rewrite Z.add_0_r.
        destruct (Z.ltb_spec c limit); [ | lia ]. f_equal.
        rewrite IH1, <- seq_shift, map_map. apply map_ext. intros k.
        f_equal. lia.
      * rewrite IH2. do 2 f_equal. cbn [List.length]. lia.
Qed.

(** A single call keeps every count between 1 and the limit. *)
Lemma check_rate_limit_counts client_hash now store :
  Claims.counts_within limits store ->
  Claims.counts_within limits (snd (check_rate_limit client_hash now store)).
Proof.
  intros Hinv key data. unfold Main.check_rate_limit.
  destruct (store client_hash) as [d | ] eqn:Hs.
  - destruct (window_expired now (Main.window_start Time d)).
    + cbn [snd]. unfold Main.store_set.
      destruct (key =? client_hash)%string; [ | apply Hinv ].
      intros [= <-]. cbn. lia.
    + destruct (Z.leb_spec limit (Main.count Time d)) as [Hge | Hlt].
      * cbn [snd]. apply Hinv.
      * cbn [snd]. unfold Main.store_set.
        destruct (key =? client_hash)%string; [ | apply Hinv ].
        intros [= <-]. cbn. specialize (Hinv _ _ Hs). lia.
  - cbn [snd]. unfold Main.store_set.
    destruct (key =? client_hash)%string; [ | apply Hinv ].
    intros [= <-]. cbn. lia.
Qed.

(** X18. Within one window a client gets exactly as many requests through
    as the limit says, and at least one: when a request opens a window
    and the requests after it all fall inside that window, the k-th
    request (from 0) is let through exactly if [k < max 1 limit], whatever
    the times and however many requests follow; the count stored at the
    end is the number of requests let through. *)
Theorem rate_limit_window_budget client_hash now times store :
  Claims.opens_window window_expired store client_hash now ->
  (forall t, In t times -> window_expired t now = false) ->
  fst (check_all client_hash (now :: times) store)
  = map (fun k => Z.of_nat k <? Z.max 1 limit) (seq 0 (S (List.length times)))
  /\ snd (check_all client_hash (now :: times) store) client_hash
     = Some {| Main.count :=
                 Z.min (Z.of_nat (S (List.length times))) (Z.max 1 limit);
               Main.window_start := now |}.
Proof.
  intros Hopen Hin. cbn [Main.check_all].
  rewrite (check_rate_limit_opens _ _ _ Hopen).
  destruct (check_all_running client_hash now times 1
              (Main.store_set Time store client_hash
                 {| Main.count := 1; Main.window_start := now |})
              (store_set_same _ _ _) Hin) as [H1 H2].
  destruct (check_all client_hash times _) as [verdicts store''].
  cbn [fst snd] in *. split.
  - cbn [seq map]. f_equal.
    + symmetry. apply Z.ltb_lt. lia.
    + rewrite H1, <- seq_shift, map_map. apply map_ext. intros k.
      destruct (Z.ltb_spec (1 + Z.of_nat k) limit),
               (Z.ltb_spec (Z.of_nat (S k)) (Z.max 1 limit)); lia || reflexivity.
  - rewrite H2. do 2 f_equal. lia.
Qed.

(** X19. The middleware keeps the store well-formed: if every stored
    count is between 1 and the limit (1 if the limit is smaller), it
    still is after the middleware has handled any request at any time. *)
Theorem rate_limit_counts_bounded request now store :
  Claims.counts_within limits store ->
  Claims.counts_within limits (snd (rate_limit_middleware request now store)).
Proof.
  intros Hinv. unfold Main.rate_limit_middleware.
  destruct (prefix "/chat" (Main.path request)); [ | exact Hinv ].
  pose proof (check_rate_limit_counts
                (Main.get_client_hash sha256_hexdigest request) now store Hinv)
    as H.
  destruct (check_rate_limit _ now store) as [[is_allowed retry_after] store'].
  cbn [snd] in H. now destruct is_allowed.
Qed.

(** Closes one path through the middleware. *)
Ltac limiter_case :=
  cbn [fst snd negb]; repeat split; try easy;
  try (intros key Hk; now apply store_set_other);
  try (intros (Hp & d & Hd1 & Hd2 & Hd3);
       first [ discriminate
             | congruence
             | injection Hd1 as <-; first [ congruence | lia ] ]);
  try (eexists; now repeat split).

(** X20. What the middleware can do. It never touches the entry of
    another client; a request whose path does not start with /chat is
    handed on and leaves the store as it is; and it answers a request
    itself exactly if the path starts with /chat and the client's entry
    has a running window whose count has reached the limit: the answer is
    then 429 RATE_LIMIT_EXCEEDED with the time to wait, and the store is
    unchanged, so a refused request is not counted and does not prolong
    the window. *)
Theorem rate_limit_middleware_outcomes request now store :
  let client_hash := Main.get_client_hash sha256_hexdigest request in
  let verdict := fst (rate_limit_middleware request now store) in
  let store' := snd (rate_limit_middleware request now store) in
  (forall key, key <> client_hash -> store' key = store key)
  /\ (prefix "/chat" (Main.path request) = false ->
      verdict = Main.CallNext /\ forall key, store' key = store key)
  /\ (verdict <> Main.CallNext <->
      prefix "/chat" (Main.path request) = true
      /\ exists data,
           store client_hash = Some data
           /\ window_expired now (Main.window_start Time data) = false
           /\ limit <= Main.count Time data)
  /\ (verdict <> Main.CallNext ->
      (forall key, store' key = store key)
      /\ exists data,
           store client_hash = Some data
           /\ verdict
              = Main.TooManyRequests 429 Schemas.RATE_LIMIT_EXCEEDED
                  (Some (retry_after_seconds now (Main.window_start Time data)))).
Proof.
  cbv zeta. unfold Main.rate_limit_middleware.
  destruct (prefix "/chat" (Main.path request)); [ | limiter_case ].
  set (client_hash := Main.get_client_hash sha256_hexdigest request).
  unfold Main.check_rate_limit.
  destruct (store client_hash) as [data | ] eqn:Hs; [ | limiter_case ].
  destruct (window_expired now (Main.window_start Time data)) eqn:He;
    [ limiter_case | ].
  destruct (Z.leb_spec limit (Main.count Time data)) as [Hge | Hlt];
    limiter_case.
Qed.

End Limiter.

(** Two requests against a limit of 2 open a window at second 10; the
    third and fourth, inside the hour, are refused. *)
Lemma rate_limit_window_budget_witness :
  let limits := {| Main.rate_limit_requests := 2;
                   Main.rate_limit_window_seconds := 3600 |} in
  fst (Main.check_all limits Z (Claims.expired_after 3600)
         (Claims.seconds_left 3600) "client" [10; 11; 12; 3609]
         (Main.empty_store Z))
  = [true; true; false; false].
Proof.
  intros limits.
  refine (proj1 (rate_limit_window_budget limits Z (Claims.expired_after 3600)
                   (Claims.seconds_left 3600) "client" 10 [11; 12; 3609]
                   (Main.empty_store Z) _ _)).
  - exact I.
  - intros t [<- | [<- | [<- | []]]]; reflexivity.
Defined.

(** A store in which one client has used one of its two requests and
    another has used both: the counts are within the limit before the
    second request of the first client, and after it, when both counts
    are 2. *)
Lemma rate_limit_counts_bounded_witness :
  let limits := {| Main.rate_limit_requests := 2;
                   Main.rate_limit_window_seconds := 3600 |} in
  let store :=
    Main.store_set Z
      (Main.store_set Z (Main.empty_store Z) "10.0.0.1"
         {| Main.count := 1; Main.window_start := 10 |})
      "10.0.0.2" {| Main.count := 2; Main.window_start := 5 |} in
  let store' :=
    snd (Main.rate_limit_middleware limits Z
           (Claims.expired_after 3600) (Claims.seconds_left 3600)
           (fun s => s)
           {| Main.path := "/chat/message";
              Main.client_host := Some "10.0.0.1";
              Main.x_forwarded_for := EmptyString |}
           20 store) in
  Claims.counts_within limits store
  /\ Claims.counts_within limits store'
  /\ store' "10.0.0.1" = Some {| Main.count := 2; Main.window_start := 10 |}
  /\ store' "10.0.0.2" = Some {| Main.count := 2; Main.window_start := 5 |}.
Proof.
  intros limits store store'.
  assert (H : Claims.counts_within limits store).
  { intros key data. unfold store, Main.store_set, Main.empty_store.
    destruct (key =? "10.0.0.2")%string; [ intros [= <-]; cbn; lia | ].
    destruct (key =? "10.0.0.1")%string; [ intros [= <-]; cbn; lia | ].
    discriminate. }
  split; [ exact H | ].
  split; [ | split; reflexivity ].
  exact (rate_limit_counts_bounded limits Z (Claims.expired_after 3600)
           (Claims.seconds_left 3600) (fun s => s)
           {| Main.path := "/chat/message";
              Main.client_host := Some "10.0.0.1";
              Main.x_forwarded_for := EmptyString |}
           20 store H).
Defined.

(** The health endpoint is not limited. *)
Lemma rate_limit_middleware_outcomes_witness :
  fst (Main.rate_limit_middleware Main.default_limits Z
         (Claims.expired_after 3600) (Claims.seconds_left 3600)
         (fun s => s)
         {| Main.path := "/health";
            Main.client_host := None;
            Main.x_forwarded_for := EmptyString |}
         10 (Main.empty_store Z))
  = Main.CallNext.
Proof.
  refine (proj1 (proj1 (proj2 (rate_limit_middleware_outcomes
                   Main.default_limits Z
                   (Claims.expired_after 3600) (Claims.seconds_left 3600)
                   (fun s => s)
                   {| Main.path := "/health";
                      Main.client_host := None;
                      Main.x_forwarded_for := EmptyString |}
                   10 (Main.empty_store Z))) _)).
  vm_compute. reflexivity.
Defined.

End MainTheory.
